(** * AidAuditor: custody ledger and milestone-release engine

    A shallow embedding of [Smart Contract/AidAuditor.sol].

    - [uint256], [bytes32] and [address] values are integers ([Z]); the
      checked arithmetic of Solidity 0.8 is written out: an operation whose
      result leaves [0 .. 2^256-1] reverts.
    - Storage mappings are finite maps; a key that was never written reads
      as the all-zero value, as in Solidity.
    - A contract function is a computation in the monad [M]: it reads and
      writes the storage, may revert with an [error], and returns the list of
      [effect]s it performed, in program order (storage writes, value
      transfers, events).  A revert discards every change of the call.
    - The execution environment of a call ([Env]) gives [msg.sender],
      [block.timestamp] and, for every recipient and amount, whether the
      recipient accepts a transfer.  A transfer is the platform's
      [transfer_value]: it succeeds or fails, and the recipient does not call
      back into the ledger while it runs.
    - [keccak256(abi.encodePacked(s))] of two strings is compared in
      [scanAsset]; digests are identified with their preimages (no
      collisions), so the comparison is string equality. *)

From stdpp Require Import gmap strings list fin_maps.
From Stdlib Require Import ZArith Lia.

Open Scope Z_scope.

(** ** Data model *)

Definition address := Z.
Definition bytes32 := Z.
Definition uint256 := Z.

Definition MAX_UINT256 : Z := 2 ^ 256 - 1.

Inductive Stage : Type :=
| Warehouse
| Transport
| Hub
| LocalTransport
| Beneficiary.

(** [uint256(stage)]: the position of a member in the enum. *)
Definition stage_index (st : Stage) : Z :=
  match st with
  | Warehouse => 0
  | Transport => 1
  | Hub => 2
  | LocalTransport => 3
  | Beneficiary => 4
  end.

Definition stage_lt (a b : Stage) : bool := stage_index a <? stage_index b.
Definition stage_ge (a b : Stage) : bool := stage_index b <=? stage_index a.
Definition stage_eq (a b : Stage) : bool := stage_index a =? stage_index b.

Inductive Role : Type :=
| DEFAULT_ADMIN_ROLE
| ADMIN_ROLE
| AUDITOR_ROLE
| SCANNER_ROLE
| NGO_ROLE.

Global Instance Role_eq_dec : EqDecision Role.
Proof. solve_decision. Defined.

Definition role_code (r : Role) : nat :=
  match r with
  | DEFAULT_ADMIN_ROLE => 0
  | ADMIN_ROLE => 1
  | AUDITOR_ROLE => 2
  | SCANNER_ROLE => 3
  | NGO_ROLE => 4
  end%nat.

Definition role_of_code (n : nat) : Role :=
  match n with
  | O => DEFAULT_ADMIN_ROLE
  | 1 => ADMIN_ROLE
  | 2 => AUDITOR_ROLE
  | 3 => SCANNER_ROLE
  | _ => NGO_ROLE
  end%nat.

Global Instance Role_countable : Countable Role.
Proof.
  apply (inj_countable' role_code role_of_code).
  intros r. destruct r; reflexivity.
Defined.

Record Asset : Type := mkAsset {
  allocatedFunds : uint256;
  releasedFunds : uint256;
  scansCount : uint256;
  donorTimestamp : uint256;
  assetDescription : string;
  currentGeoTag : string;
  currentStage : Stage;
  isFlagged : bool;
  isRefunded : bool;
  donor : address;
  assignedNGO : address
}.

Record ScanLog : Type := mkScanLog {
  timestamp : uint256;
  scanner : address;
  geoTag : string;
  stage : Stage;
  photoHash : bytes32;
  anomalyFlagged : bool;
  notes : string
}.

Record Milestone : Type := mkMilestone {
  mstage : Stage;
  releasePercentage : uint256;
  isReleased : bool
}.

(** The value a storage slot of type [Asset] holds before any write. *)
Definition zero_asset : Asset :=
  mkAsset 0 0 0 0 "" "" Warehouse false false 0 0.

Definition REFUND_LOCK_PERIOD : uint256 := 30 * 86400.

Record State : Type := mkState {
  minScansForFirstPayout : uint256;
  assets : gmap bytes32 Asset;
  assetHistory : gmap bytes32 (list ScanLog);
  assetMilestones : gmap bytes32 (list Milestone);
  donorTotalContributions : gmap address uint256;
  ngoTotalReceived : gmap address uint256;
  donorAssets : gmap address (list bytes32);
  totalAssetsTracked : uint256;
  totalFundsAllocated : uint256;
  totalFundsReleased : uint256;
  (* AccessControl: the members of every role *)
  roles : gset (Role * address);
  (* ReentrancyGuard: [true] while a nonReentrant function runs *)
  entered : bool;
  (* address(this).balance *)
  balance : uint256
}.

(** Reads of the mappings: a key that was never written reads as zero. *)
Definition asset (s : State) (id : bytes32) : Asset :=
  default zero_asset (assets s !! id).
Definition history (s : State) (id : bytes32) : list ScanLog :=
  default [] (assetHistory s !! id).
Definition milestones (s : State) (id : bytes32) : list Milestone :=
  default [] (assetMilestones s !! id).
Definition ngoReceived (s : State) (a : address) : uint256 :=
  default 0 (ngoTotalReceived s !! a).
Definition donorContributed (s : State) (a : address) : uint256 :=
  default 0 (donorTotalContributions s !! a).
Definition assetsOf (s : State) (a : address) : list bytes32 :=
  default [] (donorAssets s !! a).

(** ** Field updates *)

Definition set_allocatedFunds (v : uint256) (a : Asset) : Asset :=
  mkAsset v (releasedFunds a) (scansCount a) (donorTimestamp a) (assetDescription a)
    (currentGeoTag a) (currentStage a) (isFlagged a) (isRefunded a) (donor a) (assignedNGO a).
Definition set_releasedFunds (v : uint256) (a : Asset) : Asset :=
  mkAsset (allocatedFunds a) v (scansCount a) (donorTimestamp a) (assetDescription a)
    (currentGeoTag a) (currentStage a) (isFlagged a) (isRefunded a) (donor a) (assignedNGO a).
Definition set_scansCount (v : uint256) (a : Asset) : Asset :=
  mkAsset (allocatedFunds a) (releasedFunds a) v (donorTimestamp a) (assetDescription a)
    (currentGeoTag a) (currentStage a) (isFlagged a) (isRefunded a) (donor a) (assignedNGO a).
Definition set_donorTimestamp (v : uint256) (a : Asset) : Asset :=
  mkAsset (allocatedFunds a) (releasedFunds a) (scansCount a) v (assetDescription a)
    (currentGeoTag a) (currentStage a) (isFlagged a) (isRefunded a) (donor a) (assignedNGO a).
Definition set_assetDescription (v : string) (a : Asset) : Asset :=
  mkAsset (allocatedFunds a) (releasedFunds a) (scansCount a) (donorTimestamp a) v
    (currentGeoTag a) (currentStage a) (isFlagged a) (isRefunded a) (donor a) (assignedNGO a).
Definition set_currentGeoTag (v : string) (a : Asset) : Asset :=
  mkAsset (allocatedFunds a) (releasedFunds a) (scansCount a) (donorTimestamp a)
    (assetDescription a) v (currentStage a) (isFlagged a) (isRefunded a) (donor a)
    (assignedNGO a).
Definition set_currentStage (v : Stage) (a : Asset) : Asset :=
  mkAsset (allocatedFunds a) (releasedFunds a) (scansCount a) (donorTimestamp a)
    (assetDescription a) (currentGeoTag a) v (isFlagged a) (isRefunded a) (donor a)
    (assignedNGO a).
Definition set_isFlagged (v : bool) (a : Asset) : Asset :=
  mkAsset (allocatedFunds a) (releasedFunds a) (scansCount a) (donorTimestamp a)
    (assetDescription a) (currentGeoTag a) (currentStage a) v (isRefunded a) (donor a)
    (assignedNGO a).
Definition set_isRefunded (v : bool) (a : Asset) : Asset :=
  mkAsset (allocatedFunds a) (releasedFunds a) (scansCount a) (donorTimestamp a)
    (assetDescription a) (currentGeoTag a) (currentStage a) (isFlagged a) v (donor a)
    (assignedNGO a).
Definition set_donor (v : address) (a : Asset) : Asset :=
  mkAsset (allocatedFunds a) (releasedFunds a) (scansCount a) (donorTimestamp a)
    (assetDescription a) (currentGeoTag a) (currentStage a) (isFlagged a) (isRefunded a) v
    (assignedNGO a).
Definition set_assignedNGO (v : address) (a : Asset) : Asset :=
  mkAsset (allocatedFunds a) (releasedFunds a) (scansCount a) (donorTimestamp a)
    (assetDescription a) (currentGeoTag a) (currentStage a) (isFlagged a) (isRefunded a)
    (donor a) v.

Definition set_isReleased (v : bool) (m : Milestone) : Milestone :=
  mkMilestone (mstage m) (releasePercentage m) v.

Definition with_minScans (v : uint256) (s : State) : State :=
  mkState v (assets s) (assetHistory s) (assetMilestones s) (donorTotalContributions s)
    (ngoTotalReceived s) (donorAssets s) (totalAssetsTracked s) (totalFundsAllocated s)
    (totalFundsReleased s) (roles s) (entered s) (balance s).
Definition with_assets (v : gmap bytes32 Asset) (s : State) : State :=
  mkState (minScansForFirstPayout s) v (assetHistory s) (assetMilestones s)
    (donorTotalContributions s) (ngoTotalReceived s) (donorAssets s) (totalAssetsTracked s)
    (totalFundsAllocated s) (totalFundsReleased s) (roles s) (entered s) (balance s).
Definition with_assetHistory (v : gmap bytes32 (list ScanLog)) (s : State) : State :=
  mkState (minScansForFirstPayout s) (assets s) v (assetMilestones s)
    (donorTotalContributions s) (ngoTotalReceived s) (donorAssets s) (totalAssetsTracked s)
    (totalFundsAllocated s) (totalFundsReleased s) (roles s) (entered s) (balance s).
Definition with_assetMilestones (v : gmap bytes32 (list Milestone)) (s : State) : State :=
  mkState (minScansForFirstPayout s) (assets s) (assetHistory s) v
    (donorTotalContributions s) (ngoTotalReceived s) (donorAssets s) (totalAssetsTracked s)
    (totalFundsAllocated s) (totalFundsReleased s) (roles s) (entered s) (balance s).
Definition with_donorTotalContributions (v : gmap address uint256) (s : State) : State :=
  mkState (minScansForFirstPayout s) (assets s) (assetHistory s) (assetMilestones s) v
    (ngoTotalReceived s) (donorAssets s) (totalAssetsTracked s) (totalFundsAllocated s)
    (totalFundsReleased s) (roles s) (entered s) (balance s).
Definition with_ngoTotalReceived (v : gmap address uint256) (s : State) : State :=
  mkState (minScansForFirstPayout s) (assets s) (assetHistory s) (assetMilestones s)
    (donorTotalContributions s) v (donorAssets s) (totalAssetsTracked s)
    (totalFundsAllocated s) (totalFundsReleased s) (roles s) (entered s) (balance s).
Definition with_donorAssets (v : gmap address (list bytes32)) (s : State) : State :=
  mkState (minScansForFirstPayout s) (assets s) (assetHistory s) (assetMilestones s)
    (donorTotalContributions s) (ngoTotalReceived s) v (totalAssetsTracked s)
    (totalFundsAllocated s) (totalFundsReleased s) (roles s) (entered s) (balance s).
Definition with_totalAssetsTracked (v : uint256) (s : State) : State :=
  mkState (minScansForFirstPayout s) (assets s) (assetHistory s) (assetMilestones s)
    (donorTotalContributions s) (ngoTotalReceived s) (donorAssets s) v
    (totalFundsAllocated s) (totalFundsReleased s) (roles s) (entered s) (balance s).
Definition with_totalFundsAllocated (v : uint256) (s : State) : State :=
  mkState (minScansForFirstPayout s) (assets s) (assetHistory s) (assetMilestones s)
    (donorTotalContributions s) (ngoTotalReceived s) (donorAssets s) (totalAssetsTracked s)
    v (totalFundsReleased s) (roles s) (entered s) (balance s).
Definition with_totalFundsReleased (v : uint256) (s : State) : State :=
  mkState (minScansForFirstPayout s) (assets s) (assetHistory s) (assetMilestones s)
    (donorTotalContributions s) (ngoTotalReceived s) (donorAssets s) (totalAssetsTracked s)
    (totalFundsAllocated s) v (roles s) (entered s) (balance s).
Definition with_roles (v : gset (Role * address)) (s : State) : State :=
  mkState (minScansForFirstPayout s) (assets s) (assetHistory s) (assetMilestones s)
    (donorTotalContributions s) (ngoTotalReceived s) (donorAssets s) (totalAssetsTracked s)
    (totalFundsAllocated s) (totalFundsReleased s) v (entered s) (balance s).
Definition with_entered (v : bool) (s : State) : State :=
  mkState (minScansForFirstPayout s) (assets s) (assetHistory s) (assetMilestones s)
    (donorTotalContributions s) (ngoTotalReceived s) (donorAssets s) (totalAssetsTracked s)
    (totalFundsAllocated s) (totalFundsReleased s) (roles s) v (balance s).
Definition with_balance (v : uint256) (s : State) : State :=
  mkState (minScansForFirstPayout s) (assets s) (assetHistory s) (assetMilestones s)
    (donorTotalContributions s) (ngoTotalReceived s) (donorAssets s) (totalAssetsTracked s)
    (totalFundsAllocated s) (totalFundsReleased s) (roles s) (entered s) v.

(** [assets[id].field = v], through the storage pointer of the source. *)
Definition upd_asset (id : bytes32) (f : Asset → Asset) (s : State) : State :=
  with_assets (<[id := f (asset s id)]> (assets s)) s.

(** [assetMilestones[id][i].isReleased = v]; the index is in range wherever
    the source writes. *)
Definition upd_milestone (id : bytes32) (i : nat) (f : Milestone → Milestone)
    (s : State) : State :=
  with_assetMilestones
    (<[id := alter f i (milestones s id)]> (assetMilestones s)) s.

(** [assetMilestones[id].push(m)] and [assetHistory[id].push(e)]. *)
Definition push_milestone (id : bytes32) (m : Milestone) (s : State) : State :=
  with_assetMilestones (<[id := milestones s id ++ [m]]> (assetMilestones s)) s.

Definition push_history (id : bytes32) (e : ScanLog) (s : State) : State :=
  with_assetHistory (<[id := history s id ++ [e]]> (assetHistory s)) s.

(** [donorAssets[a].push(id)], [donorTotalContributions[a] = v] and
    [ngoTotalReceived[a] = v]. *)
Definition push_donorAsset (a : address) (id : bytes32) (s : State) : State :=
  with_donorAssets (<[a := assetsOf s a ++ [id]]> (donorAssets s)) s.

Definition set_donorContributed (a : address) (v : uint256) (s : State) : State :=
  with_donorTotalContributions (<[a := v]> (donorTotalContributions s)) s.

Definition set_ngoReceived (a : address) (v : uint256) (s : State) : State :=
  with_ngoTotalReceived (<[a := v]> (ngoTotalReceived s)) s.

(** ** Errors, effects and the contract monad *)

(** One constructor for every way a call can revert: the [require] messages
    of the contract, the reverts of the imported AccessControl and
    ReentrancyGuard, and the arithmetic panics of checked arithmetic. *)
Inductive error : Type :=
| InvalidAdmin                (* "Invalid admin" *)
| InvalidAuditor              (* "Invalid auditor" *)
| InvalidAssetID              (* "Invalid assetID" *)
| MustSendFunds               (* "Must send funds": ZeroFunding *)
| InvalidNGOAddress           (* "Invalid NGO address" *)
| NGONotRegistered            (* "NGO not registered": UnregisteredNGO *)
| AssetAlreadyExists          (* "Asset already exists": DuplicateAsset *)
| AssetNotInitialized         (* "Asset not initialized": NotFound *)
| AssetIsFlagged              (* "Asset is flagged": AssetFlagged *)
| TransferFailed              (* "Transfer failed" *)
| InsufficientFunds           (* "Insufficient funds": InsufficientEscrow *)
| AmountMustBePositive        (* "Amount must be positive": InvalidAmount *)
| NotTheDonor                 (* "Not the donor": Unauthorized *)
| AlreadyRefunded             (* "Already refunded" *)
| NotEligible                 (* "Not eligible for refund" *)
| NothingToRefund             (* "No funds to refund" *)
| RefundTransferFailed        (* "Refund transfer failed": TransferFailed *)
| MustBePositive              (* "Must be positive" *)
| InvalidRecipient            (* "Invalid recipient" *)
| NoBalance                   (* "No balance" *)
| WithdrawalFailed            (* "Withdrawal failed" *)
| MissingRole (r : Role)      (* AccessControl: account is missing role *)
| CanOnlyRenounceSelf         (* AccessControl: renounce for another account *)
| ReentrantCall               (* ReentrancyGuard: reentrant call *)
| ArithmeticOverflow          (* Panic(0x11) *)
| DivisionByZero              (* Panic(0x12) *)
| IndexOutOfBounds            (* Panic(0x32) *)
| UseInitAsset.               (* "Use initAsset() to donate" *)

Inductive event : Type :=
| AssetInitialized (id : bytes32) (dnr ngo : address) (amount : uint256) (desc : string)
| ScanLogged (id : bytes32) (scn : address) (st : Stage) (geo : string) (anomaly : bool)
| MilestoneReached (id : bytes32) (st : Stage) (fundsReleased : uint256)
| FundsReleased (id : bytes32) (recipient : address) (amount : uint256) (milestone : Stage)
| AssetFlagged (id : bytes32) (flagger : address) (reason : string)
| AssetUnflagged (id : bytes32) (auditor : address)
| Refunded (id : bytes32) (dnr : address) (amount : uint256)
| RoleGranted (r : Role) (account sender : address)
| RoleRevoked (r : Role) (account sender : address)
| RoleAdminChanged (r previousAdminRole newAdminRole : Role).

(** The storage locations the contract assigns to. *)
Inductive slot : Type :=
| SAllocatedFunds (id : bytes32)
| SReleasedFunds (id : bytes32)
| SScansCount (id : bytes32)
| SDonorTimestamp (id : bytes32)
| SAssetDescription (id : bytes32)
| SCurrentGeoTag (id : bytes32)
| SCurrentStage (id : bytes32)
| SIsFlagged (id : bytes32)
| SIsRefunded (id : bytes32)
| SDonor (id : bytes32)
| SAssignedNGO (id : bytes32)
| SAssetHistory (id : bytes32)
| SAssetMilestones (id : bytes32)
| SMilestoneIsReleased (id : bytes32) (i : nat)
| SDonorTotalContributions (a : address)
| SNgoTotalReceived (a : address)
| SDonorAssets (a : address)
| STotalAssetsTracked
| STotalFundsAllocated
| STotalFundsReleased
| SMinScansForFirstPayout
| SRoleMember (r : Role) (a : address)
| SRoleAdmin (r : Role)
| SGuardStatus.

Inductive effect : Type :=
| EWrite (sl : slot)                              (* an assignment to storage *)
| ETransfer (recipient : address) (amount : uint256)  (* value leaves the ledger *)
| EDeposit (amount : uint256)                     (* msg.value enters the ledger *)
| EEmit (ev : event).

Record Env : Type := mkEnv {
  msg_sender : address;
  block_timestamp : uint256;
  accepts : address → uint256 → bool
}.

Definition M (A : Type) : Type := State → error + (A * State * list effect).

Definition ret {A : Type} (a : A) : M A := λ s, inr (a, s, []).

Definition bind {A B : Type} (m : M A) (k : A → M B) : M B := λ s,
  match m s with
  | inl e => inl e
  | inr (a, s1, t1) =>
      match k a s1 with
      | inl e => inl e
      | inr (b, s2, t2) => inr (b, s2, t1 ++ t2)
      end
  end.

Declare Scope M_scope.
Delimit Scope M_scope with M.
Bind Scope M_scope with M.
Notation "x ← y ; z" := (bind y (λ x, z))
  (at level 20, y at level 100, z at level 200, only parsing) : M_scope.
Notation "x ;; z" := (bind x (λ _, z))
  (at level 100, z at level 200, only parsing, right associativity) : M_scope.
Local Open Scope M_scope.

Definition revert {A : Type} (e : error) : M A := λ _, inl e.

Definition require (b : bool) (e : error) : M unit :=
  if b then ret tt else revert e.

Definition sload {A : Type} (f : State → A) : M A := λ s, inr (f s, s, []).

Definition sstore (sl : slot) (f : State → State) : M unit :=
  λ s, inr (tt, f s, [EWrite sl]).

Definition emit (ev : event) : M unit := λ s, inr (tt, s, [EEmit ev]).

(** [for (uint256 i = 0; i < n; i++) body(i)]. *)
Fixpoint for_each (l : list nat) (body : nat → M unit) : M unit :=
  match l with
  | [] => ret tt
  | i :: l' => body i ;; for_each l' body
  end.

(** ** Imported library code

    The contract imports OpenZeppelin's SafeMath, AccessControl and
    ReentrancyGuard, whose sources are not part of the repository. *)

(** Modelled from the spec: SafeMath is missing; under Solidity 0.8 its
    operations are the checked built-in ones ("unsigned integer" quantities,
    with [InvalidState] on a zero divisor). *)
Definition safe_add (a b : uint256) : M uint256 :=
  if a + b <=? MAX_UINT256 then ret (a + b) else revert ArithmeticOverflow.

Definition safe_sub (a b : uint256) : M uint256 :=
  if b <=? a then ret (a - b) else revert ArithmeticOverflow.

Definition safe_mul (a b : uint256) : M uint256 :=
  if a * b <=? MAX_UINT256 then ret (a * b) else revert ArithmeticOverflow.

Definition safe_div (a b : uint256) : M uint256 :=
  if b =? 0 then revert DivisionByZero else ret (a / b).

(** Modelled from the spec: AccessControl is missing; [has_role], [grant] and
    [revoke] of section 4.1, each role administered by one role. *)
Definition hasRole (s : State) (r : Role) (a : address) : bool :=
  bool_decide ((r, a) ∈ roles s).

Definition getRoleAdmin (r : Role) : Role :=
  match r with
  | AUDITOR_ROLE | SCANNER_ROLE | NGO_ROLE => ADMIN_ROLE
  | ADMIN_ROLE | DEFAULT_ADMIN_ROLE => DEFAULT_ADMIN_ROLE
  end.

Section Contract.

Variable env : Env.

(** ** Constructor *)

Definition deployed_storage : State :=
  mkState 2 ∅ ∅ ∅ ∅ ∅ ∅ 0 0 0 ∅ false 0.

Definition onlyRole (r : Role) : M unit :=
  ok ← sload (λ s, hasRole s r (msg_sender env));
  require ok (MissingRole r).

Definition _grantRole (r : Role) (a : address) : M unit :=
  has ← sload (λ s, hasRole s r a);
  if has then ret tt
  else
    sstore (SRoleMember r a) (λ s, with_roles ({[(r, a)]} ∪ roles s) s) ;;
    emit (RoleGranted r a (msg_sender env)).

Definition _revokeRole (r : Role) (a : address) : M unit :=
  has ← sload (λ s, hasRole s r a);
  if has then
    sstore (SRoleMember r a) (λ s, with_roles (roles s ∖ {[(r, a)]}) s) ;;
    emit (RoleRevoked r a (msg_sender env))
  else ret tt.

(** [_setRoleAdmin] records the administering role and signals the change.
    It is only called by the constructor, on roles whose administering role
    is still the default one; the value it writes is the fixed
    [getRoleAdmin], which the state does not repeat. *)
Definition _setRoleAdmin (r adminRole : Role) : M unit :=
  sstore (SRoleAdmin r) (λ s, s) ;;
  emit (RoleAdminChanged r DEFAULT_ADMIN_ROLE adminRole).

Definition grantRole (r : Role) (a : address) : M unit :=
  onlyRole (getRoleAdmin r) ;; _grantRole r a.

Definition revokeRole (r : Role) (a : address) : M unit :=
  onlyRole (getRoleAdmin r) ;; _revokeRole r a.

Definition renounceRole (r : Role) (a : address) : M unit :=
  require (a =? msg_sender env) CanOnlyRenounceSelf ;; _revokeRole r a.

(** Modelled from the spec: ReentrancyGuard is missing; an operation "must not
    be re-entered by a nested call before it commits" (section 5). *)
Definition nonReentrant {A : Type} (body : M A) : M A :=
  busy ← sload entered;
  require (negb busy) ReentrantCall ;;
  sstore SGuardStatus (with_entered true) ;;
  r ← body;
  sstore SGuardStatus (with_entered false) ;;
  ret r.

(** [recipient.call{value: amount}("")]: the low-level call returns [false]
    when the ledger holds less than [amount] or the recipient rejects the
    value, and leaves the state as it was.

    Modelled from the spec: the code of the recipient is not part of the
    repository.  As the platform's [transfer_value], the call moves the value
    or fails, and the recipient does not call the contract again while it
    runs.  The source would let it: only [manualReleaseFunds] and
    [requestRefund] hold the re-entrancy guard.  What is proved about a
    transaction that makes a transfer is therefore proved for recipients
    that do not call back. *)
Definition call_value (recipient : address) (amount : uint256) : M bool :=
  λ s,
    if (amount <=? balance s) && accepts env recipient amount
    then inr (true, with_balance (balance s - amount) s, [ETransfer recipient amount])
    else inr (false, s, []).

(** A payable function is entered with [msg.value] already credited. *)
Definition receive_value (v : uint256) : M unit :=
  λ s, inr (tt, with_balance (balance s + v) s, [EDeposit v]).

(** ** Modifiers *)

Definition assetExists (id : bytes32) : M unit :=
  d ← sload (λ s, donor (asset s id));
  require (negb (d =? 0)) AssetNotInitialized.

Definition notFlagged (id : bytes32) : M unit :=
  f ← sload (λ s, isFlagged (asset s id));
  require (negb f) AssetIsFlagged.

(** ** Core functions *)

Definition _setupDefaultMilestones (id : bytes32) : M unit :=
  sstore (SAssetMilestones id) (push_milestone id (mkMilestone Hub 40 false)) ;;
  sstore (SAssetMilestones id) (push_milestone id (mkMilestone Beneficiary 60 false)).

Definition initAsset (msg_value : uint256) (id : bytes32) (description : string)
    (ngo : address) (initialGeoTag : string) : M unit :=
  receive_value msg_value ;;
  require (negb (id =? 0)) InvalidAssetID ;;
  require (0 <? msg_value) MustSendFunds ;;
  require (negb (ngo =? 0)) InvalidNGOAddress ;;
  registered ← sload (λ s, hasRole s NGO_ROLE ngo);
  require registered NGONotRegistered ;;
  d ← sload (λ s, donor (asset s id));
  require (d =? 0) AssetAlreadyExists ;;
  sstore (SAllocatedFunds id) (upd_asset id (set_allocatedFunds msg_value)) ;;
  sstore (SDonor id) (upd_asset id (set_donor (msg_sender env))) ;;
  sstore (SAssignedNGO id) (upd_asset id (set_assignedNGO ngo)) ;;
  sstore (SDonorTimestamp id) (upd_asset id (set_donorTimestamp (block_timestamp env))) ;;
  sstore (SAssetDescription id) (upd_asset id (set_assetDescription description)) ;;
  sstore (SCurrentGeoTag id) (upd_asset id (set_currentGeoTag initialGeoTag)) ;;
  sstore (SCurrentStage id) (upd_asset id (set_currentStage Warehouse)) ;;
  sstore (SScansCount id) (upd_asset id (set_scansCount 1)) ;;
  _setupDefaultMilestones id ;;
  sstore (SAssetHistory id)
    (push_history id
       (mkScanLog (block_timestamp env) (msg_sender env) initialGeoTag Warehouse 0 false
          "Asset initialized")) ;;
  sstore (SDonorAssets (msg_sender env)) (push_donorAsset (msg_sender env) id) ;;
  contributed ← sload (λ s, donorContributed s (msg_sender env));
  contributed' ← safe_add contributed msg_value;
  sstore (SDonorTotalContributions (msg_sender env))
    (set_donorContributed (msg_sender env) contributed') ;;
  tracked ← sload totalAssetsTracked;
  tracked' ← safe_add tracked 1;
  sstore STotalAssetsTracked (with_totalAssetsTracked tracked') ;;
  allocated ← sload totalFundsAllocated;
  allocated' ← safe_add allocated msg_value;
  sstore STotalFundsAllocated (with_totalFundsAllocated allocated') ;;
  emit (AssetInitialized id (msg_sender env) ngo msg_value description).

(** The body of the loop of [_checkAndReleaseMilestone], for the milestone at
    index [i]. *)
Definition release_milestone (id : bytes32) (i : nat) : M unit :=
  ms ← sload (λ s, milestones s id);
  match ms !! i with
  | None => revert IndexOutOfBounds
  | Some milestone =>
      a ← sload (λ s, asset s id);
      minScans ← sload minScansForFirstPayout;
      if stage_ge (currentStage a) (mstage milestone)
         && negb (isReleased milestone)
         && (minScans <=? scansCount a)
      then
        product ← safe_mul (allocatedFunds a) (releasePercentage milestone);
        nominal ← safe_div product 100;
        total ← safe_add (releasedFunds a) nominal;
        releaseAmount ←
          (if allocatedFunds a <? total
           then safe_sub (allocatedFunds a) (releasedFunds a)
           else ret nominal);
        if 0 <? releaseAmount then
          sstore (SMilestoneIsReleased id i) (upd_milestone id i (set_isReleased true)) ;;
          released' ← safe_add (releasedFunds a) releaseAmount;
          sstore (SReleasedFunds id) (upd_asset id (set_releasedFunds released')) ;;
          success ← call_value (assignedNGO a) releaseAmount;
          require success TransferFailed ;;
          received ← sload (λ s, ngoReceived s (assignedNGO a));
          received' ← safe_add received releaseAmount;
          sstore (SNgoTotalReceived (assignedNGO a))
            (set_ngoReceived (assignedNGO a) received') ;;
          total_released ← sload totalFundsReleased;
          total_released' ← safe_add total_released releaseAmount;
          sstore STotalFundsReleased (with_totalFundsReleased total_released') ;;
          emit (MilestoneReached id (mstage milestone) releaseAmount) ;;
          emit (FundsReleased id (assignedNGO a) releaseAmount (mstage milestone))
        else ret tt
      else ret tt
  end.

Definition _checkAndReleaseMilestone (id : bytes32) : M unit :=
  ms ← sload (λ s, milestones s id);
  for_each (seq 0 (length ms)) (release_milestone id).

Definition scanAsset (id : bytes32) (newGeoTag : string) (newStage : Stage)
    (photo : bytes32) (note : string) : M unit :=
  onlyRole SCANNER_ROLE ;;
  assetExists id ;;
  notFlagged id ;;
  a ← sload (λ s, asset s id);
  let anomalyDetected := false in
  let anomalyDetected :=
    if stage_lt newStage (currentStage a) then true else anomalyDetected in
  let anomalyDetected :=
    if String.eqb (currentGeoTag a) newGeoTag && negb (stage_eq newStage (currentStage a))
    then true else anomalyDetected in
  let anomalyDetected :=
    if (stage_eq newStage Hub || stage_eq newStage Beneficiary) && (photo =? 0)
    then true else anomalyDetected in
  (if anomalyDetected then
     sstore (SIsFlagged id) (upd_asset id (set_isFlagged true)) ;;
     emit (AssetFlagged id (msg_sender env) "Automated anomaly detection")
   else ret tt) ;;
  count ← sload (λ s, scansCount (asset s id));
  count' ← safe_add count 1;
  sstore (SScansCount id) (upd_asset id (set_scansCount count')) ;;
  sstore (SCurrentGeoTag id) (upd_asset id (set_currentGeoTag newGeoTag)) ;;
  sstore (SCurrentStage id) (upd_asset id (set_currentStage newStage)) ;;
  sstore (SAssetHistory id)
    (push_history id
       (mkScanLog (block_timestamp env) (msg_sender env) newGeoTag newStage photo
          anomalyDetected note)) ;;
  emit (ScanLogged id (msg_sender env) newStage newGeoTag anomalyDetected) ;;
  _checkAndReleaseMilestone id.

Definition manualReleaseFunds (id : bytes32) (recipient : address) (amount : uint256)
    : M unit :=
  onlyRole AUDITOR_ROLE ;;
  assetExists id ;;
  nonReentrant (
    a ← sload (λ s, asset s id);
    remainingFunds ← safe_sub (allocatedFunds a) (releasedFunds a);
    require (amount <=? remainingFunds) InsufficientFunds ;;
    require (0 <? amount) AmountMustBePositive ;;
    released' ← safe_add (releasedFunds a) amount;
    sstore (SReleasedFunds id) (upd_asset id (set_releasedFunds released')) ;;
    success ← call_value recipient amount;
    require success TransferFailed ;;
    received ← sload (λ s, ngoReceived s recipient);
    received' ← safe_add received amount;
    sstore (SNgoTotalReceived recipient) (set_ngoReceived recipient received') ;;
    total_released ← sload totalFundsReleased;
    total_released' ← safe_add total_released amount;
    sstore STotalFundsReleased (with_totalFundsReleased total_released') ;;
    stage_now ← sload (λ s, currentStage (asset s id));
    emit (FundsReleased id recipient amount stage_now)).

(** ** Governance functions *)

Definition flagAsset (id : bytes32) (reason : string) : M unit :=
  onlyRole AUDITOR_ROLE ;;
  assetExists id ;;
  sstore (SIsFlagged id) (upd_asset id (set_isFlagged true)) ;;
  emit (AssetFlagged id (msg_sender env) reason).

Definition unflagAsset (id : bytes32) : M unit :=
  onlyRole AUDITOR_ROLE ;;
  assetExists id ;;
  sstore (SIsFlagged id) (upd_asset id (set_isFlagged false)) ;;
  emit (AssetUnflagged id (msg_sender env)).

Definition requestRefund (id : bytes32) : M unit :=
  nonReentrant (
    assetExists id ;;
    a ← sload (λ s, asset s id);
    require (donor a =? msg_sender env) NotTheDonor ;;
    require (negb (isRefunded a)) AlreadyRefunded ;;
    isEligible ←
      (if isFlagged a then ret true
       else
         unlock ← safe_add (donorTimestamp a) REFUND_LOCK_PERIOD;
         ret ((unlock <? block_timestamp env) && stage_lt (currentStage a) Beneficiary));
    require isEligible NotEligible ;;
    refundAmount ← safe_sub (allocatedFunds a) (releasedFunds a);
    require (0 <? refundAmount) NothingToRefund ;;
    sstore (SIsRefunded id) (upd_asset id (set_isRefunded true)) ;;
    released ← sload (λ s, releasedFunds (asset s id));
    sstore (SAllocatedFunds id) (upd_asset id (set_allocatedFunds released)) ;;
    success ← call_value (donor a) refundAmount;
    require success RefundTransferFailed ;;
    emit (Refunded id (msg_sender env) refundAmount)).

Definition addScanner (a : address) : M unit :=
  onlyRole ADMIN_ROLE ;; grantRole SCANNER_ROLE a.

Definition addNGO (a : address) : M unit :=
  onlyRole ADMIN_ROLE ;; grantRole NGO_ROLE a.

Definition updateMinScans (newMin : uint256) : M unit :=
  onlyRole ADMIN_ROLE ;;
  require (0 <? newMin) MustBePositive ;;
  sstore SMinScansForFirstPayout (with_minScans newMin).

(** ** View functions *)

Definition getAssetProgress (id : bytes32) : M (uint256 * uint256) :=
  assetExists id ;;
  a ← sload (λ s, asset s id);
  let progressPercentage := (stage_index (currentStage a) * 100) / stage_index Beneficiary in
  scaled ← safe_mul (releasedFunds a) 100;
  fundsReleasedPercentage ← safe_div scaled (allocatedFunds a);
  ret (progressPercentage, fundsReleasedPercentage).

Definition getPlatformStats : M (uint256 * uint256 * uint256 * uint256) :=
  s ← sload id;
  inTransit ← safe_sub (totalFundsAllocated s) (totalFundsReleased s);
  ret (totalAssetsTracked s, totalFundsAllocated s, totalFundsReleased s, inTransit).

(** ** Emergency functions *)

Definition emergencyWithdraw (recipient : address) : M unit :=
  onlyRole DEFAULT_ADMIN_ROLE ;;
  require (negb (recipient =? 0)) InvalidRecipient ;;
  bal ← sload balance;
  require (0 <? bal) NoBalance ;;
  success ← call_value recipient bal;
  require success WithdrawalFailed.

(** ** Receive *)

Definition receive (msg_value : uint256) : M unit :=
  receive_value msg_value ;; revert UseInitAsset.

End Contract.

(** ** Transactions and reachable states *)

(** [_setRoleAdmin] is only called by the constructor; the administering
    role of every role is therefore the fixed [getRoleAdmin]. *)
Definition constructor (env : Env) (admin auditor : address) : M unit :=
  require (negb (admin =? 0)) InvalidAdmin ;;
  require (negb (auditor =? 0)) InvalidAuditor ;;
  _grantRole env DEFAULT_ADMIN_ROLE admin ;;
  _grantRole env ADMIN_ROLE admin ;;
  _grantRole env AUDITOR_ROLE auditor ;;
  _setRoleAdmin AUDITOR_ROLE ADMIN_ROLE ;;
  _setRoleAdmin SCANNER_ROLE ADMIN_ROLE ;;
  _setRoleAdmin NGO_ROLE ADMIN_ROLE.

(** The state-changing entry points of the deployed contract.  Only
    [initAsset] is payable: a call that carries value to another function is
    rejected before its body runs, so only [InitAsset] has a value. *)
Inductive call : Type :=
| InitAsset (msg_value : uint256) (id : bytes32) (description : string) (ngo : address)
    (initialGeoTag : string)
| ScanAsset (id : bytes32) (newGeoTag : string) (newStage : Stage) (photo : bytes32)
    (note : string)
| ManualReleaseFunds (id : bytes32) (recipient : address) (amount : uint256)
| FlagAsset (id : bytes32) (reason : string)
| UnflagAsset (id : bytes32)
| RequestRefund (id : bytes32)
| AddScanner (a : address)
| AddNGO (a : address)
| UpdateMinScans (newMin : uint256)
| GrantRole (r : Role) (a : address)
| RevokeRole (r : Role) (a : address)
| RenounceRole (r : Role) (a : address)
| EmergencyWithdraw (recipient : address)
| Receive (msg_value : uint256).

Definition dispatch (env : Env) (c : call) : M unit :=
  match c with
  | InitAsset v id d ngo geo => initAsset env v id d ngo geo
  | ScanAsset id geo st photo note => scanAsset env id geo st photo note
  | ManualReleaseFunds id r amount => manualReleaseFunds env id r amount
  | FlagAsset id reason => flagAsset env id reason
  | UnflagAsset id => unflagAsset env id
  | RequestRefund id => requestRefund env id
  | AddScanner a => addScanner env a
  | AddNGO a => addNGO env a
  | UpdateMinScans n => updateMinScans env n
  | GrantRole r a => grantRole env r a
  | RevokeRole r a => revokeRole env r a
  | RenounceRole r a => renounceRole env r a
  | EmergencyWithdraw r => emergencyWithdraw env r
  | Receive v => receive v
  end.

(** The outcome of a transaction: the new state and the effects, or the
    error it reverted with. *)
Definition exec (env : Env) (c : call) (s : State) : error + (State * list effect) :=
  match dispatch env c s with
  | inl e => inl e
  | inr (_, s', t) => inr (s', t)
  end.

(** The state after a transaction: a reverted one changes nothing. *)
Definition step (env : Env) (c : call) (s : State) : State :=
  match exec env c s with
  | inl _ => s
  | inr (s', _) => s'
  end.

(** The effects a transaction leaves: none when it reverts. *)
Definition effects_of (env : Env) (c : call) (s : State) : list effect :=
  match exec env c s with
  | inl _ => []
  | inr (_, t) => t
  end.

(** A well-formed environment: no transaction originates from the zero
    address and block timestamps are 64-bit; the amounts a call carries are
    unsigned 256-bit values. *)
Definition wf_env (env : Env) : Prop :=
  msg_sender env ≠ 0 ∧ 0 ≤ block_timestamp env < 2 ^ 64.

Definition wf_call (c : call) : Prop :=
  match c with
  | InitAsset v _ _ _ _ => 0 ≤ v ≤ MAX_UINT256
  | ManualReleaseFunds _ _ amount => 0 ≤ amount ≤ MAX_UINT256
  | UpdateMinScans n => 0 ≤ n ≤ MAX_UINT256
  | Receive v => 0 ≤ v ≤ MAX_UINT256
  | _ => True
  end.

(** States of a deployed contract, reached through calls that [allowed]
    admits. *)
Inductive reaches (allowed : call → bool) : State → Prop :=
| reaches_deploy env admin auditor s t :
    wf_env env →
    constructor env admin auditor deployed_storage = inr (tt, s, t) →
    reaches allowed s
| reaches_step env c s s' t :
    reaches allowed s →
    wf_env env → wf_call c → allowed c = true →
    exec env c s = inr (s', t) →
    reaches allowed s'.

Definition reachable : State → Prop := reaches (λ _, true).

(** A run of transactions, each in its own environment. *)
Fixpoint run (txs : list (Env * call)) (s : State) : State :=
  match txs with
  | [] => s
  | (env, c) :: txs' => run txs' (step env c s)
  end.

(** The effects of a run, in order. *)
Fixpoint run_effects (txs : list (Env * call)) (s : State) : list effect :=
  match txs with
  | [] => []
  | (env, c) :: txs' => effects_of env c s ++ run_effects txs' (step env c s)
  end.


(** ** Specification vocabulary *)

(** The value still held in escrow for an asset. *)
Definition escrow (a : Asset) : Z := allocatedFunds a - releasedFunds a.

Definition escrow_sum (m : gmap bytes32 Asset) : Z :=
  map_fold (λ _ a acc, acc + escrow a) 0 m.

(** The sum of the per-asset escrow over all assets. *)
Definition escrow_total (s : State) : Z := escrow_sum (assets s).

Definition exists_asset (s : State) (id : bytes32) : Prop := donor (asset s id) ≠ 0.

(** The nominal amount of a milestone and the amount the engine pays: the
    nominal amount, or the remaining headroom when that is smaller. *)
Definition nominal_amount (a : Asset) (m : Milestone) : Z :=
  allocatedFunds a * releasePercentage m / 100.

Definition release_amount (a : Asset) (m : Milestone) : Z :=
  Z.min (nominal_amount a m) (allocatedFunds a - releasedFunds a).

(** The trigger of a milestone. *)
Definition due (s : State) (a : Asset) (m : Milestone) : bool :=
  stage_ge (currentStage a) (mstage m) && negb (isReleased m)
  && (minScansForFirstPayout s <=? scansCount a).

(** The state after the engine pays [amt] for milestone [i] of asset [id],
    and the effects of that payment in program order. *)
Definition pay_milestone (id : bytes32) (i : nat) (amt : uint256) (s : State) : State :=
  let ngo := assignedNGO (asset s id) in
  with_totalFundsReleased (totalFundsReleased s + amt)
    (set_ngoReceived ngo (ngoReceived s ngo + amt)
       (with_balance (balance s - amt)
          (upd_asset id (set_releasedFunds (releasedFunds (asset s id) + amt))
             (upd_milestone id i (set_isReleased true) s)))).

Definition release_block (id : bytes32) (i : nat) (ngo : address) (amt : uint256)
    (st : Stage) : list effect :=
  [EWrite (SMilestoneIsReleased id i); EWrite (SReleasedFunds id); ETransfer ngo amt;
   EWrite (SNgoTotalReceived ngo); EWrite STotalFundsReleased;
   EEmit (MilestoneReached id st amt); EEmit (FundsReleased id ngo amt st)].

(** What one round of the release loop does when it does not revert. *)
Definition release_round (id : bytes32) (i : nat) (s : State) : State * list effect :=
  match milestones s id !! i with
  | None => (s, [])
  | Some m =>
      let a := asset s id in
      let amt := release_amount a m in
      if due s a m && (0 <? amt)
      then (pay_milestone id i amt s, release_block id i (assignedNGO a) amt (mstage m))
      else (s, [])
  end.

Fixpoint release_rounds (id : bytes32) (l : list nat) (s : State) : State * list effect :=
  match l with
  | [] => (s, [])
  | i :: l' =>
      let '(s1, t1) := release_round id i s in
      let '(s2, t2) := release_rounds id l' s1 in
      (s2, t1 ++ t2)
  end.

(** The three anomaly conditions of the detector. *)
Definition regression (a : Asset) (newStage : Stage) : bool :=
  stage_lt newStage (currentStage a).

Definition stale_location (a : Asset) (newGeoTag : string) (newStage : Stage) : bool :=
  String.eqb (currentGeoTag a) newGeoTag && negb (stage_eq newStage (currentStage a)).

Definition missing_proof (newStage : Stage) (photo : bytes32) : bool :=
  (stage_eq newStage Hub || stage_eq newStage Beneficiary) && (photo =? 0).

Definition anomaly (a : Asset) (newGeoTag : string) (newStage : Stage) (photo : bytes32)
    : bool :=
  regression a newStage || stale_location a newGeoTag newStage || missing_proof newStage photo.

(** The state and the effects of a scan before the release loop runs. *)
Definition scan_entry (env : Env) (geo : string) (st : Stage) (photo : bytes32)
    (flag : bool) (note : string) : ScanLog :=
  mkScanLog (block_timestamp env) (msg_sender env) geo st photo flag note.

Definition scanned (env : Env) (id : bytes32) (geo : string) (st : Stage)
    (photo : bytes32) (note : string) (s : State) : State :=
  let flag := anomaly (asset s id) geo st photo in
  push_history id (scan_entry env geo st photo flag note)
    (upd_asset id (set_currentStage st)
       (upd_asset id (set_currentGeoTag geo)
          (upd_asset id (set_scansCount (scansCount (asset s id) + 1))
             (if flag then upd_asset id (set_isFlagged true) s else s)))).

Definition scan_effects (env : Env) (id : bytes32) (geo : string) (st : Stage)
    (flag : bool) : list effect :=
  (if flag
   then [EWrite (SIsFlagged id);
         EEmit (AssetFlagged id (msg_sender env) "Automated anomaly detection")]
   else [])
  ++ [EWrite (SScansCount id); EWrite (SCurrentGeoTag id); EWrite (SCurrentStage id);
      EWrite (SAssetHistory id); EEmit (ScanLogged id (msg_sender env) st geo flag)].

(** ** The ledger invariant *)

(** What holds of every asset record together with its milestone list. *)
Record asset_ok (a : Asset) (ms : list Milestone) : Prop := {
  ok_bounds : 0 ≤ releasedFunds a ≤ allocatedFunds a ∧ allocatedFunds a ≤ MAX_UINT256;
  ok_absent : donor a = 0 → a = zero_asset ∧ ms = [];
  ok_milestones :
    donor a ≠ 0 →
    ∃ b1 b2, ms = [mkMilestone Hub 40 b1; mkMilestone Beneficiary 60 b2];
  ok_refunded : isRefunded a = true → allocatedFunds a = releasedFunds a;
  ok_funded : donor a ≠ 0 → isRefunded a = false → 0 < allocatedFunds a;
  ok_time : 0 ≤ donorTimestamp a < 2 ^ 64
}.

Record Inv (s : State) : Prop := {
  inv_assets : ∀ id, asset_ok (asset s id) (milestones s id);
  inv_guard : entered s = false;
  inv_balance : 0 ≤ balance s ≤ escrow_total s
}.

(** The transfers of a trace, in order. *)
Fixpoint transfers (t : list effect) : list (address * uint256) :=
  match t with
  | [] => []
  | ETransfer r v :: t' => (r, v) :: transfers t'
  | _ :: t' => transfers t'
  end.

(** The storage writes of a trace before its first transfer, and the ones
    after it. *)
Fixpoint writes (t : list effect) : list slot :=
  match t with
  | [] => []
  | EWrite sl :: t' => sl :: writes t'
  | _ :: t' => writes t'
  end.

Fixpoint writes_before_transfer (t : list effect) : list slot :=
  match t with
  | [] => []
  | ETransfer _ _ :: _ => []
  | EWrite sl :: t' => sl :: writes_before_transfer t'
  | _ :: t' => writes_before_transfer t'
  end.

Fixpoint writes_after_transfer (t : list effect) : list slot :=
  match t with
  | [] => []
  | ETransfer _ _ :: t' => writes t'
  | _ :: t' => writes_after_transfer t'
  end.

(** ** Vocabulary of the proofs and scenarios *)

(** Updates that leave the funds, the refund mark, the donor and the
    creation time of an asset alone. *)
Definition neutral (f : Asset → Asset) : Prop :=
  ∀ a, allocatedFunds (f a) = allocatedFunds a ∧ releasedFunds (f a) = releasedFunds a
       ∧ isRefunded (f a) = isRefunded a ∧ donor (f a) = donor a
       ∧ donorTimestamp (f a) = donorTimestamp a.

(** The fields of the storage, to state what an update leaves alone. *)
Inductive field : Type :=
| F_minScans | F_assets | F_history | F_milestones | F_donorTotals | F_ngoTotals
| F_donorAssets | F_tracked | F_allocated | F_released | F_roles | F_entered | F_balance.

Definition field_type (f : field) : Type :=
  match f with
  | F_minScans | F_tracked | F_allocated | F_released | F_balance => uint256
  | F_assets => gmap bytes32 Asset
  | F_history => gmap bytes32 (list ScanLog)
  | F_milestones => gmap bytes32 (list Milestone)
  | F_donorTotals | F_ngoTotals => gmap address uint256
  | F_donorAssets => gmap address (list bytes32)
  | F_roles => gset (Role * address)
  | F_entered => bool
  end.

Definition get (f : field) : State → field_type f :=
  match f with
  | F_minScans => minScansForFirstPayout
  | F_assets => assets
  | F_history => assetHistory
  | F_milestones => assetMilestones
  | F_donorTotals => donorTotalContributions
  | F_ngoTotals => ngoTotalReceived
  | F_donorAssets => donorAssets
  | F_tracked => totalAssetsTracked
  | F_allocated => totalFundsAllocated
  | F_released => totalFundsReleased
  | F_roles => roles
  | F_entered => entered
  | F_balance => balance
  end.

(** [Touches U fs]: the update [U] changes no field outside [fs]. *)
Class Touches (U : State → State) (fs : field → bool) : Prop :=
  touches : ∀ f s, fs f = false → get f (U s) = get f s.

(** [Reads O f]: the observation [O] depends on the field [f] only. *)
Class Reads {A : Type} (O : State → A) (f : field) : Prop :=
  reads : ∀ s1 s2, get f s1 = get f s2 → O s1 = O s2.

Definition only (g : field) (f : field) : bool :=
  match g, f with
  | F_minScans, F_minScans | F_assets, F_assets | F_history, F_history
  | F_milestones, F_milestones | F_donorTotals, F_donorTotals
  | F_ngoTotals, F_ngoTotals | F_donorAssets, F_donorAssets | F_tracked, F_tracked
  | F_allocated, F_allocated | F_released, F_released | F_roles, F_roles
  | F_entered, F_entered | F_balance, F_balance => true
  | _, _ => false
  end.

Definition payment_fields (f : field) : bool :=
  match f with
  | F_assets | F_milestones | F_ngoTotals | F_released | F_balance => true
  | _ => false
  end.

(** The loop for asset [id] changes the released funds and the milestone
    marks of that asset, the payment totals and the balance; nothing else. *)
Record round_frame (id : bytes32) (s s' : State) : Prop := {
  rf_other_asset : ∀ id', id' ≠ id → asset s' id' = asset s id';
  rf_other_milestones : ∀ id', id' ≠ id → milestones s' id' = milestones s id';
  rf_history : ∀ id', history s' id' = history s id';
  rf_asset : asset s' id = set_releasedFunds (releasedFunds (asset s' id)) (asset s id);
  rf_released : releasedFunds (asset s id) ≤ releasedFunds (asset s' id);
  rf_minScans : minScansForFirstPayout s' = minScansForFirstPayout s;
  rf_roles : ∀ r a, hasRole s' r a = hasRole s r a;
  rf_entered : entered s' = entered s;
  rf_gap : escrow_total s' - balance s' = escrow_total s - balance s
}.

(** The conditions under which round [i] of the loop does not revert. *)
Definition round_ok (env : Env) (id : bytes32) (i : nat) (s : State) : Prop :=
  ∃ m, milestones s id !! i = Some m
   ∧ (due s (asset s id) m = true →
      releasedFunds (asset s id) ≤ allocatedFunds (asset s id) ≤ MAX_UINT256
      ∧ allocatedFunds (asset s id) * releasePercentage m ≤ MAX_UINT256
      ∧ releasedFunds (asset s id) + nominal_amount (asset s id) m ≤ MAX_UINT256
      ∧ (0 < release_amount (asset s id) m →
         release_amount (asset s id) m ≤ balance s
         ∧ accepts env (assignedNGO (asset s id)) (release_amount (asset s id) m) = true
         ∧ ngoReceived s (assignedNGO (asset s id)) + release_amount (asset s id) m
           ≤ MAX_UINT256
         ∧ totalFundsReleased s + release_amount (asset s id) m ≤ MAX_UINT256)).

Fixpoint rounds_ok (env : Env) (id : bytes32) (l : list nat) (s : State) : Prop :=
  match l with
  | [] => True
  | i :: l' => round_ok env id i s ∧ rounds_ok env id l' (release_round id i s).1
  end.

(** A well-formed transaction that [allowed] admits. *)
Definition wf_tx (allowed : call → bool) (tx : Env * call) : Prop :=
  wf_env tx.1 ∧ wf_call tx.2 ∧ allowed tx.2 = true.

(** The state a deployment leaves. *)
Definition deploy (env : Env) (admin auditor : address) : State :=
  match constructor env admin auditor deployed_storage with
  | inr (_, s, _) => s
  | inl _ => deployed_storage
  end.

(** *** The scenarios

    Administrator 1, auditor 2, NGO 50, scanner 60, donor 10 and asset 7;
    every account accepts value unless said otherwise. *)

Definition platform (sender : address) (now : uint256) : Env :=
  mkEnv sender now (λ _ _, true).

Definition genesis : State := deploy (platform 1 0) 1 2.

Definition setup : list (Env * call) :=
  [(platform 1 10, AddNGO 50); (platform 1 20, AddScanner 60)].

Definition fund (F : uint256) : list (Env * call) :=
  setup ++ [(platform 10 100, InitAsset F 7 "1000 food packets" 50 "Depot A")].

Definition to_hub : Env * call :=
  (platform 60 200, ScanAsset 7 "Hub B" Hub 99 "arrived at hub").

Definition to_beneficiary : Env * call :=
  (platform 60 300, ScanAsset 7 "Village C" Beneficiary 98 "delivered").

Definition shipment : bytes32 := 7.

(** Funding with 1000, a scan to the hub and two scans at the beneficiary. *)
Definition delivery : list (Env * call) :=
  fund 1000 ++ [to_hub; to_beneficiary; to_beneficiary].

(** *** Vocabulary of the statements *)

(** The asset a call is about. *)
Definition target (c : call) : option bytes32 :=
  match c with
  | InitAsset _ id _ _ _ | ScanAsset id _ _ _ _ | ManualReleaseFunds id _ _
  | FlagAsset id _ | UnflagAsset id | RequestRefund id => Some id
  | _ => None
  end.

Definition is_unflag (id : bytes32) (c : call) : bool :=
  match c with
  | UnflagAsset id' => id' =? id
  | _ => false
  end.

(** Calls other than [unflagAsset] of asset [id]. *)
Definition not_unflag (id : bytes32) (c : call) : bool := negb (is_unflag id c).

(** The number of milestone payouts of asset [id] at stage [st] in a trace:
    the engine signals [MilestoneReached] with every payout. *)
Fixpoint milestone_payouts (id : bytes32) (st : Stage) (t : list effect) : nat :=
  match t with
  | [] => 0
  | EEmit (MilestoneReached id' st' _) :: t' =>
      (if (id' =? id)%Z && stage_eq st' st then 1 else 0) + milestone_payouts id st t'
  | _ :: t' => milestone_payouts id st t'
  end%nat.


(** The scenario of the specification: funding 1000, 400 released at the
    hub, refund of the remaining 600 after the lock period, then a scan. *)
Definition at_hub : State := run (fund 1000 ++ [to_hub]) genesis.

Definition after_lock : Env := platform 10 2592101.

Definition refunded : State := step after_lock (RequestRefund shipment) at_hub.

Definition late_scan : Env * call :=
  (platform 60 2592200, ScanAsset shipment "Village C" Beneficiary 98 "delivered").

(** The asset funded with 1000, and a scan at the hub that carries no
    photo. *)
Definition funded : State := run (fund 1000) genesis.

Definition unproven_scan : Env * call :=
  (platform 60 200, ScanAsset shipment "Hub B" Hub 0 "no photo").

(** A scan that reports the warehouse again for the asset at the hub, and
    a flag by the auditor. *)
Definition back_scan : Env * call :=
  (platform 60 250, ScanAsset shipment "Depot A" Warehouse 5 "back").

Definition sent_back : State := run [back_scan] at_hub.

Definition audit_flag : Env * call := (platform 2 260, FlagAsset shipment "audit").

(** Funding 1000, a flag by the auditor, then the refund by the donor. *)
Definition refunded_early : State :=
  run (fund 1000 ++ [(platform 2 150, FlagAsset shipment "suspicious");
                     (platform 10 160, RequestRefund shipment)]) genesis.

(** Eligibility as the specification words it. *)
Definition refund_eligible (env : Env) (a : Asset) : bool :=
  isFlagged a
  || ((donorTimestamp a + REFUND_LOCK_PERIOD <? block_timestamp env)
      && stage_lt (currentStage a) Beneficiary).

(** The checks of [request_refund] in the order of the specification: the
    error of the first check that fails, if any. *)
Definition refund_verdict (env : Env) (s : State) (id : bytes32) : option error :=
  let a := asset s id in
  if donor a =? 0 then Some AssetNotInitialized
  else if negb (donor a =? msg_sender env) then Some NotTheDonor
  else if isRefunded a then Some AlreadyRefunded
  else if negb (refund_eligible env a) then Some NotEligible
  else if allocatedFunds a - releasedFunds a <=? 0 then Some NothingToRefund
  else None.

(** The state a refund leaves and its effects. *)
Definition refund_state (id : bytes32) (s : State) : State :=
  let a := asset s id in
  with_entered false
    (with_balance (balance s - (allocatedFunds a - releasedFunds a))
       (upd_asset id (set_allocatedFunds (releasedFunds a))
          (upd_asset id (set_isRefunded true) (with_entered true s)))).

Definition refund_effects (env : Env) (id : bytes32) (s : State) : list effect :=
  let a := asset s id in
  [EWrite SGuardStatus; EWrite (SIsRefunded id); EWrite (SAllocatedFunds id);
   ETransfer (donor a) (allocatedFunds a - releasedFunds a);
   EEmit (Refunded id (msg_sender env) (allocatedFunds a - releasedFunds a));
   EWrite SGuardStatus].

(** A state where asset 7 is funded with 1000 and flagged by the auditor,
    and a donor whose account rejects incoming value. *)
Definition flagged_early : State :=
  run (fund 1000 ++ [(platform 2 150, FlagAsset shipment "suspicious")]) genesis.

Definition rejecting_donor : Env := mkEnv 10 160 (λ recipient _, negb (recipient =? 10)).

Definition is_emergency (c : call) : bool :=
  match c with
  | EmergencyWithdraw _ => true
  | _ => false
  end.

(** Calls other than [emergencyWithdraw]. *)
Definition not_emergency (c : call) : bool := negb (is_emergency c).

Definition administrator : Env := platform 1 500.

(** The operations that move value out of the ledger; a milestone release
    is one round of the release loop of a scan. *)
Inductive value_op : Type :=
| MilestoneRelease (id : bytes32) (i : nat)
| ManualRelease (id : bytes32) (recipient : address) (amount : uint256)
| Refund (id : bytes32).

Definition perform (env : Env) (o : value_op) : M unit :=
  match o with
  | MilestoneRelease id i => release_milestone env id i
  | ManualRelease id r amount => manualReleaseFunds env id r amount
  | Refund id => requestRefund env id
  end.

(** The storage locations each operation writes before its transfer and
    after it. *)
Definition written_before (o : value_op) : list slot :=
  match o with
  | MilestoneRelease id i => [SMilestoneIsReleased id i; SReleasedFunds id]
  | ManualRelease id _ _ => [SGuardStatus; SReleasedFunds id]
  | Refund id => [SGuardStatus; SIsRefunded id; SAllocatedFunds id]
  end.

Definition written_after (s : State) (o : value_op) : list slot :=
  match o with
  | MilestoneRelease id _ => [SNgoTotalReceived (assignedNGO (asset s id)); STotalFundsReleased]
  | ManualRelease _ r _ => [SNgoTotalReceived r; STotalFundsReleased; SGuardStatus]
  | Refund _ => [SGuardStatus]
  end.

Definition auditor : Env := platform 2 250.

(** The transfers of a payment of [amt]: none when the amount is zero. *)
Definition payment (r : address) (amt : uint256) : list (address * uint256) :=
  if 0 <? amt then [(r, amt)] else [].

(** The amount a round pays for milestone [m] of an asset with allocated
    funds [F] and released funds [r]: nothing unless the milestone is due. *)
Definition round_amount (s : State) (a : Asset) (m : Milestone) : Z :=
  if due s a m then Z.max 0 (release_amount a m) else 0.

(** The trigger and the amount of a milestone in numbers: [k] is the scan
    threshold, [n] the scan count, [F] the allocated and [r] the released
    funds, [pct] the percentage. *)
Definition is_due (k n : Z) (st target : Stage) (released : bool) : bool :=
  stage_ge st target && negb released && (k <=? n).

Definition milestone_amount (trigger : bool) (F r pct : Z) : Z :=
  if trigger then Z.max 0 (Z.min (F * pct / 100) (F - r)) else 0.

(** The funding of the counterexample: 3 units. *)
Definition small_grant : State := run (fund 3) genesis.

(** ** Books, journal and registers *)

(** The sum of [f] over the values stored in a mapping. *)
Definition map_total {K : Type} `{Countable K} {A : Type} (f : A → Z) (m : gmap K A) : Z :=
  map_fold (λ _ a acc, acc + f a) 0 m.

(** The sums the platform totals are compared with: released and allocated
    funds over the assets, receipts over the NGOs, contributions over the
    donors. *)
Definition released_total (s : State) : Z := map_total releasedFunds (assets s).
Definition allocated_total (s : State) : Z := map_total allocatedFunds (assets s).
Definition received_total (s : State) : Z := map_total (λ v : uint256, v) (ngoTotalReceived s).
Definition contributed_total (s : State) : Z :=
  map_total (λ v : uint256, v) (donorTotalContributions s).

(** The ids whose asset record has been written. *)
Definition asset_ids (s : State) : gset bytes32 := dom (assets s).

(** The platform totals agree with the per-asset and per-account books. *)
Record Books (s : State) : Prop := {
  bk_released : totalFundsReleased s = released_total s;
  bk_received : received_total s = totalFundsReleased s;
  bk_contributed : contributed_total s = totalFundsAllocated s;
  bk_allocated : allocated_total s ≤ totalFundsAllocated s;
  bk_ids : ∀ id, id ∈ asset_ids s → donor (asset s id) ≠ 0;
  bk_tracked : totalAssetsTracked s = Z.of_nat (size (asset_ids s))
}.

(** What the release loop does to the books. *)
Record books_frame (id : bytes32) (s s' : State) : Prop := {
  bf_released : released_total s' - totalFundsReleased s'
                = released_total s - totalFundsReleased s;
  bf_received : received_total s' - totalFundsReleased s'
                = received_total s - totalFundsReleased s;
  bf_allocated : allocated_total s' = allocated_total s;
  bf_contributed : contributed_total s' = contributed_total s;
  bf_totalAllocated : totalFundsAllocated s' = totalFundsAllocated s;
  bf_tracked : totalAssetsTracked s' = totalAssetsTracked s;
  bf_ids : {[id]} ∪ asset_ids s' = {[id]} ∪ asset_ids s;
  bf_donorAssets : ∀ d, assetsOf s' d = assetsOf s d;
  bf_contributions : ∀ d, donorContributed s' d = donorContributed s d
}.

(** The asset record [initAsset] writes over the record [a] of the slot. *)
Definition new_asset (env : Env) (v : uint256) (desc : string) (ngo : address)
    (geo : string) (a : Asset) : Asset :=
  set_scansCount 1
    (set_currentStage Warehouse
       (set_currentGeoTag geo
          (set_assetDescription desc
             (set_donorTimestamp (block_timestamp env)
                (set_assignedNGO ngo
                   (set_donor (msg_sender env) (set_allocatedFunds v a))))))).

(** The journal entry [initAsset] writes. *)
Definition initial_entry (env : Env) (geo : string) : ScanLog :=
  mkScanLog (block_timestamp env) (msg_sender env) geo Warehouse 0 false "Asset initialized".

(** The state a successful [initAsset] leaves, and its effects in program
    order. *)
Definition created (env : Env) (v : uint256) (id : bytes32) (desc : string)
    (ngo : address) (geo : string) (s : State) : State :=
  with_totalFundsAllocated (totalFundsAllocated s + v)
    (with_totalAssetsTracked (totalAssetsTracked s + 1)
       (set_donorContributed (msg_sender env) (donorContributed s (msg_sender env) + v)
          (push_donorAsset (msg_sender env) id
             (push_history id (initial_entry env geo)
                (push_milestone id (mkMilestone Beneficiary 60 false)
                   (push_milestone id (mkMilestone Hub 40 false)
                      (upd_asset id (set_scansCount 1)
                         (upd_asset id (set_currentStage Warehouse)
                            (upd_asset id (set_currentGeoTag geo)
                               (upd_asset id (set_assetDescription desc)
                                  (upd_asset id (set_donorTimestamp (block_timestamp env))
                                     (upd_asset id (set_assignedNGO ngo)
                                        (upd_asset id (set_donor (msg_sender env))
                                           (upd_asset id (set_allocatedFunds v)
                                              (with_balance (balance s + v) s))))))))))))))).

Definition created_effects (env : Env) (v : uint256) (id : bytes32) (desc : string)
    (ngo : address) : list effect :=
  [EDeposit v; EWrite (SAllocatedFunds id); EWrite (SDonor id); EWrite (SAssignedNGO id);
   EWrite (SDonorTimestamp id); EWrite (SAssetDescription id); EWrite (SCurrentGeoTag id);
   EWrite (SCurrentStage id); EWrite (SScansCount id); EWrite (SAssetMilestones id);
   EWrite (SAssetMilestones id); EWrite (SAssetHistory id);
   EWrite (SDonorAssets (msg_sender env));
   EWrite (SDonorTotalContributions (msg_sender env)); EWrite STotalAssetsTracked;
   EWrite STotalFundsAllocated;
   EEmit (AssetInitialized id (msg_sender env) ngo v desc)].

(** The state a successful [manualReleaseFunds] leaves, and its effects. *)
Definition released_manually (id : bytes32) (r : address) (amount : uint256)
    (s : State) : State :=
  with_entered false
    (with_totalFundsReleased (totalFundsReleased s + amount)
       (set_ngoReceived r (ngoReceived s r + amount)
          (with_balance (balance s - amount)
             (upd_asset id (set_releasedFunds (releasedFunds (asset s id) + amount))
                (with_entered true s))))).

Definition manual_effects (id : bytes32) (r : address) (amount : uint256)
    (s : State) : list effect :=
  [EWrite SGuardStatus; EWrite (SReleasedFunds id); ETransfer r amount;
   EWrite (SNgoTotalReceived r); EWrite STotalFundsReleased;
   EEmit (FundsReleased id r amount (currentStage (asset s id))); EWrite SGuardStatus].

(** The journal of an asset agrees with its record: one entry per counted
    scan, the first written by [initAsset], the last carrying the current
    stage and location. *)
Record Journal (s : State) : Prop := {
  jn_count : ∀ id, scansCount (asset s id) = Z.of_nat (length (history s id));
  jn_last : ∀ id, donor (asset s id) ≠ 0 →
    ∃ e, last (history s id) = Some e
         ∧ stage e = currentStage (asset s id)
         ∧ geoTag e = currentGeoTag (asset s id);
  jn_first : ∀ id, donor (asset s id) ≠ 0 →
    ∃ e, head (history s id) = Some e
         ∧ timestamp e = donorTimestamp (asset s id)
         ∧ scanner e = donor (asset s id)
         ∧ stage e = Warehouse ∧ photoHash e = 0 ∧ anomalyFlagged e = false
         ∧ notes e = "Asset initialized"%string
}.

(** [donorAssets[d]] lists the assets donated by [d], each once. *)
Record Registry (s : State) : Prop := {
  rg_member : ∀ d id, id ∈ assetsOf s d ↔ d ≠ 0 ∧ donor (asset s id) = d;
  rg_nodup : ∀ d, NoDup (assetsOf s d)
}.

(** The views without a modifier: each returns the stored list, which is
    empty for a key that was never written. *)
Definition getAssetHistory (id : bytes32) : M (list ScanLog) :=
  sload (λ s, history s id).

Definition getAssetMilestones (id : bytes32) : M (list Milestone) :=
  sload (λ s, milestones s id).

Definition getDonorAssets (d : address) : M (list bytes32) :=
  sload (λ s, assetsOf s d).

(** Every released milestone has a journal entry at its stage or beyond. *)
Definition Backed (s : State) : Prop :=
  ∀ id i m, milestones s id !! i = Some m → isReleased m = true →
    ∃ e, e ∈ history s id ∧ stage_ge (stage e) (mstage m) = true.

(** A mark found after the loop was there before it, or the stage of the
    asset has reached the milestone. *)
Definition marks_origin (id : bytes32) (s0 s1 : State) : Prop :=
  ∀ i m, milestones s1 id !! i = Some m → isReleased m = true →
    milestones s0 id !! i = Some m
    ∨ stage_ge (currentStage (asset s0 id)) (mstage m) = true.

(** The role a call requires of its sender, if any. *)
Definition required_role (c : call) : option Role :=
  match c with
  | ScanAsset _ _ _ _ _ => Some SCANNER_ROLE
  | ManualReleaseFunds _ _ _ | FlagAsset _ _ | UnflagAsset _ => Some AUDITOR_ROLE
  | AddScanner _ | AddNGO _ | UpdateMinScans _ => Some ADMIN_ROLE
  | GrantRole r _ | RevokeRole r _ => Some (getRoleAdmin r)
  | EmergencyWithdraw _ => Some DEFAULT_ADMIN_ROLE
  | InitAsset _ _ _ _ _ | RequestRefund _ | RenounceRole _ _ | Receive _ => None
  end.

(** The calls that can change the members of a role. *)
Definition manages_roles (c : call) : bool :=
  match c with
  | AddScanner _ | AddNGO _ | GrantRole _ _ | RevokeRole _ _ | RenounceRole _ _ => true
  | _ => false
  end.

(** The calls that pay out of the escrow, and the one that creates assets. *)
Definition is_init (c : call) : bool :=
  match c with InitAsset _ _ _ _ _ => true | _ => false end.

Definition pays_out (c : call) : bool :=
  match c with ScanAsset _ _ _ _ _ | ManualReleaseFunds _ _ _ => true | _ => false end.

Definition sets_threshold (c : call) : bool :=
  match c with UpdateMinScans _ => true | _ => false end.


(** What granting role [r] to [a] leaves behind. *)
Definition granted (env : Env) (r : Role) (a : address) (s s' : State) (t : list effect)
    : Prop :=
  hasRole s' r a = true
  ∧ (∀ r' x, (r', x) ≠ (r, a) → hasRole s' r' x = hasRole s r' x)
  ∧ (if hasRole s r a then s' = s ∧ t = []
     else s' = with_roles ({[(r, a)]} ∪ roles s) s
          ∧ t = [EWrite (SRoleMember r a); EEmit (RoleGranted r a (msg_sender env))]).

(** The funded asset under a threshold of three scans. *)
Definition three_scans : State := run [(platform 1 150, UpdateMinScans 3)] funded.

(** ** Reasoning about computations *)

Lemma bind_inr {A B : Type} (m : M A) (k : A → M B) s b s' t :
  bind m k s = inr (b, s', t) →
  ∃ a s1 t1 t2, m s = inr (a, s1, t1) ∧ k a s1 = inr (b, s', t2) ∧ t = t1 ++ t2.
Proof.
  unfold bind. destruct (m s) as [e|[[a s1] t1]]; [discriminate|].
  destruct (k a s1) as [e|[[b' s2] t2]] eqn:Hk; [discriminate|].
  intros [= -> -> <-]. eauto 10.
Qed.

Lemma bind_ok {A B : Type} (m : M A) (k : A → M B) s a s1 t1 :
  m s = inr (a, s1, t1) →
  bind m k s =
    match k a s1 with inl e => inl e | inr (b, s2, t2) => inr (b, s2, t1 ++ t2) end.
Proof. unfold bind. intros ->. reflexivity. Qed.

Lemma bind_fail {A B : Type} (m : M A) (k : A → M B) s e :
  m s = inl e → bind m k s = inl e.
Proof. unfold bind. intros ->. reflexivity. Qed.

Lemma require_inr b e s u s' t :
  require b e s = inr (u, s', t) → b = true ∧ s' = s ∧ t = [].
Proof. destruct b; cbn; [intros [= _ <- <-]; auto | discriminate]. Qed.

Lemma safe_add_inr a b s r s' t :
  safe_add a b s = inr (r, s', t) → r = a + b ∧ a + b ≤ MAX_UINT256 ∧ s' = s ∧ t = [].
Proof.
  unfold safe_add. destruct (Z.leb_spec (a + b) MAX_UINT256); cbn; [|discriminate].
  intros [= <- <- <-]. auto.
Qed.

Lemma safe_sub_inr a b s r s' t :
  safe_sub a b s = inr (r, s', t) → r = a - b ∧ b ≤ a ∧ s' = s ∧ t = [].
Proof.
  unfold safe_sub. destruct (Z.leb_spec b a); cbn; [|discriminate].
  intros [= <- <- <-]. auto.
Qed.

Lemma safe_mul_inr a b s r s' t :
  safe_mul a b s = inr (r, s', t) → r = a * b ∧ a * b ≤ MAX_UINT256 ∧ s' = s ∧ t = [].
Proof.
  unfold safe_mul. destruct (Z.leb_spec (a * b) MAX_UINT256); cbn; [|discriminate].
  intros [= <- <- <-]. auto.
Qed.

Lemma safe_div_inr a b s r s' t :
  safe_div a b s = inr (r, s', t) → r = a / b ∧ b ≠ 0 ∧ s' = s ∧ t = [].
Proof.
  unfold safe_div. destruct (Z.eqb_spec b 0); cbn; [discriminate|].
  intros [= <- <- <-]. auto.
Qed.

Lemma call_value_inr env r v s ok s' t :
  call_value env r v s = inr (ok, s', t) →
  (ok = true ∧ v ≤ balance s ∧ accepts env r v = true
   ∧ s' = with_balance (balance s - v) s ∧ t = [ETransfer r v])
  ∨ (ok = false ∧ s' = s ∧ t = []).
Proof.
  unfold call_value. destruct (Z.leb_spec v (balance s)); cbn.
  - destruct (accepts env r v) eqn:Hacc; intros [= <- <- <-]; auto 10.
  - intros [= <- <- <-]; auto.
Qed.

(** Symbolic execution of a successful computation: every bind is split and
    every primitive is replaced by what it returned. *)
Ltac minv_step :=
  match goal with
  | H : bind _ _ _ = inr _ |- _ =>
      apply bind_inr in H; destruct H as (? & ? & ? & ? & ? & H & ?)
  | H : ret _ _ = inr _ |- _ => unfold ret in H; simplify_eq
  | H : revert _ _ = inr _ |- _ => discriminate H
  | H : require _ _ _ = inr _ |- _ =>
      let Hb := fresh "Hreq" in
      apply require_inr in H; destruct H as (Hb & ? & ?); try discriminate Hb
  | H : sload _ _ = inr _ |- _ => unfold sload in H; simplify_eq
  | H : sstore _ _ _ = inr _ |- _ => unfold sstore in H; simplify_eq
  | H : emit _ _ = inr _ |- _ => unfold emit in H; simplify_eq
  | H : receive_value _ _ = inr _ |- _ => unfold receive_value in H; simplify_eq
  | H : safe_add _ _ _ = inr _ |- _ =>
      apply safe_add_inr in H; destruct H as (? & ? & ? & ?)
  | H : safe_sub _ _ _ = inr _ |- _ =>
      apply safe_sub_inr in H; destruct H as (? & ? & ? & ?)
  | H : safe_mul _ _ _ = inr _ |- _ =>
      apply safe_mul_inr in H; destruct H as (? & ? & ? & ?)
  | H : safe_div _ _ _ = inr _ |- _ =>
      apply safe_div_inr in H; destruct H as (? & ? & ? & ?)
  | H : call_value _ _ _ _ = inr _ |- _ =>
      let Hok := fresh "Hok" in
      apply call_value_inr in H;
      destruct H as [(Hok & ? & ? & ? & ?)|(Hok & ? & ?)]; try discriminate Hok
  | H : onlyRole _ _ _ = inr _ |- _ => unfold onlyRole in H
  | H : assetExists _ _ = inr _ |- _ => unfold assetExists in H
  | H : notFlagged _ _ = inr _ |- _ => unfold notFlagged in H
  | H : nonReentrant _ _ = inr _ |- _ => unfold nonReentrant in H
  | H : (if ?b then _ else _) _ = inr _ |- _ => destruct b eqn:?
  | H : (if ?b then _ else _) = inr _ |- _ => destruct b eqn:?
  | H : (match ?x with Some _ => _ | None => _ end) _ = inr _ |- _ => destruct x eqn:?
  end; subst.

Ltac minv := repeat minv_step; repeat match goal with H : true = true |- _ => clear H end.


Lemma release_amount_if a m :
  (if allocatedFunds a <? releasedFunds a + nominal_amount a m
   then allocatedFunds a - releasedFunds a
   else nominal_amount a m) = release_amount a m.
Proof.
  unfold release_amount.
  destruct (Z.ltb_spec (allocatedFunds a) (releasedFunds a + nominal_amount a m)); lia.
Qed.

Ltac rewrite_tests :=
  repeat match goal with
  | H : ?b = true |- context [?b] => rewrite H
  | H : ?b = false |- context [?b] => rewrite H
  end.

(** A round of the loop that does not revert is [release_round], and its
    transfer does not overdraw the balance. *)
Lemma release_milestone_inr env id i s u s' t :
  release_milestone env id i s = inr (u, s', t) →
  (s', t) = release_round id i s ∧ (0 ≤ balance s → 0 ≤ balance s').
Proof.
  intros H. unfold release_milestone in H. minv; unfold release_round.
  all: repeat match goal with H : milestones _ _ !! _ = _ |- _ => rewrite H end.
  all: rewrite <- !release_amount_if; unfold due, nominal_amount.
  all: rewrite_tests; cbn [andb].
  all: split; [reflexivity|]; cbn in *; lia.
Qed.

(** Decide the arithmetic tests of a goal by linear arithmetic. *)
Ltac decide_tests :=
  repeat match goal with
  | |- context [?a <=? ?b] =>
      first [rewrite (proj2 (Z.leb_le a b)) by lia | rewrite (proj2 (Z.leb_gt a b)) by lia]
  | |- context [?a <? ?b] =>
      first [rewrite (proj2 (Z.ltb_lt a b)) by lia | rewrite (proj2 (Z.ltb_ge a b)) by lia]
  | |- context [?a =? ?b] =>
      first [rewrite (proj2 (Z.eqb_eq a b)) by lia | rewrite (proj2 (Z.eqb_neq a b)) by lia]
  end.

Ltac munfold :=
  unfold safe_add, safe_sub, safe_mul, safe_div, call_value, require, sload, sstore, emit,
    receive_value, bind, ret, revert;
  cbn beta iota zeta.

Ltac proj_cbn :=
  cbn [minScansForFirstPayout assets assetHistory assetMilestones donorTotalContributions
       ngoTotalReceived donorAssets totalAssetsTracked totalFundsAllocated
       totalFundsReleased roles entered balance
       with_minScans with_assets with_assetHistory with_assetMilestones
       with_donorTotalContributions with_ngoTotalReceived with_donorAssets
       with_totalAssetsTracked with_totalFundsAllocated with_totalFundsReleased
       with_roles with_entered with_balance
       allocatedFunds releasedFunds scansCount donorTimestamp assetDescription
       currentGeoTag currentStage isFlagged isRefunded donor assignedNGO
       set_allocatedFunds set_releasedFunds set_scansCount set_donorTimestamp
       set_assetDescription set_currentGeoTag set_currentStage set_isFlagged
       set_isRefunded set_donor set_assignedNGO
       mstage releasePercentage isReleased set_isReleased
       fst snd andb orb negb].

(** Forward execution of a short computation, every state update unfolded. *)
Ltac mrun_small :=
  munfold;
  unfold pay_milestone, upd_asset, upd_milestone, set_ngoReceived in *;
  unfold asset, milestones, ngoReceived in *;
  proj_cbn;
  repeat (progress (decide_tests; cbn beta iota zeta; proj_cbn)).

(** The conditions under which a round of the loop does not revert. *)
Lemma release_milestone_ok env id i s m :
  milestones s id !! i = Some m →
  (due s (asset s id) m = true →
   releasedFunds (asset s id) ≤ allocatedFunds (asset s id) ≤ MAX_UINT256
   ∧ allocatedFunds (asset s id) * releasePercentage m ≤ MAX_UINT256
   ∧ releasedFunds (asset s id) + nominal_amount (asset s id) m ≤ MAX_UINT256
   ∧ (0 < release_amount (asset s id) m →
      release_amount (asset s id) m ≤ balance s
      ∧ accepts env (assignedNGO (asset s id)) (release_amount (asset s id) m) = true
      ∧ ngoReceived s (assignedNGO (asset s id)) + release_amount (asset s id) m
        ≤ MAX_UINT256
      ∧ totalFundsReleased s + release_amount (asset s id) m ≤ MAX_UINT256)) →
  release_milestone env id i s =
    inr (tt, (release_round id i s).1, (release_round id i s).2).
Proof.
  intros Hm Hok. unfold release_milestone, release_round.
  unfold bind at 1. unfold sload at 1. rewrite Hm.
  unfold bind at 1. unfold sload at 1.
  unfold bind at 1. unfold sload at 1.
  fold (due s (asset s id) m).
  destruct (due s (asset s id) m) eqn:Hdue; [|reflexivity].
  destruct Hok as (Hb & Hmul & Hadd & Hpay); [reflexivity|].
  cbn [andb]. rewrite <- release_amount_if in *.
  unfold nominal_amount in *.
  destruct (Z.ltb_spec (allocatedFunds (asset s id))
              (releasedFunds (asset s id)
               + allocatedFunds (asset s id) * releasePercentage m / 100)) as [Hc|Hc];
    [destruct (Z.ltb_spec 0 (allocatedFunds (asset s id) - releasedFunds (asset s id)))
       as [Hp|Hp]
    |destruct (Z.ltb_spec 0 (allocatedFunds (asset s id) * releasePercentage m / 100))
       as [Hp|Hp]];
    try (destruct Hpay as (Hbal & Hacc & Hngo & Htot); [lia|]);
    mrun_small; try rewrite Hacc; mrun_small; try rewrite lookup_insert_eq; reflexivity.
Qed.

Lemma for_each_release_inr env id l s u s' t :
  for_each l (release_milestone env id) s = inr (u, s', t) →
  (s', t) = release_rounds id l s ∧ (0 ≤ balance s → 0 ≤ balance s').
Proof.
  revert s u s' t. induction l as [|i l IH]; intros s u s' t H; cbn in H.
  - unfold ret in H. simplify_eq. cbn. auto.
  - apply bind_inr in H. destruct H as (u1 & s1 & t1 & t2 & H1 & H2 & ->).
    apply release_milestone_inr in H1. destruct H1 as [H1 Hb1].
    apply IH in H2. destruct H2 as [H2 Hb2].
    cbn. rewrite <- H1, <- H2. auto.
Qed.

Lemma _checkAndReleaseMilestone_inr env id s u s' t :
  _checkAndReleaseMilestone env id s = inr (u, s', t) →
  (s', t) = release_rounds id (seq 0 (length (milestones s id))) s
  ∧ (0 ≤ balance s → 0 ≤ balance s').
Proof.
  intros H. unfold _checkAndReleaseMilestone in H.
  apply bind_inr in H. destruct H as (ms & s1 & t1 & t2 & H1 & H2 & ->).
  unfold sload in H1. simplify_eq. by apply for_each_release_inr in H2.
Qed.

(** A property that every round keeps is kept by the loop. *)
Lemma release_rounds_keeps id (P : State → Prop) :
  (∀ i s, P s → P (release_round id i s).1) →
  ∀ l s, P s → P (release_rounds id l s).1.
Proof.
  intros Hround l. induction l as [|i l IH]; intros s Hs; cbn; [done|].
  specialize (Hround i s Hs). destruct (release_round id i s) as [s1 t1].
  specialize (IH s1 Hround). destruct (release_rounds id l s1) as [s2 t2]. done.
Qed.

(** ** The escrow sum *)

Lemma escrow_sum_insert (m : gmap bytes32 Asset) id a :
  escrow_sum (<[id := a]> m) = escrow_sum m - escrow (default zero_asset (m !! id)) + escrow a.
Proof.
  unfold escrow_sum.
  destruct (m !! id) as [a0|] eqn:Hid; cbn [default from_option Datatypes.id].
  - rewrite <- insert_delete_eq.
    rewrite map_fold_insert_L; [|intros; lia|apply lookup_delete_eq].
    rewrite (map_fold_delete_L _ _ id a0 m); [cbn beta; lia|intros; lia|done].
  - rewrite map_fold_insert_L; [|intros; lia|done].
    cbn beta. change (escrow zero_asset) with 0. lia.
Qed.

Lemma escrow_sum_empty : escrow_sum ∅ = 0.
Proof. unfold escrow_sum. apply map_fold_empty. Qed.

(** ** Observations of updated states *)

Lemma asset_upd_asset id f s id' :
  asset (upd_asset id f s) id' = if decide (id' = id) then f (asset s id) else asset s id'.
Proof.
  unfold asset, upd_asset. cbn. case_decide as Hid.
  - subst. by rewrite lookup_insert_eq.
  - by rewrite lookup_insert_ne.
Qed.

Lemma milestones_upd_milestone id i f s id' :
  milestones (upd_milestone id i f s) id' =
    if decide (id' = id) then alter f i (milestones s id) else milestones s id'.
Proof.
  unfold milestones, upd_milestone. cbn. case_decide as Hid.
  - subst. by rewrite lookup_insert_eq.
  - by rewrite lookup_insert_ne.
Qed.

Lemma milestones_push_milestone id m s id' :
  milestones (push_milestone id m s) id' =
    if decide (id' = id) then milestones s id ++ [m] else milestones s id'.
Proof.
  unfold milestones, push_milestone. cbn. case_decide as Hid.
  - subst. by rewrite lookup_insert_eq.
  - by rewrite lookup_insert_ne.
Qed.

Lemma history_push_history id e s id' :
  history (push_history id e s) id' =
    if decide (id' = id) then history s id ++ [e] else history s id'.
Proof.
  unfold history, push_history. cbn. case_decide as Hid.
  - subst. by rewrite lookup_insert_eq.
  - by rewrite lookup_insert_ne.
Qed.

Lemma ngoReceived_set_ngoReceived a v s a' :
  ngoReceived (set_ngoReceived a v s) a' = if decide (a' = a) then v else ngoReceived s a'.
Proof.
  unfold ngoReceived, set_ngoReceived. cbn. case_decide as Hid.
  - subst. by rewrite lookup_insert_eq.
  - by rewrite lookup_insert_ne.
Qed.

Lemma escrow_total_upd_asset id f s :
  escrow_total (upd_asset id f s) =
    escrow_total s - escrow (asset s id) + escrow (f (asset s id)).
Proof. unfold escrow_total, upd_asset, asset. cbn. apply escrow_sum_insert. Qed.

Lemma asset_pay_milestone id i amt s id' :
  asset (pay_milestone id i amt s) id' =
    if decide (id' = id)
    then set_releasedFunds (releasedFunds (asset s id) + amt) (asset s id)
    else asset s id'.
Proof. unfold pay_milestone. apply (asset_upd_asset id _ (upd_milestone id i _ s)). Qed.

Lemma milestones_pay_milestone id i amt s id' :
  milestones (pay_milestone id i amt s) id' =
    if decide (id' = id)
    then alter (set_isReleased true) i (milestones s id)
    else milestones s id'.
Proof. unfold pay_milestone. apply (milestones_upd_milestone id i _ s). Qed.

Lemma escrow_total_pay_milestone id i amt s :
  escrow_total (pay_milestone id i amt s) = escrow_total s - amt.
Proof.
  unfold pay_milestone.
  change (escrow_total s - amt) with (escrow_total (upd_milestone id i (set_isReleased true) s) - amt).
  etrans; [apply (escrow_total_upd_asset id _ (upd_milestone id i _ s))|].
  change (asset (upd_milestone id i (set_isReleased true) s) id) with (asset s id).
  unfold escrow. cbn. lia.
Qed.

Lemma balance_pay_milestone id i amt s :
  balance (pay_milestone id i amt s) = balance s - amt.
Proof. reflexivity. Qed.

Lemma ngoReceived_pay_milestone id i amt s a :
  ngoReceived (pay_milestone id i amt s) a =
    if decide (a = assignedNGO (asset s id))
    then ngoReceived s (assignedNGO (asset s id)) + amt
    else ngoReceived s a.
Proof.
  unfold pay_milestone. cbn zeta. unfold with_totalFundsReleased, ngoReceived at 1. cbn.
  unfold ngoReceived. case_decide as Ha.
  - subst. by rewrite lookup_insert_eq.
  - by rewrite lookup_insert_ne.
Qed.

Lemma release_amount_le a m :
  release_amount a m ≤ allocatedFunds a - releasedFunds a.
Proof. unfold release_amount. lia. Qed.

(** ** Preservation of the invariant *)

Lemma release_round_Inv id i s :
  Inv s → 0 ≤ balance (release_round id i s).1 → Inv (release_round id i s).1.
Proof.
  intros HI. unfold release_round.
  destruct (milestones s id !! i) as [m|] eqn:Hm; [|done].
  destruct (due s (asset s id) m && (0 <? release_amount (asset s id) m)) eqn:Hfire;
    [|done].
  apply andb_prop in Hfire. destruct Hfire as [Hdue Hpos]. apply Z.ltb_lt in Hpos.
  pose proof (release_amount_le (asset s id) m) as Hle.
  cbn [fst]. intros Hbal. destruct HI as [Ha Hg Hb].
  split.
  - intros id'. rewrite asset_pay_milestone, milestones_pay_milestone.
    case_decide as Hid; [subst id'|apply Ha].
    destruct (Ha id) as [B A MS R F T].
    split; cbn.
    + lia.
    + intros Hd. destruct (A Hd) as [_ Hms]. rewrite Hms in Hm. done.
    + intros Hd. destruct (MS Hd) as (b1 & b2 & Hms). rewrite Hms in *.
      destruct i as [|[|i]]; cbn; eauto.
    + intros Hr. specialize (R Hr). lia.
    + exact F.
    + exact T.
  - exact Hg.
  - rewrite escrow_total_pay_milestone. rewrite balance_pay_milestone in *. lia.
Qed.

Lemma release_round_balance id i s :
  balance (release_round id i s).1 ≤ balance s.
Proof.
  unfold release_round. destruct (milestones s id !! i) as [m|]; [|done].
  destruct (due s (asset s id) m && (0 <? release_amount (asset s id) m)) eqn:Hfire;
    [|done].
  apply andb_prop in Hfire. destruct Hfire as [_ Hpos]. apply Z.ltb_lt in Hpos.
  cbn [fst]. rewrite balance_pay_milestone. lia.
Qed.

Lemma release_rounds_balance id l s :
  balance (release_rounds id l s).1 ≤ balance s.
Proof.
  revert s. induction l as [|i l IH]; intros s; cbn; [done|].
  pose proof (release_round_balance id i s) as H1.
  destruct (release_round id i s) as [s1 t1].
  specialize (IH s1). destruct (release_rounds id l s1) as [s2 t2]. cbn in *. lia.
Qed.

Lemma release_rounds_Inv id l s :
  Inv s → 0 ≤ balance (release_rounds id l s).1 → Inv (release_rounds id l s).1.
Proof.
  revert s. induction l as [|i l IH]; intros s HI; cbn; [done|].
  pose proof (release_round_Inv id i s HI) as H1.
  destruct (release_round id i s) as [s1 t1] eqn:E1.
  pose proof (release_rounds_balance id l s1) as H2.
  specialize (IH s1).
  destruct (release_rounds id l s1) as [s2 t2] eqn:E2. cbn in *.
  intros Hb. apply IH; [|done]. apply H1. lia.
Qed.

(** An update of an existing asset that leaves its funds, its refund mark,
    its donor and its creation time alone keeps the asset well formed. *)
Lemma asset_ok_neutral a a' ms :
  asset_ok a ms → donor a ≠ 0 →
  allocatedFunds a' = allocatedFunds a → releasedFunds a' = releasedFunds a →
  isRefunded a' = isRefunded a → donor a' = donor a →
  donorTimestamp a' = donorTimestamp a →
  asset_ok a' ms.
Proof.
  intros [B A MS R F T] Hd Ha Hr Hf Hdn Ht.
  split; rewrite ?Ha, ?Hr, ?Hf, ?Hdn, ?Ht; auto. intros; done.
Qed.

Lemma Inv_upd_asset id f s :
  Inv s →
  asset_ok (f (asset s id)) (milestones s id) →
  escrow (f (asset s id)) = escrow (asset s id) →
  Inv (upd_asset id f s).
Proof.
  intros [Ha Hg Hb] Hok Hesc. split.
  - intros id'. rewrite asset_upd_asset.
    change (milestones (upd_asset id f s) id') with (milestones s id').
    case_decide; [by subst|apply Ha].
  - exact Hg.
  - rewrite escrow_total_upd_asset. change (balance (upd_asset id f s)) with (balance s). lia.
Qed.

Lemma donor_upd_asset_neutral id f s id' :
  neutral f → donor (asset (upd_asset id f s) id') = donor (asset s id').
Proof.
  intros Hf. rewrite asset_upd_asset. case_decide; [subst|done]. apply Hf.
Qed.

Lemma Inv_upd_asset_neutral id f s :
  neutral f → donor (asset s id) ≠ 0 → Inv s → Inv (upd_asset id f s).
Proof.
  intros Hf Hd HI. destruct (Hf (asset s id)) as (H1 & H2 & H3 & H4 & H5).
  apply Inv_upd_asset; [done| |unfold escrow; lia].
  eapply asset_ok_neutral; eauto. apply HI.
Qed.

Lemma Inv_push_history id e s : Inv s → Inv (push_history id e s).
Proof. intros [Ha Hg Hb]. split; [exact Ha|exact Hg|exact Hb]. Qed.

Ltac neutral_tac := intros ?; cbn; auto.

Ltac exists_tac :=
  rewrite ?donor_upd_asset_neutral by neutral_tac;
  match goal with
  | H : negb (donor _ =? 0) = true |- _ =>
      apply negb_true_iff, Z.eqb_neq in H; exact H
  | H : donor _ ≠ 0 |- _ => exact H
  end.

Ltac inv_chain :=
  repeat first
    [ apply Inv_push_history
    | apply Inv_upd_asset_neutral; [neutral_tac|exists_tac|] ].

Lemma scanAsset_Inv env id geo st photo note s u s' t :
  Inv s → scanAsset env id geo st photo note s = inr (u, s', t) → Inv s'.
Proof.
  intros HI H. unfold scanAsset in H. minv.
  all: match goal with
       | H : _checkAndReleaseMilestone _ _ _ = inr _ |- _ =>
           apply _checkAndReleaseMilestone_inr in H; destruct H as [H Hbal]
       end.
  all: match goal with
       | H : (_, _) = release_rounds ?i ?l ?s |- Inv ?s' =>
           replace s' with (release_rounds i l s).1 in * by (by rewrite <- H);
           apply release_rounds_Inv; [|apply Hbal; apply HI]
       end.
  all: inv_chain; exact HI.
Qed.


(** ** Normalising observations *)

Lemma asset_upd_asset_eq id f s : asset (upd_asset id f s) id = f (asset s id).
Proof. rewrite asset_upd_asset. by case_decide. Qed.

Lemma asset_upd_asset_ne id f s id' :
  id' ≠ id → asset (upd_asset id f s) id' = asset s id'.
Proof. intros. rewrite asset_upd_asset. by case_decide. Qed.

Lemma milestones_upd_milestone_eq id i f s :
  milestones (upd_milestone id i f s) id = alter f i (milestones s id).
Proof. rewrite milestones_upd_milestone. by case_decide. Qed.

Lemma milestones_upd_milestone_ne id i f s id' :
  id' ≠ id → milestones (upd_milestone id i f s) id' = milestones s id'.
Proof. intros. rewrite milestones_upd_milestone. by case_decide. Qed.

Lemma milestones_push_milestone_eq id m s :
  milestones (push_milestone id m s) id = milestones s id ++ [m].
Proof. rewrite milestones_push_milestone. by case_decide. Qed.

Lemma milestones_push_milestone_ne id m s id' :
  id' ≠ id → milestones (push_milestone id m s) id' = milestones s id'.
Proof. intros. rewrite milestones_push_milestone. by case_decide. Qed.

Lemma history_push_history_eq id e s :
  history (push_history id e s) id = history s id ++ [e].
Proof. rewrite history_push_history. by case_decide. Qed.

Lemma history_push_history_ne id e s id' :
  id' ≠ id → history (push_history id e s) id' = history s id'.
Proof. intros. rewrite history_push_history. by case_decide. Qed.

Lemma asset_pay_milestone_eq id i amt s :
  asset (pay_milestone id i amt s) id =
    set_releasedFunds (releasedFunds (asset s id) + amt) (asset s id).
Proof. rewrite asset_pay_milestone. by case_decide. Qed.

Lemma asset_pay_milestone_ne id i amt s id' :
  id' ≠ id → asset (pay_milestone id i amt s) id' = asset s id'.
Proof. intros. rewrite asset_pay_milestone. by case_decide. Qed.

Lemma milestones_pay_milestone_eq id i amt s :
  milestones (pay_milestone id i amt s) id = alter (set_isReleased true) i (milestones s id).
Proof. rewrite milestones_pay_milestone. by case_decide. Qed.

Lemma milestones_pay_milestone_ne id i amt s id' :
  id' ≠ id → milestones (pay_milestone id i amt s) id' = milestones s id'.
Proof. intros. rewrite milestones_pay_milestone. by case_decide. Qed.

(** *** Frames: what an update touches and what an observation reads *)

Lemma frame {A : Type} (O : State → A) (f : field) (U : State → State)
    (fs : field → bool) `{!Reads O f} `{!Touches U fs} :
  fs f = false → ∀ s, O (U s) = O s.
Proof. intros Hf s. apply (reads (O := O) (f := f)). by apply touches. Qed.

Ltac touches_tac :=
  let fld := fresh "fld" in
  let Hfld := fresh "Hfld" in
  intros fld ? Hfld; destruct fld; first [discriminate Hfld | reflexivity].

Global Instance upd_asset_touches id f : Touches (upd_asset id f) (only F_assets).
Proof. touches_tac. Qed.
Global Instance upd_milestone_touches id i f :
  Touches (upd_milestone id i f) (only F_milestones).
Proof. touches_tac. Qed.
Global Instance push_milestone_touches id m : Touches (push_milestone id m) (only F_milestones).
Proof. touches_tac. Qed.
Global Instance push_history_touches id e : Touches (push_history id e) (only F_history).
Proof. touches_tac. Qed.
Global Instance push_donorAsset_touches a id :
  Touches (push_donorAsset a id) (only F_donorAssets).
Proof. touches_tac. Qed.
Global Instance set_donorContributed_touches a v :
  Touches (set_donorContributed a v) (only F_donorTotals).
Proof. touches_tac. Qed.
Global Instance set_ngoReceived_touches a v : Touches (set_ngoReceived a v) (only F_ngoTotals).
Proof. touches_tac. Qed.
Global Instance with_totalAssetsTracked_touches v :
  Touches (with_totalAssetsTracked v) (only F_tracked).
Proof. touches_tac. Qed.
Global Instance with_totalFundsAllocated_touches v :
  Touches (with_totalFundsAllocated v) (only F_allocated).
Proof. touches_tac. Qed.
Global Instance with_totalFundsReleased_touches v :
  Touches (with_totalFundsReleased v) (only F_released).
Proof. touches_tac. Qed.
Global Instance with_minScans_touches v : Touches (with_minScans v) (only F_minScans).
Proof. touches_tac. Qed.
Global Instance with_roles_touches v : Touches (with_roles v) (only F_roles).
Proof. touches_tac. Qed.
Global Instance with_entered_touches v : Touches (with_entered v) (only F_entered).
Proof. touches_tac. Qed.
Global Instance with_balance_touches v : Touches (with_balance v) (only F_balance).
Proof. touches_tac. Qed.
Global Instance pay_milestone_touches id i v : Touches (pay_milestone id i v) payment_fields.
Proof. touches_tac. Qed.

Ltac reads_tac :=
  let Hs := fresh "Hs" in
  intros ? ? Hs; cbn in Hs;
  cbv beta delta [asset milestones history ngoReceived donorContributed escrow_total
                  hasRole];
  by rewrite Hs.

Global Instance asset_reads id : Reads (λ s, asset s id) F_assets.
Proof. reads_tac. Qed.
Global Instance milestones_reads id : Reads (λ s, milestones s id) F_milestones.
Proof. reads_tac. Qed.
Global Instance history_reads id : Reads (λ s, history s id) F_history.
Proof. reads_tac. Qed.
Global Instance ngoReceived_reads a : Reads (λ s, ngoReceived s a) F_ngoTotals.
Proof. reads_tac. Qed.
Global Instance donorContributed_reads a : Reads (λ s, donorContributed s a) F_donorTotals.
Proof. reads_tac. Qed.
Global Instance escrow_total_reads : Reads escrow_total F_assets.
Proof. reads_tac. Qed.
Global Instance hasRole_reads r a : Reads (λ s, hasRole s r a) F_roles.
Proof. reads_tac. Qed.
Global Instance balance_reads : Reads balance F_balance.
Proof. intros s1 s2 Hs. exact Hs. Qed.
Global Instance entered_reads : Reads entered F_entered.
Proof. intros s1 s2 Hs. exact Hs. Qed.
Global Instance minScans_reads : Reads minScansForFirstPayout F_minScans.
Proof. intros s1 s2 Hs. exact Hs. Qed.
Global Instance totalFundsReleased_reads : Reads totalFundsReleased F_released.
Proof. intros s1 s2 Hs. exact Hs. Qed.
Global Instance totalFundsAllocated_reads : Reads totalFundsAllocated F_allocated.
Proof. intros s1 s2 Hs. exact Hs. Qed.
Global Instance totalAssetsTracked_reads : Reads totalAssetsTracked F_tracked.
Proof. intros s1 s2 Hs. exact Hs. Qed.

(** Push the observation [t], which is [O] applied to the updated state
    [s1], through the update at the head of [s1]. *)
Ltac frame_step t O s1 :=
  lazymatch s1 with
  | ?U ?S =>
      let t' := eval cbv beta in (O S) in
      let H := fresh "Hframe" in
      assert (H : t = t') by exact (frame O _ U _ eq_refl S);
      rewrite H; clear H
  end.

Lemma balance_with_balance v s : balance (with_balance v s) = v.
Proof. reflexivity. Qed.
Lemma entered_with_entered v s : entered (with_entered v s) = v.
Proof. reflexivity. Qed.
Lemma minScans_with_minScans v s : minScansForFirstPayout (with_minScans v s) = v.
Proof. reflexivity. Qed.
Lemma totalFundsReleased_with v s : totalFundsReleased (with_totalFundsReleased v s) = v.
Proof. reflexivity. Qed.
Lemma totalFundsReleased_pay_milestone id i v s :
  totalFundsReleased (pay_milestone id i v s) = totalFundsReleased s + v.
Proof. reflexivity. Qed.

(** One step of pushing an observation through an update: by the lemma of
    the update when it touches the observed field, by [frame] otherwise. *)
Ltac obs_step :=
  match goal with
  | |- context [asset (upd_asset ?i ?f ?s) ?j] =>
      first [ rewrite (asset_upd_asset_eq i f s)
            | rewrite (asset_upd_asset_ne i f s j) by congruence ]
  | |- context [asset (pay_milestone ?i ?k ?v ?s) ?j] =>
      first [ rewrite (asset_pay_milestone_eq i k v s)
            | rewrite (asset_pay_milestone_ne i k v s j) by congruence ]
  | |- context [milestones (upd_milestone ?i ?k ?f ?s) ?j] =>
      first [ rewrite (milestones_upd_milestone_eq i k f s)
            | rewrite (milestones_upd_milestone_ne i k f s j) by congruence ]
  | |- context [milestones (push_milestone ?i ?m ?s) ?j] =>
      first [ rewrite (milestones_push_milestone_eq i m s)
            | rewrite (milestones_push_milestone_ne i m s j) by congruence ]
  | |- context [milestones (pay_milestone ?i ?k ?v ?s) ?j] =>
      first [ rewrite (milestones_pay_milestone_eq i k v s)
            | rewrite (milestones_pay_milestone_ne i k v s j) by congruence ]
  | |- context [history (push_history ?i ?e ?s) ?j] =>
      first [ rewrite (history_push_history_eq i e s)
            | rewrite (history_push_history_ne i e s j) by congruence ]
  | |- context [escrow_total (upd_asset ?i ?f ?s)] =>
      rewrite (escrow_total_upd_asset i f s)
  | |- context [escrow_total (pay_milestone ?i ?k ?v ?s)] =>
      rewrite (escrow_total_pay_milestone i k v s)
  | |- context [balance (pay_milestone ?i ?k ?v ?s)] =>
      rewrite (balance_pay_milestone i k v s)
  | |- context [totalFundsReleased (pay_milestone ?i ?k ?v ?s)] =>
      rewrite (totalFundsReleased_pay_milestone i k v s)
  | |- context [ngoReceived (set_ngoReceived ?a ?v ?s) ?b] =>
      rewrite (ngoReceived_set_ngoReceived a v s b)
  | |- context [ngoReceived (pay_milestone ?i ?k ?v ?s) ?b] =>
      rewrite (ngoReceived_pay_milestone i k v s b)
  | |- context [balance (with_balance ?v ?s)] => rewrite (balance_with_balance v s)
  | |- context [entered (with_entered ?v ?s)] => rewrite (entered_with_entered v s)
  | |- context [minScansForFirstPayout (with_minScans ?v ?s)] =>
      rewrite (minScans_with_minScans v s)
  | |- context [totalFundsReleased (with_totalFundsReleased ?v ?s)] =>
      rewrite (totalFundsReleased_with v s)
  | |- context [asset ?s1 ?j] => frame_step (asset s1 j) (λ s, asset s j) s1
  | |- context [milestones ?s1 ?j] => frame_step (milestones s1 j) (λ s, milestones s j) s1
  | |- context [history ?s1 ?j] => frame_step (history s1 j) (λ s, history s j) s1
  | |- context [ngoReceived ?s1 ?j] => frame_step (ngoReceived s1 j) (λ s, ngoReceived s j) s1
  | |- context [donorContributed ?s1 ?j] =>
      frame_step (donorContributed s1 j) (λ s, donorContributed s j) s1
  | |- context [hasRole ?s1 ?r ?a] => frame_step (hasRole s1 r a) (λ s, hasRole s r a) s1
  | |- context [escrow_total ?s1] => frame_step (escrow_total s1) escrow_total s1
  | |- context [balance ?s1] => frame_step (balance s1) balance s1
  | |- context [entered ?s1] => frame_step (entered s1) entered s1
  | |- context [minScansForFirstPayout ?s1] =>
      frame_step (minScansForFirstPayout s1) minScansForFirstPayout s1
  | |- context [totalFundsReleased ?s1] =>
      frame_step (totalFundsReleased s1) totalFundsReleased s1
  | |- context [totalFundsAllocated ?s1] =>
      frame_step (totalFundsAllocated s1) totalFundsAllocated s1
  | |- context [totalAssetsTracked ?s1] =>
      frame_step (totalAssetsTracked s1) totalAssetsTracked s1
  end.

Ltac obs := repeat obs_step; proj_cbn.

Ltac obs_in H := revert H; obs; intros H.

Lemma initAsset_Inv env v id desc ngo geo s u s' t :
  wf_env env → 0 ≤ v ≤ MAX_UINT256 →
  Inv s → initAsset env v id desc ngo geo s = inr (u, s', t) → Inv s'.
Proof.
  intros [Hsender Htime] Hv HI H. unfold initAsset, _setupDefaultMilestones in H. minv.
  destruct HI as [Ha Hg Hb].
  destruct (Ha id) as [_ A _ _ _ _].
  match goal with H : (donor _ =? 0) = true |- _ => apply Z.eqb_eq in H; rename H into Hd end.
  obs_in Hd.
  destruct (A Hd) as [Hz Hms]. clear A.
  split.
  - intros id'. destruct (decide (id' = id)) as [->|Hne].
    + obs. rewrite Hz, Hms.
      apply Z.ltb_lt in Hreq1.
      split; cbn; try lia; try done; eauto.
    + obs. apply Ha.
  - obs. exact Hg.
  - obs. rewrite Hz. unfold escrow. cbn. lia.
Qed.

Ltac exists_hyp :=
  match goal with
  | H : negb (donor _ =? 0) = true |- _ =>
      apply negb_true_iff, Z.eqb_neq in H; obs_in H
  end.

Ltac tests_to_props :=
  repeat match goal with
  | H : (_ <=? _) = true |- _ => apply Z.leb_le in H
  | H : (_ <=? _) = false |- _ => apply Z.leb_gt in H
  | H : (_ <? _) = true |- _ => apply Z.ltb_lt in H
  | H : (_ <? _) = false |- _ => apply Z.ltb_ge in H
  | H : (_ =? _) = true |- _ => apply Z.eqb_eq in H
  | H : (_ =? _) = false |- _ => apply Z.eqb_neq in H
  | H : negb _ = true |- _ => apply negb_true_iff in H
  | H : negb _ = false |- _ => apply negb_false_iff in H
  end.

Ltac obs_hyps :=
  repeat match goal with
  | H : context [upd_asset] |- _ => progress obs_in H
  | H : context [with_entered] |- _ => progress obs_in H
  | H : context [with_balance] |- _ => progress obs_in H
  | H : context [set_ngoReceived] |- _ => progress obs_in H
  end.

Lemma manualReleaseFunds_Inv env id r amount s u s' t :
  Inv s → manualReleaseFunds env id r amount s = inr (u, s', t) → Inv s'.
Proof.
  intros HI H. unfold manualReleaseFunds in H. minv.
  tests_to_props. obs_hyps.
  destruct HI as [Ha Hg Hb]. destruct (Ha id) as [B A MS R F T].
  split.
  - intros id'. destruct (decide (id' = id)) as [->|?]; obs; [|apply Ha].
    split; cbn; try lia; try done.
    + intros Hr. specialize (R Hr). lia.
  - obs. reflexivity.
  - obs. unfold escrow. cbn. lia.
Qed.

Lemma requestRefund_Inv env id s u s' t :
  Inv s → requestRefund env id s = inr (u, s', t) → Inv s'.
Proof.
  intros HI H. unfold requestRefund in H. minv.
  all: tests_to_props; obs_hyps.
  all: destruct HI as [Ha Hg Hb]; destruct (Ha id) as [B A MS R F T].
  all: split;
    [ intros id'; destruct (decide (id' = id)) as [->|?]; obs; [|apply Ha]
    | obs; reflexivity
    | obs; unfold escrow; cbn; lia ].
  all: split; cbn; try lia; try done.
Qed.

Lemma flagAsset_Inv env id reason s u s' t :
  Inv s → flagAsset env id reason s = inr (u, s', t) → Inv s'.
Proof.
  intros HI H. unfold flagAsset in H. minv. inv_chain. exact HI.
Qed.

Lemma unflagAsset_Inv env id s u s' t :
  Inv s → unflagAsset env id s = inr (u, s', t) → Inv s'.
Proof.
  intros HI H. unfold unflagAsset in H. minv. inv_chain. exact HI.
Qed.

Lemma Inv_with_roles v s : Inv s → Inv (with_roles v s).
Proof. intros [Ha Hg Hb]. split; [exact Ha|exact Hg|exact Hb]. Qed.

Lemma Inv_with_minScans v s : Inv s → Inv (with_minScans v s).
Proof. intros [Ha Hg Hb]. split; [exact Ha|exact Hg|exact Hb]. Qed.

Lemma _grantRole_Inv env r a s u s' t :
  Inv s → _grantRole env r a s = inr (u, s', t) → Inv s'.
Proof.
  intros HI H. unfold _grantRole in H. minv; [done|]. by apply Inv_with_roles.
Qed.

Lemma _revokeRole_Inv env r a s u s' t :
  Inv s → _revokeRole env r a s = inr (u, s', t) → Inv s'.
Proof.
  intros HI H. unfold _revokeRole in H. minv; [|done]. by apply Inv_with_roles.
Qed.

Lemma grantRole_Inv env r a s u s' t :
  Inv s → grantRole env r a s = inr (u, s', t) → Inv s'.
Proof.
  intros HI H. unfold grantRole in H.
  apply bind_inr in H. destruct H as (? & s1 & ? & ? & H1 & H2 & ->).
  unfold onlyRole in H1. minv. by eapply _grantRole_Inv.
Qed.

Lemma emergencyWithdraw_Inv env r s u s' t :
  Inv s → emergencyWithdraw env r s = inr (u, s', t) → Inv s'.
Proof.
  intros HI H. unfold emergencyWithdraw in H. minv.
  tests_to_props. destruct HI as [Ha Hg Hb].
  split; [exact Ha|exact Hg|]. obs. lia.
Qed.

(** Every transaction keeps the invariant. *)
Lemma exec_Inv env c s s' t :
  wf_env env → wf_call c → Inv s → exec env c s = inr (s', t) → Inv s'.
Proof.
  intros Henv Hc HI H. unfold exec in H.
  destruct (dispatch env c s) as [e|[[u s1] t1]] eqn:Hd; [discriminate|].
  injection H as -> ->. destruct c; cbn [dispatch] in Hd.
  - by eapply initAsset_Inv.
  - by eapply scanAsset_Inv.
  - by eapply manualReleaseFunds_Inv.
  - by eapply flagAsset_Inv.
  - by eapply unflagAsset_Inv.
  - by eapply requestRefund_Inv.
  - unfold addScanner in Hd. apply bind_inr in Hd.
    destruct Hd as (? & s2 & ? & ? & H1 & H2 & ->). unfold onlyRole in H1. minv.
    by eapply grantRole_Inv.
  - unfold addNGO in Hd. apply bind_inr in Hd.
    destruct Hd as (? & s2 & ? & ? & H1 & H2 & ->). unfold onlyRole in H1. minv.
    by eapply grantRole_Inv.
  - unfold updateMinScans in Hd. minv. by apply Inv_with_minScans.
  - by eapply grantRole_Inv.
  - unfold revokeRole in Hd. apply bind_inr in Hd.
    destruct Hd as (? & s2 & ? & ? & H1 & H2 & ->). unfold onlyRole in H1. minv.
    by eapply _revokeRole_Inv.
  - unfold renounceRole in Hd. apply bind_inr in Hd.
    destruct Hd as (? & s2 & ? & ? & H1 & H2 & ->). minv.
    by eapply _revokeRole_Inv.
  - by eapply emergencyWithdraw_Inv.
  - unfold receive in Hd. minv.
Qed.

Lemma deployed_storage_Inv : Inv deployed_storage.
Proof.
  split.
  - intros id. unfold asset, milestones. cbn. rewrite !lookup_empty. cbn.
    split; cbn; try lia; try done.
  - reflexivity.
  - unfold escrow_total. cbn. rewrite escrow_sum_empty. lia.
Qed.

Lemma _setRoleAdmin_inr r adminRole s u s' t :
  _setRoleAdmin r adminRole s = inr (u, s', t) → s' = s.
Proof. intros H. unfold _setRoleAdmin in H. by minv. Qed.

(** A deployment is two checks and three grants; the role administrators
    it records leave the state as it is. *)
Lemma constructor_inr env admin auditor s t :
  constructor env admin auditor deployed_storage = inr (tt, s, t) →
  admin ≠ 0 ∧ auditor ≠ 0
  ∧ ∃ s1 s2 t1 t2 t3,
      _grantRole env DEFAULT_ADMIN_ROLE admin deployed_storage = inr (tt, s1, t1)
      ∧ _grantRole env ADMIN_ROLE admin s1 = inr (tt, s2, t2)
      ∧ _grantRole env AUDITOR_ROLE auditor s2 = inr (tt, s, t3).
Proof.
  intros H. unfold constructor in H.
  apply bind_inr in H. destruct H as (? & s1 & ? & ? & H1 & H & ->).
  apply bind_inr in H. destruct H as (? & s2 & ? & ? & H2 & H & ->).
  apply bind_inr in H. destruct H as ([] & s3 & ? & ? & H3 & H & ->).
  apply bind_inr in H. destruct H as ([] & s4 & ? & ? & H4 & H & ->).
  apply bind_inr in H. destruct H as ([] & s5 & ? & ? & H5 & H & ->).
  apply bind_inr in H. destruct H as (? & s6 & ? & ? & H6 & H & ->).
  apply bind_inr in H. destruct H as (? & s7 & ? & ? & H7 & H8 & ->).
  apply _setRoleAdmin_inr in H6, H7, H8. subst s6 s7 s.
  apply require_inr in H1, H2. destruct H1 as (Ha & -> & _), H2 as (Hb & -> & _).
  apply negb_true_iff, Z.eqb_neq in Ha, Hb.
  split; [exact Ha|]. split; [exact Hb|]. eexists s3, s4, _, _, _. eauto.
Qed.

Lemma constructor_Inv env admin auditor s t :
  constructor env admin auditor deployed_storage = inr (tt, s, t) → Inv s.
Proof.
  intros H. apply constructor_inr in H.
  destruct H as (_ & _ & s1 & s2 & t1 & t2 & t3 & H3 & H4 & H5).
  eapply _grantRole_Inv; [|exact H5].
  eapply _grantRole_Inv; [|exact H4].
  eapply _grantRole_Inv; [|exact H3].
  apply deployed_storage_Inv.
Qed.

Lemma reaches_Inv allowed s : reaches allowed s → Inv s.
Proof.
  induction 1 as [env admin auditor s t Henv Hc|env c s s' t Hr IH Henv Hc Hal Hx].
  - by eapply constructor_Inv.
  - by eapply exec_Inv.
Qed.

(** ** What the release loop leaves alone *)

Lemma set_releasedFunds_id a : set_releasedFunds (releasedFunds a) a = a.
Proof. by destruct a. Qed.

Lemma round_frame_refl id s : round_frame id s s.
Proof. split; try done. by rewrite set_releasedFunds_id. Qed.

Lemma round_frame_round id i s0 s :
  round_frame id s0 s → round_frame id s0 (release_round id i s).1.
Proof.
  intros [OA OM HH AA RR MS RO EN GAP]. unfold release_round.
  destruct (milestones s id !! i) as [m|] eqn:Hm; [|by split].
  destruct (due s (asset s id) m && (0 <? release_amount (asset s id) m)) eqn:Hfire;
    [|by split].
  apply andb_prop in Hfire. destruct Hfire as [_ Hpos]. apply Z.ltb_lt in Hpos.
  cbn [fst]. split.
  - intros id' Hne. obs. by apply OA.
  - intros id' Hne. obs. by apply OM.
  - intros id'. obs. apply HH.
  - obs. rewrite AA. reflexivity.
  - obs. lia.
  - obs. exact MS.
  - intros r a. obs. apply RO.
  - obs. exact EN.
  - obs. lia.
Qed.

Lemma round_frame_rounds id l s : round_frame id s (release_rounds id l s).1.
Proof.
  apply (release_rounds_keeps id (round_frame id s)).
  - intros i s1. apply round_frame_round.
  - apply round_frame_refl.
Qed.

(** ** Scans *)

(** A scan that does not revert passed its three guards, recorded the scan
    and then ran the release loop. *)
Lemma scanAsset_inr env id geo st photo note s u s' t :
  scanAsset env id geo st photo note s = inr (u, s', t) →
  hasRole s SCANNER_ROLE (msg_sender env) = true
  ∧ donor (asset s id) ≠ 0
  ∧ isFlagged (asset s id) = false
  ∧ scansCount (asset s id) + 1 ≤ MAX_UINT256
  ∧ (0 ≤ balance s → 0 ≤ balance s')
  ∧ ∃ t2,
      (s', t2) = release_rounds id (seq 0 (length (milestones s id)))
                   (scanned env id geo st photo note s)
      ∧ t = scan_effects env id geo st (anomaly (asset s id) geo st photo) ++ t2.
Proof.
  intros H. unfold scanAsset in H. minv.
  all: tests_to_props.
  all: match goal with
       | H : _checkAndReleaseMilestone _ _ _ = inr _ |- _ =>
           apply _checkAndReleaseMilestone_inr in H; destruct H as [H Hbal];
           revert H Hbal; obs; intros H Hbal
       end.
  all: obs_hyps.
  all: match goal with
       | H : (if _ then _ else _) = ?b |- hasRole ?s0 _ _ = _ ∧ _ =>
           assert (Hflag : anomaly (asset s0 id) geo st photo = b)
             by (unfold anomaly, regression, stale_location, missing_proof;
                 destruct (stage_lt st (currentStage (asset s0 id))),
                   (String.eqb (currentGeoTag (asset s0 id)) geo),
                   (stage_eq st (currentStage (asset s0 id))),
                   (stage_eq st Hub), (stage_eq st Beneficiary), (photo =? 0);
                 cbn in *; congruence);
           clear H
       end.
  all: unfold scanned; rewrite Hflag.
  all: repeat split; try done; try lia.
  all: eexists; split; [eassumption|].
  all: unfold scan_effects; cbn; reflexivity.
Qed.

(** ** Running a computation forward *)

Lemma bind_intro {A B : Type} (m : M A) (k : A → M B) s a s1 t1 b s2 t2 :
  m s = inr (a, s1, t1) → k a s1 = inr (b, s2, t2) → bind m k s = inr (b, s2, t1 ++ t2).
Proof. intros Hm Hk. unfold bind. rewrite Hm, Hk. reflexivity. Qed.

Lemma require_ok b e s : b = true → require b e s = inr (tt, s, []).
Proof. intros ->. reflexivity. Qed.

Lemma safe_add_ok a b s : a + b ≤ MAX_UINT256 → safe_add a b s = inr (a + b, s, []).
Proof. intros H. unfold safe_add. apply Z.leb_le in H. rewrite H. reflexivity. Qed.

Lemma safe_sub_ok a b s : b ≤ a → safe_sub a b s = inr (a - b, s, []).
Proof. intros H. unfold safe_sub. apply Z.leb_le in H. rewrite H. reflexivity. Qed.

Lemma safe_mul_ok a b s : a * b ≤ MAX_UINT256 → safe_mul a b s = inr (a * b, s, []).
Proof. intros H. unfold safe_mul. apply Z.leb_le in H. rewrite H. reflexivity. Qed.

Lemma safe_div_ok a b s : b ≠ 0 → safe_div a b s = inr (a / b, s, []).
Proof. intros H. unfold safe_div. apply Z.eqb_neq in H. rewrite H. reflexivity. Qed.

Lemma call_value_ok env r v s :
  v ≤ balance s → accepts env r v = true →
  call_value env r v s = inr (true, with_balance (balance s - v) s, [ETransfer r v]).
Proof.
  intros Hb Ha. unfold call_value. apply Z.leb_le in Hb. rewrite Hb, Ha. reflexivity.
Qed.

Lemma call_value_rejected env r v s :
  (v <=? balance s) && accepts env r v = false →
  call_value env r v s = inr (false, s, []).
Proof. intros H. unfold call_value. rewrite H. reflexivity. Qed.

(** Side conditions of a forward step: observations are normalised, tests
    are read as propositions, and arithmetic closes the goal. *)
Ltac side :=
  obs; tests_to_props;
  first [ assumption | reflexivity | lia | congruence
        | apply negb_true_iff; first [assumption | apply Z.eqb_neq; first [assumption|lia]]
        | apply Z.ltb_lt; lia | apply Z.leb_le; lia | apply Z.eqb_eq; lia
        | apply Z.ltb_ge; lia | apply Z.leb_gt; lia | apply Z.eqb_neq; lia ].

Ltac fwd_step :=
  lazymatch goal with
  | |- bind _ _ _ = inr _ => eapply bind_intro; [|cbn beta]
  | |- ret _ _ = inr _ => reflexivity
  | |- sload _ _ = inr _ => reflexivity
  | |- sstore _ _ _ = inr _ => reflexivity
  | |- emit _ _ = inr _ => reflexivity
  | |- receive_value _ _ = inr _ => reflexivity
  | |- require _ _ _ = inr _ => apply require_ok; side
  | |- safe_add _ _ _ = inr _ => apply safe_add_ok; side
  | |- safe_sub _ _ _ = inr _ => apply safe_sub_ok; side
  | |- safe_mul _ _ _ = inr _ => apply safe_mul_ok; side
  | |- safe_div _ _ _ = inr _ => apply safe_div_ok; side
  | |- call_value _ _ _ _ = inr _ => apply call_value_ok; side
  | |- onlyRole _ _ _ = inr _ => unfold onlyRole
  | |- assetExists _ _ = inr _ => unfold assetExists
  | |- notFlagged _ _ = inr _ => unfold notFlagged
  | |- nonReentrant _ _ = inr _ => unfold nonReentrant
  end.

Ltac fwd := repeat fwd_step.

Lemma for_each_release_ok env id l s :
  rounds_ok env id l s →
  for_each l (release_milestone env id) s =
    inr (tt, (release_rounds id l s).1, (release_rounds id l s).2).
Proof.
  revert s. induction l as [|i l IH]; intros s Hok; cbn; [reflexivity|].
  destruct Hok as [(m & Hm & Hcond) Hrest].
  pose proof (release_milestone_ok env id i s m Hm Hcond) as H1.
  specialize (IH _ Hrest).
  destruct (release_round id i s) as [s1 t1]. cbn [fst snd] in *.
  destruct (release_rounds id l s1) as [s2 t2]. cbn [fst snd] in *.
  exact (bind_intro _ _ _ _ _ _ _ _ _ H1 IH).
Qed.

Lemma _checkAndReleaseMilestone_ok env id s :
  rounds_ok env id (seq 0 (length (milestones s id))) s →
  _checkAndReleaseMilestone env id s =
    inr (tt, (release_rounds id (seq 0 (length (milestones s id))) s).1,
         (release_rounds id (seq 0 (length (milestones s id))) s).2).
Proof.
  intros Hok. unfold _checkAndReleaseMilestone, bind, sload.
  rewrite for_each_release_ok by done. reflexivity.
Qed.

Lemma anomaly_code a geo st photo :
  (if (stage_eq st Hub || stage_eq st Beneficiary) && (photo =? 0) then true
   else if String.eqb (currentGeoTag a) geo && negb (stage_eq st (currentStage a))
        then true
        else if stage_lt st (currentStage a) then true else false)
  = anomaly a geo st photo.
Proof.
  unfold anomaly, regression, stale_location, missing_proof.
  destruct (stage_lt st (currentStage a)), (String.eqb (currentGeoTag a) geo),
    (stage_eq st (currentStage a)), (stage_eq st Hub), (stage_eq st Beneficiary),
    (photo =? 0); reflexivity.
Qed.

Lemma milestones_scanned env id geo st photo note s id' :
  milestones (scanned env id geo st photo note s) id' = milestones s id'.
Proof. unfold scanned. destruct (anomaly _ _ _ _); by obs. Qed.

Lemma scanAsset_ok env id geo st photo note s :
  hasRole s SCANNER_ROLE (msg_sender env) = true →
  donor (asset s id) ≠ 0 →
  isFlagged (asset s id) = false →
  scansCount (asset s id) + 1 ≤ MAX_UINT256 →
  rounds_ok env id (seq 0 (length (milestones s id))) (scanned env id geo st photo note s) →
  ∃ s' t, scanAsset env id geo st photo note s = inr (tt, s', t).
Proof.
  intros Hrole Hex Hfl Hcnt Hrounds. revert Hrounds. unfold scanned.
  destruct (anomaly (asset s id) geo st photo) eqn:Hflag; intros Hrounds.
  all: do 2 eexists; unfold scanAsset; fwd.
  all: rewrite ?anomaly_code, ?Hflag; fwd.
  all: apply _checkAndReleaseMilestone_ok; revert Hrounds; obs; done.
Qed.

(** ** Runs *)

Lemma reaches_step_total allowed env c s :
  reaches allowed s → wf_env env → wf_call c → allowed c = true →
  reaches allowed (step env c s).
Proof.
  intros Hs Henv Hc Hal. unfold step.
  destruct (exec env c s) as [e|[s' t]] eqn:Hx; [done|].
  by eapply reaches_step.
Qed.

Lemma reaches_run allowed txs s :
  reaches allowed s → Forall (wf_tx allowed) txs → reaches allowed (run txs s).
Proof.
  intros Hs Htxs. revert s Hs.
  induction Htxs as [|[env c] txs (Henv & Hc & Hal) _ IH]; intros s Hs; cbn; [done|].
  apply IH. by apply reaches_step_total.
Qed.

Lemma _grantRole_total env r a s : ∃ s' t, _grantRole env r a s = inr (tt, s', t).
Proof.
  unfold _grantRole, bind, sload. destruct (hasRole s r a); cbn; eauto.
Qed.

Lemma constructor_total env admin auditor :
  admin ≠ 0 → auditor ≠ 0 →
  ∃ s t, constructor env admin auditor deployed_storage = inr (tt, s, t).
Proof.
  intros Ha Hb. unfold constructor.
  destruct (_grantRole_total env DEFAULT_ADMIN_ROLE admin deployed_storage)
    as (s1 & t1 & H1).
  destruct (_grantRole_total env ADMIN_ROLE admin s1) as (s2 & t2 & H2).
  destruct (_grantRole_total env AUDITOR_ROLE auditor s2) as (s3 & t3 & H3).
  do 2 eexists. fwd; first [eassumption | reflexivity].
Qed.

Lemma reaches_deploy_total allowed env admin auditor :
  wf_env env → admin ≠ 0 → auditor ≠ 0 → reaches allowed (deploy env admin auditor).
Proof.
  intros Henv Ha Hb. unfold deploy.
  destruct (constructor_total env admin auditor Ha Hb) as (s & t & Hc).
  rewrite Hc. by eapply reaches_deploy.
Qed.

(** *** A worked scenario

    An administrator (1) and an auditor (2) deploy the ledger and register
    the NGO 50 and the scanner 60; the donor 10 funds asset 7 with 1000. *)
Ltac wf_txs :=
  repeat first
    [ apply Forall_nil_2
    | apply Forall_cons_2;
      [ unfold wf_tx, wf_env, wf_call, MAX_UINT256; cbn; repeat split; lia | ] ].

Lemma genesis_reachable allowed : reaches allowed genesis.
Proof.
  apply reaches_deploy_total; [|done|done].
  unfold wf_env. cbn. lia.
Qed.

Lemma at_hub_reachable allowed :
  (∀ c, allowed c = true) → reaches allowed at_hub.
Proof.
  intros Hall. apply reaches_run; [apply genesis_reachable|].
  repeat first
    [ apply Forall_nil_2
    | apply Forall_cons_2;
      [ unfold wf_tx, wf_env, wf_call, MAX_UINT256; cbn; repeat split;
        first [lia | apply Hall] | ] ].
Qed.

(** ** C1: released funds never exceed allocated funds *)

(** C1. In every reachable state every asset has
    [releasedFunds <= allocatedFunds], and every successful transaction from
    a reachable state (in particular [initAsset], the milestone release of
    [scanAsset], [manualReleaseFunds] and [requestRefund]) leads to a state
    where the inequality still holds for every asset. *)
Theorem released_le_allocated s :
  reachable s →
  (∀ id, releasedFunds (asset s id) ≤ allocatedFunds (asset s id))
  ∧ (∀ env c s' t,
       wf_env env → wf_call c → exec env c s = inr (s', t) →
       ∀ id, releasedFunds (asset s' id) ≤ allocatedFunds (asset s' id)).
Proof.
  intros Hs. split.
  - intros id. apply reaches_Inv in Hs. destruct (inv_assets s Hs id) as [B _ _ _ _ _]. lia.
  - intros env c s' t Henv Hc Hx id.
    assert (Hs' : Inv s') by (eapply exec_Inv; [done|done|by eapply reaches_Inv|done]).
    destruct (inv_assets s' Hs' id) as [B _ _ _ _ _]. lia.
Qed.

Lemma released_le_allocated_witness :
  (∀ id, releasedFunds (asset (run (fund 1000 ++ [to_hub]) genesis) id)
         ≤ allocatedFunds (asset (run (fund 1000 ++ [to_hub]) genesis) id))
  ∧ (∀ env c s' t,
       wf_env env → wf_call c →
       exec env c (run (fund 1000 ++ [to_hub]) genesis) = inr (s', t) →
       ∀ id, releasedFunds (asset s' id) ≤ allocatedFunds (asset s' id)).
Proof.
  apply (released_le_allocated (run (fund 1000 ++ [to_hub]) genesis)).
  apply reaches_run; [apply genesis_reachable|]. wf_txs.
Defined.

(** ** C4: the anomaly flag of a scan *)

Lemma stage_eq_true a b : stage_eq a b = true ↔ a = b.
Proof.
  unfold stage_eq. rewrite Z.eqb_eq. split; [|by intros ->].
  destruct a, b; cbn; intros; (done || lia).
Qed.

Lemma stage_lt_true a b : stage_lt a b = true ↔ stage_index a < stage_index b.
Proof. unfold stage_lt. apply Z.ltb_lt. Qed.

(** The three conditions of the detector, as propositions. *)
Lemma anomaly_true a geo st photo :
  anomaly a geo st photo = true ↔
    stage_index st < stage_index (currentStage a)
    ∨ (geo = currentGeoTag a ∧ st ≠ currentStage a)
    ∨ ((st = Hub ∨ st = Beneficiary) ∧ photo = 0).
Proof.
  unfold anomaly, regression, stale_location, missing_proof.
  rewrite !orb_true_iff, !andb_true_iff, !orb_true_iff, negb_true_iff.
  rewrite stage_lt_true, !stage_eq_true, String.eqb_eq, Z.eqb_eq.
  rewrite <- (not_true_iff_false (stage_eq _ _)), stage_eq_true.
  split; intros H; intuition (subst; auto).
Qed.

Lemma asset_scanned env id geo st photo note s :
  asset (scanned env id geo st photo note s) id =
    set_currentStage st
      (set_currentGeoTag geo
         (set_scansCount (scansCount (asset s id) + 1)
            (if anomaly (asset s id) geo st photo
             then set_isFlagged true (asset s id)
             else asset s id))).
Proof. unfold scanned. destruct (anomaly _ _ _ _); by obs. Qed.

Lemma asset_scanned_ne env id geo st photo note s id' :
  id' ≠ id → asset (scanned env id geo st photo note s) id' = asset s id'.
Proof. intros Hne. unfold scanned. destruct (anomaly _ _ _ _); by obs. Qed.

Lemma history_scanned env id geo st photo note s :
  history (scanned env id geo st photo note s) id =
    history s id
    ++ [scan_entry env geo st photo (anomaly (asset s id) geo st photo) note].
Proof. unfold scanned. destruct (anomaly _ _ _ _); by obs. Qed.

Lemma history_scanned_ne env id geo st photo note s id' :
  id' ≠ id → history (scanned env id geo st photo note s) id' = history s id'.
Proof. intros Hne. unfold scanned. destruct (anomaly _ _ _ _); by obs. Qed.

(** What a successful scan records, in terms of the detector [anomaly]. *)
Lemma scan_observed env id geo st photo note s s' t :
  exec env (ScanAsset id geo st photo note) s = inr (s', t) →
  history s' id =
    history s id
    ++ [mkScanLog (block_timestamp env) (msg_sender env) geo st photo
          (anomaly (asset s id) geo st photo) note]
  ∧ scansCount (asset s' id) = scansCount (asset s id) + 1
  ∧ currentGeoTag (asset s' id) = geo
  ∧ currentStage (asset s' id) = st
  ∧ isFlagged (asset s' id) = anomaly (asset s id) geo st photo
  ∧ In (EEmit (ScanLogged id (msg_sender env) st geo (anomaly (asset s id) geo st photo))) t.
Proof.
  intros H. unfold exec in H. cbn [dispatch] in H.
  destruct (scanAsset env id geo st photo note s) as [e|[[u s1] t1]] eqn:Hs; [done|].
  injection H as -> ->.
  apply scanAsset_inr in Hs.
  destruct Hs as (Hrole & Hex & Hfl & Hcnt & _ & t2 & Hr & ->).
  pose proof (round_frame_rounds id (seq 0 (length (milestones s id)))
                (scanned env id geo st photo note s)) as F.
  rewrite <- Hr in F. cbn [fst] in F. destruct F as [_ _ HH AA _ _ _ _ _].
  rewrite AA, HH, history_scanned, asset_scanned.
  destruct (anomaly (asset s id) geo st photo) eqn:Hflag; cbn.
  all: repeat split; auto 10.
Qed.

(** C4. For every successful scan, the anomaly flag is true iff the new
    stage is earlier than the current one, or the geo tag is unchanged while
    the stage differs, or the new stage is Hub or Beneficiary and the content
    hash is zero; whatever the flag, the scan count grows by one, geo tag and
    stage take the reported values, exactly one entry carrying the flag is
    appended to the history, and the asset is flagged iff the flag is set. *)
Theorem scan_records_anomaly env id geo st photo note s s' t :
  exec env (ScanAsset id geo st photo note) s = inr (s', t) →
  ∃ flag : bool,
    (flag = true ↔
       stage_index st < stage_index (currentStage (asset s id))
       ∨ (geo = currentGeoTag (asset s id) ∧ st ≠ currentStage (asset s id))
       ∨ ((st = Hub ∨ st = Beneficiary) ∧ photo = 0))
    ∧ history s' id =
        history s id
        ++ [mkScanLog (block_timestamp env) (msg_sender env) geo st photo flag note]
    ∧ scansCount (asset s' id) = scansCount (asset s id) + 1
    ∧ currentGeoTag (asset s' id) = geo
    ∧ currentStage (asset s' id) = st
    ∧ isFlagged (asset s' id) = flag
    ∧ In (EEmit (ScanLogged id (msg_sender env) st geo flag)) t.
Proof.
  intros H. exists (anomaly (asset s id) geo st photo).
  split; [apply anomaly_true|]. by apply scan_observed.
Qed.

Lemma scan_records_anomaly_witness :
  ∃ flag : bool,
    (flag = true ↔
       stage_index Hub < stage_index (currentStage (asset funded shipment))
       ∨ ("Hub B"%string = currentGeoTag (asset funded shipment)
          ∧ Hub ≠ currentStage (asset funded shipment))
       ∨ ((Hub = Hub ∨ Hub = Beneficiary) ∧ 0 = 0))
    ∧ history (run [unproven_scan] funded) shipment =
        history funded shipment ++ [mkScanLog 200 60 "Hub B" Hub 0 flag "no photo"]
    ∧ scansCount (asset (run [unproven_scan] funded) shipment)
      = scansCount (asset funded shipment) + 1
    ∧ currentGeoTag (asset (run [unproven_scan] funded) shipment) = "Hub B"%string
    ∧ currentStage (asset (run [unproven_scan] funded) shipment) = Hub
    ∧ isFlagged (asset (run [unproven_scan] funded) shipment) = flag
    ∧ In (EEmit (ScanLogged shipment 60 Hub "Hub B" flag))
         (effects_of unproven_scan.1 unproven_scan.2 funded).
Proof.
  apply (scan_records_anomaly unproven_scan.1 shipment "Hub B" Hub 0 "no photo" funded).
  vm_compute. reflexivity.
Defined.

(** The scan without a photo is recorded and flags the asset. *)
Example scan_without_photo :
  isFlagged (asset (run [unproven_scan] funded) shipment) = true
  ∧ scansCount (asset (run [unproven_scan] funded) shipment) = 2.
Proof. by vm_compute. Qed.

(** ** What a transaction leaves alone *)

(** Case analysis on a successful transaction: every call but a scan is
    executed symbolically; a scan is replaced by its summary. *)
Ltac exec_cases H :=
  let Hd := fresh "Hd" in
  unfold exec in H;
  match type of H with
  | match dispatch ?env ?c ?s with _ => _ end = _ =>
      destruct (dispatch env c s) as [?|[[? ?] ?]] eqn:Hd; [discriminate H|];
      injection H as -> ->; destruct c; cbn [dispatch] in Hd;
      [ unfold initAsset, _setupDefaultMilestones in Hd; minv
      | apply scanAsset_inr in Hd
      | unfold manualReleaseFunds in Hd; minv
      | unfold flagAsset in Hd; minv
      | unfold unflagAsset in Hd; minv
      | unfold requestRefund in Hd; minv
      | unfold addScanner, grantRole, _grantRole in Hd; minv
      | unfold addNGO, grantRole, _grantRole in Hd; minv
      | unfold updateMinScans in Hd; minv
      | unfold grantRole, _grantRole in Hd; minv
      | unfold revokeRole, _revokeRole in Hd; minv
      | unfold renounceRole, _revokeRole in Hd; minv
      | unfold emergencyWithdraw in Hd; minv
      | unfold receive in Hd; minv ]
  end.

(** After a scan summary: name its parts and the frame of the loop. *)
Ltac scan_frame Hd :=
  let F := fresh "F" in
  destruct Hd as (Hrole & Hex & Hfl & Hcnt & Hbal & t2 & Hr & ->);
  match type of Hr with
  | (_, _) = release_rounds ?id ?l ?s1 =>
      pose proof (round_frame_rounds id l s1) as F;
      rewrite <- Hr in F; cbn [fst] in F
  end.

Lemma exec_frame env c s s' t id :
  exec env c s = inr (s', t) → target c ≠ Some id →
  asset s' id = asset s id ∧ milestones s' id = milestones s id
  ∧ history s' id = history s id.
Proof.
  intros H Ht. exec_cases H; cbn [target] in Ht.
  all: try (assert (id ≠ id0) by congruence).
  all: try (by obs).
  scan_frame Hd. destruct F as [OA OM HH _ _ _ _ _ _].
  rewrite OA, OM, HH by done.
  rewrite asset_scanned_ne, milestones_scanned, history_scanned_ne by done. done.
Qed.

(** ** C5: a regression flags the asset and blocks scans *)

Lemma flag_persists env c s s' t id :
  exec env c s = inr (s', t) → is_unflag id c = false →
  isFlagged (asset s id) = true → isFlagged (asset s' id) = true.
Proof.
  intros H Hc Hf.
  destruct (decide (target c = Some id)) as [Ht|Ht];
    [|destruct (exec_frame _ _ _ _ _ id H Ht) as (-> & _); exact Hf].
  exec_cases H; cbn [target] in Ht; try discriminate Ht; injection Ht as ->.
  all: try (by obs).
  - scan_frame Hd. congruence.
  - cbn in Hc. by rewrite Z.eqb_refl in Hc.
Qed.

Lemma flag_persists_step env c s id :
  is_unflag id c = false →
  isFlagged (asset s id) = true → isFlagged (asset (step env c s) id) = true.
Proof.
  intros Hc Hf. unfold step. destruct (exec env c s) as [e|[s' t]] eqn:Hx; [done|].
  by eapply flag_persists.
Qed.

Lemma flag_persists_run txs s id :
  Forall (λ tx, is_unflag id tx.2 = false) txs →
  isFlagged (asset s id) = true → isFlagged (asset (run txs s) id) = true.
Proof.
  intros Htxs. revert s. induction Htxs as [|[env c] txs Hc _ IH]; intros s Hf; cbn; [done|].
  apply IH. by apply flag_persists_step.
Qed.

(** A scan of a flagged asset reverts: at the access check for a caller
    that is no scanner, at the flag check otherwise. *)
Lemma scanAsset_flagged env id geo st photo note s :
  donor (asset s id) ≠ 0 → isFlagged (asset s id) = true →
  scanAsset env id geo st photo note s =
    inl (if hasRole s SCANNER_ROLE (msg_sender env)
         then AssetIsFlagged else MissingRole SCANNER_ROLE).
Proof.
  intros Hd Hf. apply Z.eqb_neq in Hd.
  unfold scanAsset, onlyRole, assetExists, notFlagged.
  unfold bind at 1. unfold bind at 1. unfold sload at 1.
  destruct (hasRole s SCANNER_ROLE (msg_sender env)); cbn [require revert ret]; [|done].
  unfold bind at 1. unfold bind at 1. unfold sload at 1. rewrite Hd. cbn [negb require ret].
  unfold bind at 1. unfold bind at 1. unfold sload at 1. rewrite Hf. reflexivity.
Qed.

Lemma flagged_exists s id : Inv s → isFlagged (asset s id) = true → donor (asset s id) ≠ 0.
Proof.
  intros HI Hf Hd. destruct (inv_assets s HI id) as [_ A _ _ _ _].
  destruct (A Hd) as [Hz _]. rewrite Hz in Hf. discriminate.
Qed.

Lemma Inv_step env c s : wf_env env → wf_call c → Inv s → Inv (step env c s).
Proof.
  intros Henv Hc HI. unfold step. destruct (exec env c s) as [e|[s' t]] eqn:Hx; [done|].
  by eapply exec_Inv.
Qed.

Lemma Inv_run allowed txs s : Forall (wf_tx allowed) txs → Inv s → Inv (run txs s).
Proof.
  intros Htxs. revert s.
  induction Htxs as [|[env c] txs (Henv & Hc & _) _ IH]; intros s HI; cbn; [done|].
  apply IH. by apply Inv_step.
Qed.

(** A computation that fails does so in its first part or in what follows. *)
Lemma bind_inl {A B : Type} (m : M A) (k : A → M B) s e :
  bind m k s = inl e →
  m s = inl e ∨ ∃ a s1 t1, m s = inr (a, s1, t1) ∧ k a s1 = inl e.
Proof.
  unfold bind. destruct (m s) as [e'|[[a s1] t1]]; [intros [= ->]; by left|].
  destruct (k a s1) as [e'|[[b s2] t2]] eqn:Hk; [intros [= ->]|discriminate].
  right. by exists a, s1, t1.
Qed.

(** The errors of the checked arithmetic. *)
Lemma safe_add_inl a b s e : safe_add a b s = inl e → e = ArithmeticOverflow.
Proof. unfold safe_add. destruct (a + b <=? MAX_UINT256); unfold ret, revert; congruence. Qed.

Lemma safe_sub_inl a b s e : safe_sub a b s = inl e → e = ArithmeticOverflow.
Proof. unfold safe_sub. destruct (b <=? a); unfold ret, revert; congruence. Qed.

Lemma safe_mul_inl a b s e : safe_mul a b s = inl e → e = ArithmeticOverflow.
Proof. unfold safe_mul. destruct (a * b <=? MAX_UINT256); unfold ret, revert; congruence. Qed.

Lemma safe_div_inl a b s e : safe_div a b s = inl e → e = DivisionByZero.
Proof. unfold safe_div. destruct (b =? 0); unfold ret, revert; congruence. Qed.

Lemma require_inl b e0 s e : require b e0 s = inl e → e = e0.
Proof. destruct b; unfold require, ret, revert; congruence. Qed.

(** Where a sequence fails: in its first step, or later. *)
Ltac fail_step H :=
  apply bind_inl in H; destruct H as [H|(? & ? & ? & _ & H)].

(** The errors of one round of the release loop. *)
Lemma release_milestone_error env id i s e :
  release_milestone env id i s = inl e →
  e = IndexOutOfBounds ∨ e = ArithmeticOverflow ∨ e = DivisionByZero ∨ e = TransferFailed.
Proof.
  unfold release_milestone. intros H.
  fail_step H; [discriminate H|].
  destruct (_ !! i) as [m|]; [|injection H as <-; auto].
  fail_step H; [discriminate H|].
  fail_step H; [discriminate H|].
  destruct (_ && _); [|discriminate H].
  fail_step H; [apply safe_mul_inl in H; auto|].
  fail_step H; [apply safe_div_inl in H; auto|].
  fail_step H; [apply safe_add_inl in H; auto|].
  fail_step H.
  { destruct (_ <? _); [apply safe_sub_inl in H; auto|discriminate H]. }
  destruct (0 <? _); [|discriminate H].
  fail_step H; [discriminate H|].
  fail_step H; [apply safe_add_inl in H; auto|].
  fail_step H; [discriminate H|].
  fail_step H; [unfold call_value in H; by destruct (_ && _)|].
  fail_step H; [apply require_inl in H; auto|].
  fail_step H; [discriminate H|].
  fail_step H; [apply safe_add_inl in H; auto|].
  fail_step H; [discriminate H|].
  fail_step H; [discriminate H|].
  fail_step H; [apply safe_add_inl in H; auto|].
  fail_step H; [discriminate H|].
  fail_step H; [discriminate H|].
  discriminate H.
Qed.

Lemma for_each_release_error env id l s e :
  for_each l (release_milestone env id) s = inl e →
  e = IndexOutOfBounds ∨ e = ArithmeticOverflow ∨ e = DivisionByZero ∨ e = TransferFailed.
Proof.
  revert s. induction l as [|i l IH]; intros s H; cbn [for_each] in H; [discriminate H|].
  apply bind_inl in H. destruct H as [H|(? & s1 & ? & _ & H)].
  - by eapply release_milestone_error.
  - by eapply IH.
Qed.

(** A scan of an asset that is not flagged never fails at the flag check. *)
Lemma scan_error_unflagged env id geo st photo note s :
  isFlagged (asset s id) = false →
  exec env (ScanAsset id geo st photo note) s ≠ inl AssetIsFlagged.
Proof.
  intros Hf H. unfold exec in H. cbn [dispatch] in H.
  destruct (scanAsset env id geo st photo note s) as [e|[[[] s'] t']] eqn:Hs;
    [|discriminate H].
  injection H as ->. rename Hs into H. unfold scanAsset in H.
  apply bind_inl in H. destruct H as [H|(? & s1 & ? & H1 & H)].
  { unfold onlyRole in H. fail_step H; [discriminate H|]. by apply require_inl in H. }
  unfold onlyRole in H1. minv.
  apply bind_inl in H. destruct H as [H|(? & s1 & ? & H1 & H)].
  { unfold assetExists in H. fail_step H; [discriminate H|]. by apply require_inl in H. }
  unfold assetExists in H1. minv.
  apply bind_inl in H. destruct H as [H|(? & s1 & ? & H1 & H)].
  { unfold notFlagged, bind, sload in H. rewrite Hf in H. discriminate H. }
  unfold notFlagged in H1. minv.
  fail_step H; [discriminate H|].
  fail_step H.
  { match type of H with (if ?b then _ else _) _ = _ => destruct b end;
      [|discriminate H].
    fail_step H; discriminate H. }
  fail_step H; [discriminate H|].
  fail_step H; [by apply safe_add_inl in H|].
  repeat (fail_step H; [discriminate H|]).
  apply for_each_release_error in H. naive_solver.
Qed.

(** [unflagAsset] by an auditor clears the flag of an existing asset. *)
Lemma unflagAsset_ok env id s :
  hasRole s AUDITOR_ROLE (msg_sender env) = true → donor (asset s id) ≠ 0 →
  exec env (UnflagAsset id) s
  = inr (upd_asset id (set_isFlagged false) s,
         [EWrite (SIsFlagged id); EEmit (AssetUnflagged id (msg_sender env))]).
Proof.
  intros Hrole Hex. apply Z.eqb_neq in Hex. unfold exec. cbn [dispatch].
  unfold unflagAsset, onlyRole, assetExists, bind, sload, require, sstore, emit, ret.
  rewrite Hrole, Hex. reflexivity.
Qed.

(** C5. A successful scan whose new stage is earlier than the current stage
    leaves the asset flagged; as long as no [unflagAsset] of that asset is
    executed, the asset stays flagged and every scan of it reverts and
    changes nothing (with "Asset is flagged" for a caller holding the
    scanner role, whose access check comes first).  [unflagAsset] ends this:
    called by an auditor it succeeds, clears the flag and signals
    [AssetUnflagged], and from then on no scan of the asset fails at the
    flag check. *)
Theorem regression_flags_and_blocks env id geo st photo note s s1 t txs :
  reachable s →
  exec env (ScanAsset id geo st photo note) s = inr (s1, t) →
  stage_index st < stage_index (currentStage (asset s id)) →
  Forall (wf_tx (not_unflag id)) txs →
  isFlagged (asset s1 id) = true
  ∧ isFlagged (asset (run txs s1) id) = true
  ∧ (∀ env' geo' st' photo' note',
       exec env' (ScanAsset id geo' st' photo' note') (run txs s1) =
         inl (if hasRole (run txs s1) SCANNER_ROLE (msg_sender env')
              then AssetIsFlagged else MissingRole SCANNER_ROLE)
       ∧ step env' (ScanAsset id geo' st' photo' note') (run txs s1) = run txs s1)
  ∧ (∀ env' s2 t2,
       exec env' (UnflagAsset id) (run txs s1) = inr (s2, t2) →
       isFlagged (asset s2 id) = false)
  ∧ (∀ env',
       hasRole (run txs s1) AUDITOR_ROLE (msg_sender env') = true →
       ∃ s2,
         exec env' (UnflagAsset id) (run txs s1)
         = inr (s2, [EWrite (SIsFlagged id); EEmit (AssetUnflagged id (msg_sender env'))])
         ∧ isFlagged (asset s2 id) = false
         ∧ (∀ env'' geo' st' photo' note',
              exec env'' (ScanAsset id geo' st' photo' note') s2 ≠ inl AssetIsFlagged)).
Proof.
  intros Hs Hx Hreg Htxs.
  assert (HI1 : Inv s1).
  { apply reaches_Inv in Hs. unfold exec in Hx. cbn [dispatch] in Hx.
    destruct (scanAsset env id geo st photo note s) as [e|[[u s'] t']] eqn:Hsc; [done|].
    injection Hx as -> ->. by eapply scanAsset_Inv. }
  assert (Hf1 : isFlagged (asset s1 id) = true).
  { destruct (scan_observed _ _ _ _ _ _ _ _ _ Hx) as (_ & _ & _ & _ & -> & _).
    apply anomaly_true. by left. }
  assert (Hf2 : isFlagged (asset (run txs s1) id) = true).
  { apply flag_persists_run; [|done].
    eapply Forall_impl; [exact Htxs|]. intros [e c] (_ & _ & Hc). cbn in *.
    unfold not_unflag in Hc. by apply negb_true_iff in Hc. }
  assert (HI2 : Inv (run txs s1)) by (by eapply Inv_run).
  split; [done|]. split; [done|]. split; [|split].
  - intros env' geo' st' photo' note'. split.
    + unfold exec. cbn [dispatch].
      rewrite scanAsset_flagged; [done|by apply flagged_exists|done].
    + unfold step, exec. cbn [dispatch].
      rewrite scanAsset_flagged; [done|by apply flagged_exists|done].
  - intros env' s2 t2 Hu. unfold exec in Hu. cbn [dispatch] in Hu.
    destruct (unflagAsset env' id (run txs s1)) as [e|[[u s'] t']] eqn:Hd; [done|].
    injection Hu as -> ->. unfold unflagAsset in Hd. minv. by obs.
  - intros env' Hrole. eexists. split.
    + apply unflagAsset_ok; [exact Hrole|by apply flagged_exists].
    + split; [by obs|]. intros env'' geo' st' photo' note'.
      apply scan_error_unflagged. by obs.
Qed.

Lemma regression_flags_and_blocks_witness :
  isFlagged (asset sent_back shipment) = true
  ∧ isFlagged (asset (run [audit_flag] sent_back) shipment) = true
  ∧ (∀ env' geo' st' photo' note',
       exec env' (ScanAsset shipment geo' st' photo' note') (run [audit_flag] sent_back) =
         inl (if hasRole (run [audit_flag] sent_back) SCANNER_ROLE (msg_sender env')
              then AssetIsFlagged else MissingRole SCANNER_ROLE)
       ∧ step env' (ScanAsset shipment geo' st' photo' note') (run [audit_flag] sent_back)
         = run [audit_flag] sent_back)
  ∧ (∀ env' s2 t2,
       exec env' (UnflagAsset shipment) (run [audit_flag] sent_back) = inr (s2, t2) →
       isFlagged (asset s2 shipment) = false)
  ∧ (∀ env',
       hasRole (run [audit_flag] sent_back) AUDITOR_ROLE (msg_sender env') = true →
       ∃ s2,
         exec env' (UnflagAsset shipment) (run [audit_flag] sent_back)
         = inr (s2, [EWrite (SIsFlagged shipment);
                     EEmit (AssetUnflagged shipment (msg_sender env'))])
         ∧ isFlagged (asset s2 shipment) = false
         ∧ (∀ env'' geo' st' photo' note',
              exec env'' (ScanAsset shipment geo' st' photo' note') s2
              ≠ inl AssetIsFlagged)).
Proof.
  apply (regression_flags_and_blocks back_scan.1 shipment "Depot A" Warehouse 5 "back"
           at_hub sent_back (effects_of back_scan.1 back_scan.2 at_hub) [audit_flag]).
  - by apply at_hub_reachable.
  - vm_compute. reflexivity.
  - vm_compute. reflexivity.
  - unfold audit_flag. wf_txs.
Defined.

(** The scenario to its end: the asset sent back to the warehouse is
    flagged and its next scan is refused; after the auditor's [unflagAsset]
    the same scan goes through and pays the Beneficiary milestone. *)
Example unflag_reopens_scans :
  isFlagged (asset sent_back shipment) = true
  ∧ exec to_beneficiary.1 to_beneficiary.2 sent_back = inl AssetIsFlagged
  ∧ isFlagged (asset (run [(auditor, UnflagAsset shipment)] sent_back) shipment) = false
  ∧ transfers (effects_of to_beneficiary.1 to_beneficiary.2
                 (run [(auditor, UnflagAsset shipment)] sent_back)) = [(50, 600)].
Proof. by vm_compute. Qed.

(** ** C6: a milestone is released and paid at most once *)

















Example payouts_of_the_delivery :
  milestone_payouts shipment Hub (run_effects delivery genesis) = 1%nat
  ∧ milestone_payouts shipment Beneficiary (run_effects delivery genesis) = 1%nat
  ∧ transfers (run_effects delivery genesis) = [(50, 400); (50, 600)].
Proof. vm_compute. auto. Qed.

(** ** C8: a refunded asset is frozen *)

(** Without headroom no round of the loop pays. *)
Lemma release_round_no_headroom id i s :
  allocatedFunds (asset s id) = releasedFunds (asset s id) →
  release_round id i s = (s, []).
Proof.
  intros Heq. unfold release_round. destruct (milestones s id !! i) as [m|]; [|done].
  assert (Hle : release_amount (asset s id) m ≤ 0)
    by (pose proof (release_amount_le (asset s id) m); lia).
  apply Z.ltb_ge in Hle. rewrite Hle. by rewrite andb_false_r.
Qed.

Lemma release_rounds_no_headroom id l s :
  allocatedFunds (asset s id) = releasedFunds (asset s id) →
  release_rounds id l s = (s, []).
Proof.
  intros Heq. induction l as [|i l IH]; cbn; [done|].
  rewrite release_round_no_headroom by done. by rewrite IH.
Qed.

Lemma transfers_app t1 t2 : transfers (t1 ++ t2) = transfers t1 ++ transfers t2.
Proof.
  induction t1 as [|e t1 IH]; cbn; [done|]. destruct e; cbn; by rewrite ?IH.
Qed.

Lemma transfers_scan_effects env id geo st flag :
  transfers (scan_effects env id geo st flag) = [].
Proof. unfold scan_effects. by destruct flag. Qed.

(** What a successful scan of an asset without headroom does. *)
Lemma scan_no_headroom env id geo st photo note s s' t :
  allocatedFunds (asset s id) = releasedFunds (asset s id) →
  exec env (ScanAsset id geo st photo note) s = inr (s', t) →
  s' = scanned env id geo st photo note s ∧ transfers t = [].
Proof.
  intros Heq H. unfold exec in H. cbn [dispatch] in H.
  destruct (scanAsset env id geo st photo note s) as [e|[[u s1] t1]] eqn:Hs; [done|].
  injection H as -> ->. apply scanAsset_inr in Hs.
  destruct Hs as (_ & _ & _ & _ & _ & t2 & Hr & ->).
  rewrite release_rounds_no_headroom in Hr
    by (rewrite asset_scanned; destruct (anomaly _ _ _ _); cbn; exact Heq).
  injection Hr as -> ->. by rewrite app_nil_r, transfers_scan_effects.
Qed.

Lemma refunded_exists s id : Inv s → isRefunded (asset s id) = true → donor (asset s id) ≠ 0.
Proof.
  intros HI Hf Hd. destruct (inv_assets s HI id) as [_ A _ _ _ _].
  destruct (A Hd) as [Hz _]. rewrite Hz in Hf. discriminate.
Qed.

(** No transaction moves the released funds, the milestone marks or the
    refund mark of a refunded asset. *)
Lemma refunded_frozen env c s s' t id :
  Inv s → isRefunded (asset s id) = true → exec env c s = inr (s', t) →
  releasedFunds (asset s' id) = releasedFunds (asset s id)
  ∧ milestones s' id = milestones s id
  ∧ isRefunded (asset s' id) = true.
Proof.
  intros HI Hf H.
  pose proof (refunded_exists s id HI Hf) as Hex.
  destruct (inv_assets s HI id) as [_ _ _ R _ _]. specialize (R Hf).
  destruct (decide (target c = Some id)) as [Ht|Ht];
    [|destruct (exec_frame _ _ _ _ _ id H Ht) as (-> & -> & _); done].
  destruct c; cbn [target] in Ht; try discriminate Ht; injection Ht as ->.
  - exfalso. unfold exec in H. cbn [dispatch] in H.
    destruct (initAsset _ _ _ _ _ _ _) as [e|[[u s1] t1]] eqn:Hd; [done|].
    unfold initAsset in Hd. minv. tests_to_props. obs_hyps. done.
  - destruct (scan_no_headroom _ _ _ _ _ _ _ _ _ R H) as [-> _].
    rewrite asset_scanned, milestones_scanned.
    destruct (anomaly _ _ _ _); cbn; done.
  - exfalso. unfold exec in H. cbn [dispatch] in H.
    destruct (manualReleaseFunds _ _ _ _ _) as [e|[[u s1] t1]] eqn:Hd; [done|].
    unfold manualReleaseFunds in Hd. minv. tests_to_props. obs_hyps. lia.
  - unfold exec in H. cbn [dispatch] in H.
    destruct (flagAsset _ _ _ _) as [e|[[u s1] t1]] eqn:Hd; [done|].
    injection H as -> ->. unfold flagAsset in Hd. minv. by obs.
  - unfold exec in H. cbn [dispatch] in H.
    destruct (unflagAsset _ _ _) as [e|[[u s1] t1]] eqn:Hd; [done|].
    injection H as -> ->. unfold unflagAsset in Hd. minv. by obs.
  - exfalso. unfold exec in H. cbn [dispatch] in H.
    destruct (requestRefund _ _ _) as [e|[[u s1] t1]] eqn:Hd; [done|].
    unfold requestRefund in Hd. minv; tests_to_props; obs_hyps; congruence.
Qed.

Lemma refunded_frozen_run allowed txs s id :
  Inv s → isRefunded (asset s id) = true → Forall (wf_tx allowed) txs →
  releasedFunds (asset (run txs s) id) = releasedFunds (asset s id)
  ∧ milestones (run txs s) id = milestones s id
  ∧ isRefunded (asset (run txs s) id) = true.
Proof.
  intros HI Hf Htxs. revert s HI Hf.
  induction Htxs as [|[env c] txs (Henv & Hc & _) _ IH]; intros s HI Hf; cbn; [done|].
  assert (Hstep : releasedFunds (asset (step env c s) id) = releasedFunds (asset s id)
                  ∧ milestones (step env c s) id = milestones s id
                  ∧ isRefunded (asset (step env c s) id) = true).
  { unfold step. destruct (exec env c s) as [e|[s' t]] eqn:Hx; [done|].
    by eapply refunded_frozen. }
  destruct Hstep as (Hr & Hm & Hf').
  destruct (IH (step env c s)) as (Hr2 & Hm2 & Hf2); [by apply Inv_step|done|].
  rewrite Hr2, Hm2, Hr, Hm. done.
Qed.

Lemma requestRefund_marks env id s s' t :
  exec env (RequestRefund id) s = inr (s', t) →
  isRefunded (asset s' id) = true
  ∧ allocatedFunds (asset s' id) = releasedFunds (asset s' id).
Proof.
  intros H. unfold exec in H. cbn [dispatch] in H.
  destruct (requestRefund _ _ _) as [e|[[u s1] t1]] eqn:Hd; [done|].
  injection H as -> ->. unfold requestRefund in Hd. minv; by obs.
Qed.

(** C8. After a successful refund of an asset (refund mark set, allocated
    funds equal to released funds), whatever transactions follow, the
    released funds and the milestone marks of that asset stay as the refund
    left them; in particular a later scan of the asset, when it succeeds,
    changes neither and transfers nothing. *)
Theorem refund_freezes_asset env id s s1 t txs :
  reachable s → wf_env env →
  exec env (RequestRefund id) s = inr (s1, t) →
  Forall (wf_tx (λ _, true)) txs →
  isRefunded (asset s1 id) = true
  ∧ allocatedFunds (asset s1 id) = releasedFunds (asset s1 id)
  ∧ releasedFunds (asset (run txs s1) id) = releasedFunds (asset s1 id)
  ∧ milestones (run txs s1) id = milestones s1 id
  ∧ (∀ env' geo st photo note s2 t2,
       exec env' (ScanAsset id geo st photo note) (run txs s1) = inr (s2, t2) →
       releasedFunds (asset s2 id) = releasedFunds (asset s1 id)
       ∧ milestones s2 id = milestones s1 id
       ∧ transfers t2 = []).
Proof.
  intros Hs Henv Hx Htxs.
  assert (HI1 : Inv s1)
    by (apply (exec_Inv env (RequestRefund id) s s1 t);
        [done|exact I|by eapply reaches_Inv|done]).
  destruct (requestRefund_marks _ _ _ _ _ Hx) as [Hf Heq].
  destruct (refunded_frozen_run _ txs s1 id HI1 Hf Htxs) as (Hr & Hm & Hf2).
  pose proof (Inv_run _ _ _ Htxs HI1) as HI2.
  repeat split; try done.
  - destruct (refunded_frozen _ _ _ _ _ id HI2 Hf2 H) as (-> & _ & _). done.
  - destruct (refunded_frozen _ _ _ _ _ id HI2 Hf2 H) as (_ & -> & _). done.
  - destruct (inv_assets _ HI2 id) as [_ _ _ R _ _].
    by destruct (scan_no_headroom _ _ _ _ _ _ _ _ _ (R Hf2) H).
Qed.

Lemma refund_freezes_asset_witness :
  isRefunded (asset refunded shipment) = true
  ∧ allocatedFunds (asset refunded shipment) = releasedFunds (asset refunded shipment)
  ∧ releasedFunds (asset (run [late_scan] refunded) shipment)
    = releasedFunds (asset refunded shipment)
  ∧ milestones (run [late_scan] refunded) shipment = milestones refunded shipment
  ∧ (∀ env' geo st photo note s2 t2,
       exec env' (ScanAsset shipment geo st photo note) (run [late_scan] refunded)
         = inr (s2, t2) →
       releasedFunds (asset s2 shipment) = releasedFunds (asset refunded shipment)
       ∧ milestones s2 shipment = milestones refunded shipment
       ∧ transfers t2 = []).
Proof.
  apply (refund_freezes_asset after_lock shipment at_hub refunded
           (effects_of after_lock (RequestRefund shipment) at_hub) [late_scan]).
  - by apply at_hub_reachable.
  - unfold wf_env. cbn. lia.
  - vm_compute. reflexivity.
  - unfold late_scan. wf_txs.
Defined.

(** The scan after the refund succeeds, and the funds stay at 400. *)
Example scan_after_refund :
  transfers (effects_of after_lock (RequestRefund shipment) at_hub) = [(10, 600)]
  ∧ ∃ s2 t2,
      exec late_scan.1 late_scan.2 refunded = inr (s2, t2)
      ∧ currentStage (asset s2 shipment) = Beneficiary
      ∧ allocatedFunds (asset s2 shipment) = 400
      ∧ releasedFunds (asset s2 shipment) = 400
      ∧ transfers t2 = [].
Proof. split; [by vm_compute|]. do 2 eexists. vm_compute. auto 10. Qed.

(** ** C7: allocated funds can be zero *)

(** Counterexample to C7: a reachable state with an existing asset whose
    allocated funds are zero, where [getAssetProgress] fails on the division. *)
Lemma allocated_zero_reachable :
  reachable refunded_early
  ∧ donor (asset refunded_early shipment) ≠ 0
  ∧ allocatedFunds (asset refunded_early shipment) = 0
  ∧ getAssetProgress shipment refunded_early = inl DivisionByZero.
Proof.
  split.
  - apply reaches_run; [apply genesis_reachable|]. wf_txs.
  - by vm_compute.
Qed.

Lemma getAssetProgress_div_zero id s :
  donor (asset s id) ≠ 0 →
  0 ≤ releasedFunds (asset s id) ≤ allocatedFunds (asset s id) →
  getAssetProgress id s = inl DivisionByZero ↔ allocatedFunds (asset s id) = 0.
Proof.
  intros Hd Hb. apply Z.eqb_neq in Hd.
  unfold getAssetProgress, assetExists, bind, sload, require, ret, safe_mul, safe_div.
  rewrite Hd. cbn [negb].
  destruct (releasedFunds (asset s id) * 100 <=? MAX_UINT256) eqn:Hmul.
  - destruct (Z.eqb_spec (allocatedFunds (asset s id)) 0) as [Hz|Hz]; cbn.
    + done.
    + split; [discriminate|done].
  - cbn. split; [discriminate|]. intros Hz.
    apply Z.leb_gt in Hmul. unfold MAX_UINT256 in Hmul. lia.
Qed.

(** C7, amended. For every existing asset in every reachable state the
    allocated funds are positive as long as the asset is not refunded; they
    are zero exactly when the asset was refunded before anything was released,
    and exactly then [getAssetProgress] fails on the division by zero. *)
Theorem allocated_zero_iff_refunded_unreleased s id :
  reachable s → donor (asset s id) ≠ 0 →
  (isRefunded (asset s id) = false → 0 < allocatedFunds (asset s id))
  ∧ (allocatedFunds (asset s id) = 0 ↔
       isRefunded (asset s id) = true ∧ releasedFunds (asset s id) = 0)
  ∧ (getAssetProgress id s = inl DivisionByZero ↔ allocatedFunds (asset s id) = 0).
Proof.
  intros Hs Hd. apply reaches_Inv in Hs.
  destruct (inv_assets s Hs id) as [B _ _ R F _].
  split; [by apply F|]. split.
  - split.
    + intros Hz. destruct (isRefunded (asset s id)) eqn:Hf; [split; [done|lia]|].
      specialize (F Hd eq_refl). lia.
    + intros [Hf Hr]. rewrite (R Hf). exact Hr.
  - apply getAssetProgress_div_zero; [done|lia].
Qed.

Lemma allocated_zero_iff_refunded_unreleased_witness :
  (isRefunded (asset at_hub shipment) = false → 0 < allocatedFunds (asset at_hub shipment))
  ∧ (allocatedFunds (asset at_hub shipment) = 0 ↔
       isRefunded (asset at_hub shipment) = true ∧ releasedFunds (asset at_hub shipment) = 0)
  ∧ (getAssetProgress shipment at_hub = inl DivisionByZero ↔
       allocatedFunds (asset at_hub shipment) = 0).
Proof.
  apply (allocated_zero_iff_refunded_unreleased at_hub shipment).
  - by apply at_hub_reachable.
  - vm_compute. discriminate.
Defined.

(** ** C3: refunds *)

Lemma bind_fail_intro {A B : Type} (m : M A) (k : A → M B) s e :
  m s = inl e → bind m k s = inl e.
Proof. unfold bind. intros ->. reflexivity. Qed.

Lemma bind_ok_fail {A B : Type} (m : M A) (k : A → M B) s a s1 t1 e :
  m s = inr (a, s1, t1) → k a s1 = inl e → bind m k s = inl e.
Proof. unfold bind. intros -> ->. reflexivity. Qed.

Lemma require_fail b e s : b = false → require b e s = inl e.
Proof. intros ->. reflexivity. Qed.

(** Rewrite the tests of the goal that a hypothesis decides. *)
Ltac use_tests :=
  obs;
  repeat match goal with
  | H : ?b = true |- context [?b] =>
      lazymatch b with true => fail | false => fail | _ => rewrite H end
  | H : ?b = false |- context [?b] =>
      lazymatch b with true => fail | false => fail | _ => rewrite H end
  end;
  cbn [negb andb orb].

(** Forward execution towards a success or towards a revert. *)
Ltac run_step :=
  lazymatch goal with
  | |- bind _ _ _ = inr _ => eapply bind_intro; [|cbn beta]
  | |- bind _ _ _ = inl _ =>
      first [ eapply bind_ok_fail; [solve [repeat run_step]|cbn beta]
            | apply bind_fail_intro ]
  | |- (if ?b then _ else _) _ = _ => progress use_tests
  | |- ret _ _ = inr _ => reflexivity
  | |- sload _ _ = inr _ => reflexivity
  | |- sstore _ _ _ = inr _ => reflexivity
  | |- emit _ _ = inr _ => reflexivity
  | |- receive_value _ _ = inr _ => reflexivity
  | |- revert _ _ = inl _ => reflexivity
  | |- require _ _ _ = inr _ => apply require_ok; use_tests; side
  | |- require _ _ _ = inl _ => apply require_fail; use_tests; side
  | |- safe_add _ _ _ = inr _ => apply safe_add_ok; side
  | |- safe_sub _ _ _ = inr _ => apply safe_sub_ok; side
  | |- safe_mul _ _ _ = inr _ => apply safe_mul_ok; side
  | |- safe_div _ _ _ = inr _ => apply safe_div_ok; side
  | |- call_value _ _ _ _ = inr (true, _, _) => apply call_value_ok; side
  | |- call_value _ _ _ _ = inr _ =>
      first [ apply call_value_ok; side | apply call_value_rejected; use_tests; side ]
  | |- onlyRole _ _ _ = _ => unfold onlyRole
  | |- assetExists _ _ = _ => unfold assetExists
  | |- notFlagged _ _ = _ => unfold notFlagged
  | |- nonReentrant _ _ = _ => unfold nonReentrant
  end.

Ltac run_all := repeat run_step.

Lemma lock_period_fits : 2 ^ 64 + REFUND_LOCK_PERIOD ≤ MAX_UINT256.
Proof. unfold REFUND_LOCK_PERIOD, MAX_UINT256. lia. Qed.

(** The errors of [requestRefund], check by check. *)
Lemma requestRefund_verdict env id s e :
  Inv s → refund_verdict env s id = Some e → requestRefund env id s = inl e.
Proof.
  intros HI Hv. pose proof (inv_guard s HI) as Hg.
  destruct (inv_assets s HI id) as [B _ _ _ _ T].
  pose proof lock_period_fits as Hfit.
  unfold refund_verdict in Hv.
  destruct (donor (asset s id) =? 0) eqn:Hd;
    [injection Hv as <-; unfold requestRefund; run_all|].
  destruct (donor (asset s id) =? msg_sender env) eqn:Hs; cbn [negb] in Hv;
    [|injection Hv as <-; unfold requestRefund; run_all].
  destruct (isRefunded (asset s id)) eqn:Hr;
    [injection Hv as <-; unfold requestRefund; run_all|].
  destruct (refund_eligible env (asset s id)) eqn:He; cbn [negb] in Hv.
  2: { injection Hv as <-. unfold refund_eligible in He.
       destruct (isFlagged (asset s id)) eqn:Hf; [done|]. cbn [orb] in He.
       unfold requestRefund; run_all. }
  destruct (allocatedFunds (asset s id) - releasedFunds (asset s id) <=? 0) eqn:Hz;
    [|discriminate].
  injection Hv as <-. unfold refund_eligible in He.
  destruct (isFlagged (asset s id)) eqn:Hf; cbn [orb] in He;
    unfold requestRefund; run_all.
Qed.

Lemma inr_by_parts {A : Type} (r : error + (A * State * list effect)) u s1 t1 s2 t2 :
  r = inr (u, s1, t1) → s1 = s2 → t1 = t2 → r = inr (u, s2, t2).
Proof. by intros -> -> ->. Qed.

(** Run to a success, then compare the state and the trace reached with the
    expected ones. *)
Ltac run_to :=
  eapply inr_by_parts; [run_all| |].

Lemma requestRefund_pass env id s :
  Inv s → refund_verdict env s id = None →
  requestRefund env id s =
    if (allocatedFunds (asset s id) - releasedFunds (asset s id) <=? balance s)
       && accepts env (donor (asset s id))
            (allocatedFunds (asset s id) - releasedFunds (asset s id))
    then inr (tt, refund_state id s, refund_effects env id s)
    else inl RefundTransferFailed.
Proof.
  intros HI Hv. pose proof (inv_guard s HI) as Hg.
  destruct (inv_assets s HI id) as [B _ _ _ _ T].
  pose proof lock_period_fits as Hfit.
  unfold refund_verdict in Hv.
  destruct (donor (asset s id) =? 0) eqn:Hd; [discriminate|].
  destruct (donor (asset s id) =? msg_sender env) eqn:Hs; [|discriminate].
  destruct (isRefunded (asset s id)) eqn:Hr; [discriminate|].
  destruct (refund_eligible env (asset s id)) eqn:He; [|discriminate].
  destruct (allocatedFunds (asset s id) - releasedFunds (asset s id) <=? 0) eqn:Hz;
    [discriminate|].
  cbn [negb] in Hv. clear Hv. unfold refund_eligible in He.
  destruct ((allocatedFunds (asset s id) - releasedFunds (asset s id) <=? balance s)
            && accepts env (donor (asset s id))
                 (allocatedFunds (asset s id) - releasedFunds (asset s id))) eqn:Hpay.
  - apply andb_prop in Hpay. destruct Hpay as [Hbal Hacc].
    destruct (isFlagged (asset s id)) eqn:Hf; cbn [orb] in He.
    all: unfold requestRefund, refund_state, refund_effects; run_to.
    all: obs; reflexivity.
  - destruct (isFlagged (asset s id)) eqn:Hf; cbn [orb] in He.
    all: unfold requestRefund; run_all.
Qed.

Lemma refund_verdict_None env s id :
  refund_verdict env s id = None ↔
    donor (asset s id) ≠ 0
    ∧ donor (asset s id) = msg_sender env
    ∧ isRefunded (asset s id) = false
    ∧ refund_eligible env (asset s id) = true
    ∧ 0 < allocatedFunds (asset s id) - releasedFunds (asset s id).
Proof.
  unfold refund_verdict.
  destruct (Z.eqb_spec (donor (asset s id)) 0) as [Hd|Hd]; [split; [done|tauto]|].
  destruct (Z.eqb_spec (donor (asset s id)) (msg_sender env)) as [Hs|Hs]; cbn [negb];
    [|split; [done|tauto]].
  destruct (isRefunded (asset s id)); [split; [done|intros (_ & _ & ? & _); done]|].
  destruct (refund_eligible env (asset s id)); cbn [negb];
    [|split; [done|intros (_ & _ & _ & ? & _); done]].
  destruct (Z.leb_spec (allocatedFunds (asset s id) - releasedFunds (asset s id)) 0).
  - split; [done|]. intros (_ & _ & _ & _ & ?). lia.
  - split; [|done]. intros _. repeat split; (done || lia).
Qed.

(** Counterexample to C3: the caller is the donor, the asset is not
    refunded, it is eligible (flagged) and 1000 remain, yet the refund fails:
    the donor rejects the transfer. *)
Lemma refund_fails_when_transfer_rejected :
  donor (asset flagged_early shipment) = msg_sender rejecting_donor
  ∧ isRefunded (asset flagged_early shipment) = false
  ∧ isFlagged (asset flagged_early shipment) = true
  ∧ allocatedFunds (asset flagged_early shipment)
    - releasedFunds (asset flagged_early shipment) = 1000
  ∧ exec rejecting_donor (RequestRefund shipment) flagged_early = inl RefundTransferFailed.
Proof. by vm_compute. Qed.

(** C3, amended. [requestRefund] succeeds iff the caller is the donor of an
    existing asset, the asset is not refunded, it is eligible (flagged, or
    past the lock period and before Beneficiary), a positive remainder is
    left, and the transfer of that remainder to the donor goes through.  The
    first check that fails decides the error (NotFound, NotTheDonor,
    AlreadyRefunded, NotEligible, NothingToRefund, in that order; a rejected
    transfer gives TransferFailed).  On success the asset is marked refunded,
    its allocated funds become its released funds, the other assets are
    untouched and exactly the remainder goes to the donor. *)
Theorem refund_outcome env id s :
  reachable s →
  ((∃ s' t, exec env (RequestRefund id) s = inr (s', t)) ↔
     donor (asset s id) ≠ 0
     ∧ donor (asset s id) = msg_sender env
     ∧ isRefunded (asset s id) = false
     ∧ (isFlagged (asset s id) = true
        ∨ (donorTimestamp (asset s id) + REFUND_LOCK_PERIOD < block_timestamp env
           ∧ stage_index (currentStage (asset s id)) < stage_index Beneficiary))
     ∧ 0 < allocatedFunds (asset s id) - releasedFunds (asset s id)
     ∧ allocatedFunds (asset s id) - releasedFunds (asset s id) ≤ balance s
     ∧ accepts env (donor (asset s id))
         (allocatedFunds (asset s id) - releasedFunds (asset s id)) = true)
  ∧ (∀ e, refund_verdict env s id = Some e → exec env (RequestRefund id) s = inl e)
  ∧ (refund_verdict env s id = None →
     (allocatedFunds (asset s id) - releasedFunds (asset s id) <=? balance s)
     && accepts env (donor (asset s id))
          (allocatedFunds (asset s id) - releasedFunds (asset s id)) = false →
     exec env (RequestRefund id) s = inl RefundTransferFailed)
  ∧ (∀ s' t, exec env (RequestRefund id) s = inr (s', t) →
       asset s' id = set_allocatedFunds (releasedFunds (asset s id))
                       (set_isRefunded true (asset s id))
       ∧ (∀ id', id' ≠ id → asset s' id' = asset s id')
       ∧ balance s' = balance s - (allocatedFunds (asset s id) - releasedFunds (asset s id))
       ∧ transfers t =
           [(donor (asset s id), allocatedFunds (asset s id) - releasedFunds (asset s id))]).
Proof.
  intros Hs. apply reaches_Inv in Hs.
  assert (Helig : refund_eligible env (asset s id) = true ↔
            isFlagged (asset s id) = true
            ∨ (donorTimestamp (asset s id) + REFUND_LOCK_PERIOD < block_timestamp env
               ∧ stage_index (currentStage (asset s id)) < stage_index Beneficiary)).
  { unfold refund_eligible.
    rewrite orb_true_iff, andb_true_iff, Z.ltb_lt, stage_lt_true. done. }
  assert (Hexec : exec env (RequestRefund id) s =
            match requestRefund env id s with
            | inl e => inl e
            | inr (_, s', t) => inr (s', t)
            end) by reflexivity.
  destruct (refund_verdict env s id) as [e|] eqn:Hv.
  - pose proof (requestRefund_verdict env id s e Hs Hv) as Hr.
    rewrite Hr in Hexec.
    assert (Hn : ¬ (refund_verdict env s id = None)) by congruence.
    rewrite refund_verdict_None, Helig in Hn.
    split; [|split; [|split]].
    + split; [intros (s' & t & H); congruence|]. intros H. exfalso. apply Hn. tauto.
    + intros e' [= <-]. done.
    + done.
    + intros s' t H. congruence.
  - pose proof (requestRefund_pass env id s Hs Hv) as Hr.
    apply refund_verdict_None in Hv. rewrite Helig in Hv.
    destruct ((allocatedFunds (asset s id) - releasedFunds (asset s id) <=? balance s)
              && accepts env (donor (asset s id))
                   (allocatedFunds (asset s id) - releasedFunds (asset s id))) eqn:Hpay;
      rewrite Hr in Hexec.
    + pose proof Hpay as Hpay'. apply andb_prop in Hpay'. destruct Hpay' as [Hb Ha].
      apply Z.leb_le in Hb.
      split; [|split; [|split]].
      * split; [tauto|eauto].
      * done.
      * done.
      * intros s' t H. rewrite Hexec in H. injection H as <- <-.
        unfold refund_state. split; [by obs|]. split; [intros id' Hne; by obs|].
        split; [by obs|done].
    + split; [|split; [|split]].
      * split; [intros (s' & t & H); congruence|].
        intros (_ & _ & _ & _ & _ & Hb & Ha). apply Z.leb_le in Hb.
        rewrite Hb, Ha in Hpay. done.
      * done.
      * done.
      * intros s' t H. congruence.
Qed.

Lemma refund_outcome_witness :
  ((∃ s' t, exec after_lock (RequestRefund shipment) at_hub = inr (s', t)) ↔
     donor (asset at_hub shipment) ≠ 0
     ∧ donor (asset at_hub shipment) = msg_sender after_lock
     ∧ isRefunded (asset at_hub shipment) = false
     ∧ (isFlagged (asset at_hub shipment) = true
        ∨ (donorTimestamp (asset at_hub shipment) + REFUND_LOCK_PERIOD
             < block_timestamp after_lock
           ∧ stage_index (currentStage (asset at_hub shipment)) < stage_index Beneficiary))
     ∧ 0 < allocatedFunds (asset at_hub shipment) - releasedFunds (asset at_hub shipment)
     ∧ allocatedFunds (asset at_hub shipment) - releasedFunds (asset at_hub shipment)
       ≤ balance at_hub
     ∧ accepts after_lock (donor (asset at_hub shipment))
         (allocatedFunds (asset at_hub shipment) - releasedFunds (asset at_hub shipment))
       = true)
  ∧ (∀ e, refund_verdict after_lock at_hub shipment = Some e →
          exec after_lock (RequestRefund shipment) at_hub = inl e)
  ∧ (refund_verdict after_lock at_hub shipment = None →
     (allocatedFunds (asset at_hub shipment) - releasedFunds (asset at_hub shipment)
        <=? balance at_hub)
     && accepts after_lock (donor (asset at_hub shipment))
          (allocatedFunds (asset at_hub shipment) - releasedFunds (asset at_hub shipment))
       = false →
     exec after_lock (RequestRefund shipment) at_hub = inl RefundTransferFailed)
  ∧ (∀ s' t, exec after_lock (RequestRefund shipment) at_hub = inr (s', t) →
       asset s' shipment = set_allocatedFunds (releasedFunds (asset at_hub shipment))
                             (set_isRefunded true (asset at_hub shipment))
       ∧ (∀ id', id' ≠ shipment → asset s' id' = asset at_hub id')
       ∧ balance s' = balance at_hub
                      - (allocatedFunds (asset at_hub shipment)
                         - releasedFunds (asset at_hub shipment))
       ∧ transfers t =
           [(donor (asset at_hub shipment),
             allocatedFunds (asset at_hub shipment)
             - releasedFunds (asset at_hub shipment))]).
Proof.
  apply (refund_outcome after_lock shipment at_hub).
  by apply at_hub_reachable.
Defined.

(** The refund of the scenario: 600 go back to the donor. *)
Example refund_of_the_scenario :
  refund_verdict after_lock at_hub shipment = None
  ∧ refund_verdict (platform 10 2592100) at_hub shipment = Some NotEligible
  ∧ refund_verdict (platform 11 2592101) at_hub shipment = Some NotTheDonor
  ∧ refund_verdict after_lock refunded shipment = Some AlreadyRefunded
  ∧ allocatedFunds (asset refunded shipment) = 400
  ∧ releasedFunds (asset refunded shipment) = 400
  ∧ isRefunded (asset refunded shipment) = true
  ∧ balance at_hub = 600 ∧ balance refunded = 0.
Proof. by vm_compute. Qed.

(** ** C10: the emergency withdrawal *)

Lemma escrow_total_scanned env id geo st photo note s :
  escrow_total (scanned env id geo st photo note s) = escrow_total s.
Proof.
  unfold scanned. destruct (anomaly _ _ _ _); obs; unfold escrow; cbn; lia.
Qed.

Lemma balance_scanned env id geo st photo note s :
  balance (scanned env id geo st photo note s) = balance s.
Proof. unfold scanned. destruct (anomaly _ _ _ _); by obs. Qed.

(** Every transaction but the emergency withdrawal moves the balance and
    the escrow total by the same amount. *)
Lemma exec_escrow_gap env c s s' t :
  Inv s → is_emergency c = false → exec env c s = inr (s', t) →
  escrow_total s' - balance s' = escrow_total s - balance s.
Proof.
  intros HI Hc H. exec_cases H; try discriminate Hc.
  all: try (by obs).
  all: try (obs; unfold escrow; cbn; lia).
  - tests_to_props. obs_hyps.
    destruct (inv_assets s HI id) as [_ A _ _ _ _].
    match goal with Hd : donor (asset s id) = 0 |- _ => destruct (A Hd) as [Hz _] end.
    obs. rewrite Hz. unfold escrow. cbn. lia.
  - scan_frame Hd. destruct F as [_ _ _ _ _ _ _ _ G].
    rewrite G, escrow_total_scanned, balance_scanned. done.
Qed.

(** Without an emergency withdrawal the balance is the escrow total. *)
Lemma escrowed_balance s : reaches not_emergency s → balance s = escrow_total s.
Proof.
  induction 1 as [env admin auditor s t Henv Hc|env c s s' t Hr IH Henv Hc Hal Hx].
  - apply constructor_inr in Hc.
    destruct Hc as (_ & _ & s1 & s2 & t1 & t2 & t3 & H3 & H4 & H5).
    unfold _grantRole in *. minv; obs; unfold escrow_total; cbn; by rewrite escrow_sum_empty.
  - assert (HI : Inv s) by (by eapply reaches_Inv).
    unfold not_emergency in Hal. apply negb_true_iff in Hal.
    pose proof (exec_escrow_gap _ _ _ _ _ HI Hal Hx). lia.
Qed.

Lemma emergencyWithdraw_inr env r s u s' t :
  emergencyWithdraw env r s = inr (u, s', t) →
  hasRole s DEFAULT_ADMIN_ROLE (msg_sender env) = true
  ∧ r ≠ 0 ∧ 0 < balance s ∧ accepts env r (balance s) = true
  ∧ s' = with_balance 0 s ∧ t = [ETransfer r (balance s)].
Proof.
  intros H. unfold emergencyWithdraw in H. minv. tests_to_props.
  rewrite Z.sub_diag. auto 10.
Qed.

Lemma emergencyWithdraw_ok env r s :
  hasRole s DEFAULT_ADMIN_ROLE (msg_sender env) = true →
  r ≠ 0 → 0 < balance s → accepts env r (balance s) = true →
  ∃ s' t, emergencyWithdraw env r s = inr (tt, s', t).
Proof.
  intros Hrole Hr Hb Ha. do 2 eexists. unfold emergencyWithdraw. run_all.
Qed.

(** C10. [emergencyWithdraw] succeeds exactly for a caller holding the
    default admin role, a non-zero recipient that accepts the value and a
    positive balance; it sends the whole balance to the recipient and changes
    nothing else: every asset, milestone list, scan history and platform total
    is as before.  The balance, which equals the escrow total as long as no
    emergency withdrawal has run, is zero afterwards while the escrow total is
    unchanged and positive. *)
Theorem emergency_withdraw_breaks_escrow env r s :
  reachable s →
  ((∃ s' t, exec env (EmergencyWithdraw r) s = inr (s', t)) ↔
     hasRole s DEFAULT_ADMIN_ROLE (msg_sender env) = true
     ∧ r ≠ 0 ∧ 0 < balance s ∧ accepts env r (balance s) = true)
  ∧ (reaches not_emergency s → balance s = escrow_total s)
  ∧ (∀ s' t, exec env (EmergencyWithdraw r) s = inr (s', t) →
       t = [ETransfer r (balance s)]
       ∧ balance s' = 0
       ∧ (∀ id, asset s' id = asset s id ∧ milestones s' id = milestones s id
                ∧ history s' id = history s id)
       ∧ totalAssetsTracked s' = totalAssetsTracked s
       ∧ totalFundsAllocated s' = totalFundsAllocated s
       ∧ totalFundsReleased s' = totalFundsReleased s
       ∧ escrow_total s' = escrow_total s
       ∧ balance s' < escrow_total s').
Proof.
  intros Hs. apply reaches_Inv in Hs.
  assert (Hexec : exec env (EmergencyWithdraw r) s =
            match emergencyWithdraw env r s with
            | inl e => inl e
            | inr (_, s', t) => inr (s', t)
            end) by reflexivity.
  split; [|split].
  - split.
    + intros (s' & t & H). rewrite Hexec in H.
      destruct (emergencyWithdraw env r s) as [e|[[u s1] t1]] eqn:Hw; [done|].
      apply emergencyWithdraw_inr in Hw. tauto.
    + intros (Hrole & Hr & Hb & Ha).
      destruct (emergencyWithdraw_ok env r s Hrole Hr Hb Ha) as (s' & t & Hw).
      rewrite Hexec, Hw. eauto.
  - apply escrowed_balance.
  - intros s' t H. rewrite Hexec in H.
    destruct (emergencyWithdraw env r s) as [e|[[u s1] t1]] eqn:Hw; [done|].
    injection H as -> ->. apply emergencyWithdraw_inr in Hw.
    destruct Hw as (_ & _ & Hb & _ & -> & ->).
    pose proof (inv_balance s Hs) as Hbal.
    repeat split; try done.
    change (escrow_total (with_balance 0 s)) with (escrow_total s).
    change (balance (with_balance 0 s)) with 0. lia.
Qed.

Lemma emergency_withdraw_breaks_escrow_witness :
  ((∃ s' t, exec administrator (EmergencyWithdraw 99) at_hub = inr (s', t)) ↔
     hasRole at_hub DEFAULT_ADMIN_ROLE (msg_sender administrator) = true
     ∧ 99 ≠ 0 ∧ 0 < balance at_hub ∧ accepts administrator 99 (balance at_hub) = true)
  ∧ (reaches not_emergency at_hub → balance at_hub = escrow_total at_hub)
  ∧ (∀ s' t, exec administrator (EmergencyWithdraw 99) at_hub = inr (s', t) →
       t = [ETransfer 99 (balance at_hub)]
       ∧ balance s' = 0
       ∧ (∀ id, asset s' id = asset at_hub id ∧ milestones s' id = milestones at_hub id
                ∧ history s' id = history at_hub id)
       ∧ totalAssetsTracked s' = totalAssetsTracked at_hub
       ∧ totalFundsAllocated s' = totalFundsAllocated at_hub
       ∧ totalFundsReleased s' = totalFundsReleased at_hub
       ∧ escrow_total s' = escrow_total at_hub
       ∧ balance s' < escrow_total s').
Proof.
  apply (emergency_withdraw_breaks_escrow administrator 99 at_hub).
  by apply at_hub_reachable.
Defined.

(** At the hub 600 are in escrow and held; after the withdrawal the escrow
    is still 600 and nothing is held, so the next milestone cannot be paid. *)
Example withdrawal_of_the_scenario :
  balance at_hub = 600 ∧ escrow_total at_hub = 600
  ∧ balance (step administrator (EmergencyWithdraw 99) at_hub) = 0
  ∧ escrow_total (step administrator (EmergencyWithdraw 99) at_hub) = 600
  ∧ transfers (effects_of administrator (EmergencyWithdraw 99) at_hub) = [(99, 600)]
  ∧ exec late_scan.1 late_scan.2 (step administrator (EmergencyWithdraw 99) at_hub)
    = inl TransferFailed
  ∧ exec (platform 60 500) (EmergencyWithdraw 99) at_hub
    = inl (MissingRole DEFAULT_ADMIN_ROLE).
Proof. by vm_compute. Qed.

(** ** C9: the order of storage writes and transfers *)

(** Counterexample to C9: in the milestone release of the scan to the hub
    and in a manual release, the NGO total and the platform total are
    written after the transfer. *)
Lemma totals_written_after_transfer :
  writes_after_transfer (effects_of to_hub.1 to_hub.2 (run (fund 1000) genesis))
    = [SNgoTotalReceived 50; STotalFundsReleased]
  ∧ writes_after_transfer (effects_of auditor (ManualReleaseFunds shipment 50 100) at_hub)
    = [SNgoTotalReceived 50; STotalFundsReleased; SGuardStatus].
Proof. by vm_compute. Qed.

(** C9, amended. In each value-moving operation the accounting of the asset
    is written before the transfer: the released mark of the milestone and
    the released funds in a milestone release, the released funds in a manual
    release, the refund mark and the allocated funds in a refund.  The NGO
    total and the platform total are written after the transfer in a
    milestone release and in a manual release; after the transfer of a refund
    only the re-entrancy guard is reset.  Each operation makes one transfer. *)
Theorem accounting_before_transfer env o s u s' t :
  perform env o s = inr (u, s', t) → transfers t ≠ [] →
  length (transfers t) = 1%nat
  ∧ writes_before_transfer t = written_before o
  ∧ writes_after_transfer t = written_after s o.
Proof.
  intros H Ht. destruct o as [id i|id r amount|id]; cbn [perform] in H.
  - apply release_milestone_inr in H. destruct H as [H _].
    unfold release_round in H.
    destruct (milestones s id !! i) as [m|]; [|by injection H as -> ->].
    destruct (due s (asset s id) m && (0 <? release_amount (asset s id) m));
      injection H as -> ->; done.
  - unfold manualReleaseFunds in H. minv. done.
  - unfold requestRefund in H. minv; done.
Qed.

Lemma accounting_before_transfer_witness :
  length (transfers (effects_of auditor (ManualReleaseFunds shipment 50 100) at_hub)) = 1%nat
  ∧ writes_before_transfer (effects_of auditor (ManualReleaseFunds shipment 50 100) at_hub)
    = written_before (ManualRelease shipment 50 100)
  ∧ writes_after_transfer (effects_of auditor (ManualReleaseFunds shipment 50 100) at_hub)
    = written_after at_hub (ManualRelease shipment 50 100).
Proof.
  apply (accounting_before_transfer auditor (ManualRelease shipment 50 100) at_hub tt
           (step auditor (ManualReleaseFunds shipment 50 100) at_hub)).
  - vm_compute. reflexivity.
  - vm_compute. discriminate.
Defined.

(** The effects of the three operations in the scenario, in program order. *)
Example traces_of_the_scenario :
  effects_of to_hub.1 to_hub.2 (run (fund 1000) genesis)
  = scan_effects to_hub.1 shipment "Hub B" Hub false
    ++ release_block shipment 0 50 400 Hub
  ∧ effects_of after_lock (RequestRefund shipment) at_hub
    = refund_effects after_lock shipment at_hub.
Proof. by vm_compute. Qed.

(** ** C2: the amounts the engine releases *)

Lemma percent_le F p : 0 ≤ F → 0 ≤ p ≤ 100 → 0 ≤ F * p / 100 ≤ F.
Proof.
  intros HF Hp. split.
  - apply Z.div_pos; nia.
  - apply Z.div_le_upper_bound; nia.
Qed.

Lemma split_40_60 F : 0 ≤ F → F * 40 / 100 + F * 60 / 100 ≤ F.
Proof.
  intros HF.
  pose proof (Z.mul_div_le (F * 40) 100 ltac:(lia)).
  pose proof (Z.mul_div_le (F * 60) 100 ltac:(lia)). lia.
Qed.

Lemma release_round_fire id i s m :
  milestones s id !! i = Some m → due s (asset s id) m = true →
  0 < release_amount (asset s id) m →
  release_round id i s =
    (pay_milestone id i (release_amount (asset s id) m) s,
     release_block id i (assignedNGO (asset s id)) (release_amount (asset s id) m) (mstage m)).
Proof.
  intros Hm Hd Hp. unfold release_round. rewrite Hm, Hd.
  apply Z.ltb_lt in Hp. by rewrite Hp.
Qed.

Lemma release_round_skip id i s m :
  milestones s id !! i = Some m →
  due s (asset s id) m = false ∨ release_amount (asset s id) m ≤ 0 →
  release_round id i s = (s, []).
Proof.
  intros Hm Hs. unfold release_round. rewrite Hm.
  destruct Hs as [->|Hle]; [done|]. apply Z.ltb_ge in Hle. rewrite Hle.
  by rewrite andb_false_r.
Qed.

(** The engine rule for one milestone: the amount is the floor of the
    percentage, reduced to the remaining headroom when it would overshoot;
    a positive amount is transferred to the NGO and marks the milestone, a
    zero amount changes nothing. *)
Lemma release_milestone_rule env id i s m u s' t :
  milestones s id !! i = Some m →
  release_milestone env id i s = inr (u, s', t) →
  let a := asset s id in
  let amt := Z.min (allocatedFunds a * releasePercentage m / 100)
                   (allocatedFunds a - releasedFunds a) in
  if due s a m && (0 <? amt)
  then transfers t = [(assignedNGO a, amt)]
       ∧ releasedFunds (asset s' id) = releasedFunds a + amt
       ∧ releasedFunds (asset s' id) ≤ allocatedFunds (asset s' id)
       ∧ milestones s' id !! i = Some (set_isReleased true m)
  else s' = s ∧ t = [].
Proof.
  intros Hm H. apply release_milestone_inr in H. destruct H as [H _].
  unfold release_round in H. rewrite Hm in H. cbn zeta.
  change (Z.min (allocatedFunds (asset s id) * releasePercentage m / 100)
            (allocatedFunds (asset s id) - releasedFunds (asset s id)))
    with (release_amount (asset s id) m).
  destruct (due s (asset s id) m && (0 <? release_amount (asset s id) m));
    injection H as -> ->; [|done].
  pose proof (release_amount_le (asset s id) m).
  obs. repeat split; try done; try lia.
  rewrite list_lookup_alter_eq, Hm. done.
Qed.

Lemma round_amount_nonneg s a m : 0 ≤ round_amount s a m.
Proof. unfold round_amount. destruct (due s a m); lia. Qed.

(** One round, observed: under the conditions of [round_ok] the round pays
    [round_amount] and marks the milestone when that amount is positive. *)
Lemma release_round_observed id i s m :
  milestones s id !! i = Some m →
  let amt := round_amount s (asset s id) m in
  let s' := (release_round id i s).1 in
  transfers (release_round id i s).2 = payment (assignedNGO (asset s id)) amt
  ∧ asset s' id = set_releasedFunds (releasedFunds (asset s id) + amt) (asset s id)
  ∧ milestones s' id =
      (if 0 <? amt then alter (set_isReleased true) i (milestones s id)
       else milestones s id)
  ∧ balance s' = balance s - amt
  ∧ ngoReceived s' (assignedNGO (asset s id))
    = ngoReceived s (assignedNGO (asset s id)) + amt
  ∧ totalFundsReleased s' = totalFundsReleased s + amt
  ∧ minScansForFirstPayout s' = minScansForFirstPayout s.
Proof.
  intros Hm. cbn zeta. unfold round_amount, payment.
  destruct (due s (asset s id) m) eqn:Hd.
  - destruct (Z.ltb_spec 0 (release_amount (asset s id) m)) as [Hp|Hp].
    + rewrite (release_round_fire id i s m Hm Hd Hp). cbn [fst snd].
      rewrite Z.max_r by lia. apply Z.ltb_lt in Hp. rewrite Hp.
      obs. repeat split; try done. by case_decide.
    + rewrite (release_round_skip id i s m Hm) by (right; lia). cbn [fst snd].
      rewrite Z.max_l by lia. cbn. by rewrite !Z.add_0_r, Z.sub_0_r, set_releasedFunds_id.
  - rewrite (release_round_skip id i s m Hm) by (by left). cbn.
    by rewrite !Z.add_0_r, Z.sub_0_r, set_releasedFunds_id.
Qed.

Lemma milestone_amount_nonneg d F r p : 0 ≤ milestone_amount d F r p.
Proof. unfold milestone_amount. destruct d; lia. Qed.

Lemma milestone_amount_le d F r p : r ≤ F → milestone_amount d F r p ≤ F - r.
Proof. unfold milestone_amount. destruct d; lia. Qed.

Lemma ngoReceived_scanned env id geo st photo note s a :
  ngoReceived (scanned env id geo st photo note s) a = ngoReceived s a.
Proof. unfold scanned. destruct (anomaly _ _ _ _); by obs. Qed.

Lemma totalFundsReleased_scanned env id geo st photo note s :
  totalFundsReleased (scanned env id geo st photo note s) = totalFundsReleased s.
Proof. unfold scanned. destruct (anomaly _ _ _ _); by obs. Qed.

Lemma minScans_scanned env id geo st photo note s :
  minScansForFirstPayout (scanned env id geo st photo note s) = minScansForFirstPayout s.
Proof. unfold scanned. destruct (anomaly _ _ _ _); by obs. Qed.

(** A successful scan is the scan record followed by the release loop. *)
Lemma scan_exec env id geo st photo note s :
  hasRole s SCANNER_ROLE (msg_sender env) = true →
  donor (asset s id) ≠ 0 →
  isFlagged (asset s id) = false →
  scansCount (asset s id) + 1 ≤ MAX_UINT256 →
  rounds_ok env id (seq 0 (length (milestones s id))) (scanned env id geo st photo note s) →
  exec env (ScanAsset id geo st photo note) s =
    inr ((release_rounds id (seq 0 (length (milestones s id)))
            (scanned env id geo st photo note s)).1,
         scan_effects env id geo st (anomaly (asset s id) geo st photo)
         ++ (release_rounds id (seq 0 (length (milestones s id)))
               (scanned env id geo st photo note s)).2).
Proof.
  intros Hrole Hex Hfl Hcnt Hok.
  destruct (scanAsset_ok env id geo st photo note s Hrole Hex Hfl Hcnt Hok) as (s' & t & H).
  unfold exec. cbn [dispatch]. rewrite H.
  apply scanAsset_inr in H. destruct H as (_ & _ & _ & _ & _ & t2 & Hr & ->).
  by rewrite <- Hr.
Qed.

Lemma release_rounds_pair id i j s s2 s3 :
  s2 = (release_round id i s).1 → s3 = (release_round id j s2).1 →
  (release_rounds id [i; j] s).1 = s3
  ∧ (release_rounds id [i; j] s).2
    = (release_round id i s).2 ++ (release_round id j s2).2.
Proof.
  intros -> ->. cbn [release_rounds]. destruct (release_round id i s) as [s1 t1].
  cbn [fst snd]. destruct (release_round id j s1) as [s2 t2]. cbn [fst snd].
  by rewrite app_nil_r.
Qed.

Lemma hasRole_scanned env id geo st photo note s ro a :
  hasRole (scanned env id geo st photo note s) ro a = hasRole s ro a.
Proof. unfold scanned. destruct (anomaly _ _ _ _); by obs. Qed.

(** A scan of an asset with the default milestones, in numbers: the two
    rounds pay [a0] and [a1]. *)
Lemma scan_default env id geo st photo note s b0 b1 F r k n ngo a0 a1 :
  hasRole s SCANNER_ROLE (msg_sender env) = true →
  donor (asset s id) ≠ 0 →
  isFlagged (asset s id) = false →
  milestones s id = [mkMilestone Hub 40 b0; mkMilestone Beneficiary 60 b1] →
  F = allocatedFunds (asset s id) → r = releasedFunds (asset s id) →
  k = minScansForFirstPayout s → n = scansCount (asset s id) + 1 →
  ngo = assignedNGO (asset s id) →
  0 ≤ r ≤ F → n ≤ MAX_UINT256 → F * 60 ≤ MAX_UINT256 →
  a0 = milestone_amount (is_due k n st Hub b0) F r 40 →
  a1 = milestone_amount (is_due k n st Beneficiary b1) F (r + a0) 60 →
  a0 + a1 ≤ balance s →
  (0 < a0 → accepts env ngo a0 = true) →
  (0 < a1 → accepts env ngo a1 = true) →
  ngoReceived s ngo + a0 + a1 ≤ MAX_UINT256 →
  totalFundsReleased s + a0 + a1 ≤ MAX_UINT256 →
  ∃ s' t,
    exec env (ScanAsset id geo st photo note) s = inr (s', t)
    ∧ transfers t = payment ngo a0 ++ payment ngo a1
    ∧ asset s' id
      = set_releasedFunds (r + a0 + a1) (asset (scanned env id geo st photo note s) id)
    ∧ milestones s' id
      = [mkMilestone Hub 40 (b0 || (0 <? a0));
         mkMilestone Beneficiary 60 (b1 || (0 <? a1))]
    ∧ balance s' = balance s - a0 - a1
    ∧ ngoReceived s' ngo = ngoReceived s ngo + a0 + a1
    ∧ totalFundsReleased s' = totalFundsReleased s + a0 + a1
    ∧ minScansForFirstPayout s' = k
    ∧ (∀ ro a, hasRole s' ro a = hasRole s ro a).
Proof.
  intros Hrole Hex Hfl Hms HF Hr Hk Hn Hngo B Hcnt Hmul Ha0 Ha1 Hbal Hacc0 Hacc1 Hnt Htt.
  remember (scanned env id geo st photo note s) as s1 eqn:E1.
  assert (A1 : asset s1 id =
                 set_currentStage st
                   (set_currentGeoTag geo
                      (set_scansCount n
                         (if anomaly (asset s id) geo st photo
                          then set_isFlagged true (asset s id) else asset s id))))
    by (subst n s1; apply asset_scanned).
  assert (B1 : balance s1 = balance s) by (subst s1; apply balance_scanned).
  assert (N1 : ngoReceived s1 ngo = ngoReceived s ngo)
    by (subst s1; apply ngoReceived_scanned).
  assert (T1' : totalFundsReleased s1 = totalFundsReleased s)
    by (subst s1; apply totalFundsReleased_scanned).
  assert (M1 : milestones s1 id = [mkMilestone Hub 40 b0; mkMilestone Beneficiary 60 b1])
    by (subst s1; by rewrite milestones_scanned).
  assert (F1 : allocatedFunds (asset s1 id) = F ∧ releasedFunds (asset s1 id) = r
               ∧ assignedNGO (asset s1 id) = ngo ∧ currentStage (asset s1 id) = st
               ∧ scansCount (asset s1 id) = n)
    by (rewrite A1; subst; destruct (anomaly _ _ _ _); cbn; done).
  destruct F1 as (F1a & F1r & F1n & F1s & F1c).
  assert (K1 : minScansForFirstPayout s1 = k) by (subst k s1; apply minScans_scanned).
  assert (D0 : due s1 (asset s1 id) (mkMilestone Hub 40 b0) = is_due k n st Hub b0)
    by (unfold due, is_due; cbn [mstage isReleased]; by rewrite F1s, F1c, K1).
  assert (R0 : round_amount s1 (asset s1 id) (mkMilestone Hub 40 b0) = a0).
  { unfold round_amount. rewrite D0, Ha0. unfold milestone_amount, release_amount,
      nominal_amount. cbn [releasePercentage]. by rewrite F1a, F1r. }
  destruct (release_round_observed id 0 s1 (mkMilestone Hub 40 b0)) as
    (T0 & A2 & M2 & B2 & N2 & TT2 & K2); [by rewrite M1|].
  rewrite R0 in *.
  remember (release_round id 0 s1).1 as s2 eqn:E2 in *.
  assert (M2' : milestones s2 id =
                  [mkMilestone Hub 40 (b0 || (0 <? a0)); mkMilestone Beneficiary 60 b1]).
  { rewrite M2, M1. destruct (0 <? a0) eqn:Hp; cbn; [|by rewrite orb_false_r].
    rewrite orb_true_r. done. }
  assert (F2 : allocatedFunds (asset s2 id) = F ∧ releasedFunds (asset s2 id) = r + a0
               ∧ assignedNGO (asset s2 id) = ngo ∧ currentStage (asset s2 id) = st
               ∧ scansCount (asset s2 id) = n)
    by (rewrite A2; cbn; rewrite F1a, F1r, F1n, F1s, F1c; done).
  destruct F2 as (F2a & F2r & F2n & F2s & F2c).
  assert (D1 : due s2 (asset s2 id) (mkMilestone Beneficiary 60 b1)
               = is_due k n st Beneficiary b1)
    by (unfold due, is_due; cbn [mstage isReleased]; by rewrite F2s, F2c, K2, K1).
  assert (R1 : round_amount s2 (asset s2 id) (mkMilestone Beneficiary 60 b1) = a1).
  { unfold round_amount. rewrite D1, Ha1. unfold milestone_amount, release_amount,
      nominal_amount. cbn [releasePercentage]. by rewrite F2a, F2r. }
  destruct (release_round_observed id 1 s2 (mkMilestone Beneficiary 60 b1)) as
    (T1 & A3 & M3 & B3 & N3 & TT3 & K3); [by rewrite M2'|].
  rewrite R1 in *.
  remember (release_round id 1 s2).1 as s3 eqn:E3 in *.
  pose proof (milestone_amount_nonneg (is_due k n st Hub b0) F r 40) as P0.
  pose proof (milestone_amount_nonneg (is_due k n st Beneficiary b1) F (r + a0) 60) as P1.
  pose proof (milestone_amount_le (is_due k n st Hub b0) F r 40 ltac:(lia)) as L0.
  rewrite <- Ha0 in P0, L0. rewrite <- Ha1 in P1.
  pose proof (percent_le F 40 ltac:(lia) ltac:(lia)) as Q0.
  pose proof (percent_le F 60 ltac:(lia) ltac:(lia)) as Q1.
  assert (O0 : round_ok env id 0 s1).
  { exists (mkMilestone Hub 40 b0). split; [by rewrite M1|]. intros Hd.
    unfold round_amount in R0. rewrite Hd in R0.
    unfold nominal_amount. cbn [releasePercentage]. rewrite F1a, F1r, F1n.
    split; [lia|]. split; [lia|]. split; [lia|]. intros Hp.
    replace (release_amount _ _) with a0 by lia.
    rewrite B1, N1, T1'. repeat split; try lia. apply Hacc0; lia. }
  assert (O1 : round_ok env id 1 s2).
  { exists (mkMilestone Beneficiary 60 b1). split; [by rewrite M2'|]. intros Hd.
    unfold round_amount in R1. rewrite Hd in R1.
    unfold nominal_amount. cbn [releasePercentage]. rewrite F2a, F2r, F2n.
    split; [lia|]. split; [lia|]. split; [lia|]. intros Hp.
    replace (release_amount _ _) with a1 by lia.
    rewrite F1n in N2. rewrite B2, N2, TT2, B1, N1, T1'.
    repeat split; try lia. apply Hacc1; lia. }
  exists s3, (scan_effects env id geo st (anomaly (asset s id) geo st photo)
              ++ (release_round id 0 s1).2 ++ (release_round id 1 s2).2).
  split.
  { rewrite (scan_exec env id geo st photo note s Hrole Hex Hfl).
    - rewrite Hms. change (seq 0 (length _)) with [0; 1]%nat. rewrite <- E1.
      destruct (release_rounds_pair id 0 1 s1 s2 s3 E2 E3) as [-> ->]. reflexivity.
    - lia.
    - rewrite Hms. change (seq 0 (length _)) with [0; 1]%nat. rewrite <- E1.
      cbn [rounds_ok]. rewrite <- E2. split; [exact O0|split; [exact O1|exact I]]. }
  split.
  { by rewrite !transfers_app, transfers_scan_effects, T0, T1, F1n, F2n. }
  split.
  { rewrite A3, F2r, A2. by destruct (asset s1 id). }
  split.
  { rewrite M3, M2'. destruct (0 <? a1); cbn; [by rewrite orb_true_r|by rewrite orb_false_r]. }
  split; [rewrite B3, B2, B1; lia|].
  split; [rewrite F2n in N3; rewrite F1n in N2; rewrite N3, N2, N1; lia|].
  split; [rewrite TT3, TT2, T1'; lia|].
  split; [by rewrite K3, K2, K1|].
  intros ro a.
  rewrite E3, (rf_roles _ _ _ (round_frame_round id 1 s2 s2 (round_frame_refl id s2))).
  rewrite E2, (rf_roles _ _ _ (round_frame_round id 0 s1 s1 (round_frame_refl id s1))).
  rewrite E1, hasRole_scanned. done.
Qed.

(** What a successful [initAsset] leaves behind for the new asset. *)
Lemma init_exec env F id desc ngo geo s s0 t0 :
  Inv s →
  exec env (InitAsset F id desc ngo geo) s = inr (s0, t0) →
  0 < F
  ∧ allocatedFunds (asset s0 id) = F ∧ releasedFunds (asset s0 id) = 0
  ∧ donor (asset s0 id) = msg_sender env
  ∧ assignedNGO (asset s0 id) = ngo ∧ currentStage (asset s0 id) = Warehouse
  ∧ currentGeoTag (asset s0 id) = geo
  ∧ scansCount (asset s0 id) = 1 ∧ isFlagged (asset s0 id) = false
  ∧ milestones s0 id = [mkMilestone Hub 40 false; mkMilestone Beneficiary 60 false]
  ∧ balance s0 = balance s + F
  ∧ ngoReceived s0 ngo = ngoReceived s ngo
  ∧ totalFundsReleased s0 = totalFundsReleased s
  ∧ minScansForFirstPayout s0 = minScansForFirstPayout s
  ∧ (∀ ro a, hasRole s0 ro a = hasRole s ro a).
Proof.
  intros HI H. unfold exec in H. cbn [dispatch] in H.
  destruct (initAsset _ _ _ _ _ _ _) as [e|[[u s1] t1]] eqn:Hd; [done|].
  injection H as <- <-.
  unfold initAsset, _setupDefaultMilestones in Hd. minv.
  destruct HI as [Ha Hg Hb].
  destruct (Ha id) as [_ A _ _ _ _].
  match goal with H : (donor _ =? 0) = true |- _ => apply Z.eqb_eq in H; rename H into Hz end.
  obs_in Hz. destruct (A Hz) as [Hzero Hms]. clear A.
  tests_to_props.
  obs. rewrite Hzero, Hms. cbn. repeat split; try done; try lia.
Qed.


Lemma remainder_iff_multiple_of_5 F :
  F * 60 / 100 = F - F * 40 / 100 ↔ F mod 5 = 0.
Proof. Z.div_mod_to_equations. lia. Qed.

(** Counterexample to C2: with a funding of 3 the scan to the hub releases
    floor(3 * 40 / 100) = 1; the scan to the beneficiary then releases
    floor(3 * 60 / 100) = 1, while the remainder is 3 - 1 = 2.  One unit stays
    in escrow. *)
Lemma beneficiary_release_below_remainder :
  allocatedFunds (asset small_grant shipment) = 3
  ∧ transfers (effects_of to_hub.1 to_hub.2 small_grant) = [(50, 1)]
  ∧ releasedFunds (asset (run [to_hub] small_grant) shipment) = 1
  ∧ allocatedFunds (asset (run [to_hub] small_grant) shipment)
    - releasedFunds (asset (run [to_hub] small_grant) shipment) = 2
  ∧ transfers (effects_of to_beneficiary.1 to_beneficiary.2 (run [to_hub] small_grant))
    = [(50, 1)]
  ∧ releasedFunds (asset (run [to_hub; to_beneficiary] small_grant) shipment) = 2
  ∧ milestones (run [to_hub; to_beneficiary] small_grant) shipment
    = [mkMilestone Hub 40 true; mkMilestone Beneficiary 60 true].
Proof. by vm_compute. Qed.

(** The amounts of the scenario: 400 at the hub, 600 at the beneficiary. *)
Example amounts_of_the_delivery :
  transfers (run_effects delivery genesis) = [(50, 400); (50, 600)]
  ∧ releasedFunds (asset (run delivery genesis) shipment) = 1000.
Proof. by vm_compute. Qed.

(** An earlier manual release of 700 leaves 300: the scan to the hub then
    releases 300, not floor(1000 * 40 / 100), and the scan to the beneficiary
    releases nothing. *)
Example earlier_release_caps_the_hub_amount :
  transfers (run_effects (fund 1000 ++ [(platform 2 150, ManualReleaseFunds shipment 50 700)])
               genesis) = [(50, 700)]
  ∧ transfers (effects_of to_hub.1 to_hub.2
                 (run (fund 1000 ++ [(platform 2 150, ManualReleaseFunds shipment 50 700)])
                    genesis)) = [(50, 300)]
  ∧ transfers (effects_of to_beneficiary.1 to_beneficiary.2
                 (run (fund 1000 ++ [(platform 2 150, ManualReleaseFunds shipment 50 700);
                                      to_hub]) genesis)) = [].
Proof. by vm_compute. Qed.

(** ** Outcomes of [initAsset] *)

Lemma exec_inr_dispatch env c s s' t :
  exec env c s = inr (s', t) ↔ dispatch env c s = inr (tt, s', t).
Proof.
  unfold exec. destruct (dispatch env c s) as [e|[[[] s1] t1]]; split; intros H;
    by simplify_eq.
Qed.

Lemma exec_inl_dispatch env c s e :
  exec env c s = inl e ↔ dispatch env c s = inl e.
Proof.
  unfold exec. destruct (dispatch env c s) as [e'|[[[] s1] t1]]; split; intros H;
    by simplify_eq.
Qed.

Lemma funded_reachable : reachable funded.
Proof.
  apply reaches_run; [apply genesis_reachable|]. unfold fund, setup. cbn [app]. wf_txs.
Qed.

Lemma reaches_reachable allowed s : reaches allowed s → reachable s.
Proof.
  induction 1 as [env admin auditor s t Henv Hc|env c s s' t Hr IH Henv Hc Hal Hx].
  - by eapply reaches_deploy.
  - by eapply reaches_step.
Qed.

Lemma at_hub_escrowed : reaches not_emergency at_hub.
Proof.
  apply reaches_run; [apply genesis_reachable|].
  repeat first
    [ apply Forall_nil_2
    | apply Forall_cons_2;
      [ unfold wf_tx, wf_env, wf_call, MAX_UINT256; cbn; repeat split;
        first [lia | reflexivity] | ] ].
Qed.

Lemma setup_escrowed : reaches not_emergency (run setup genesis).
Proof.
  apply reaches_run; [apply genesis_reachable|].
  repeat first
    [ apply Forall_nil_2
    | apply Forall_cons_2;
      [ unfold wf_tx, wf_env, wf_call, MAX_UINT256; cbn; repeat split;
        first [lia | reflexivity] | ] ].
Qed.

Lemma funded_escrowed : reaches not_emergency funded.
Proof.
  apply reaches_run; [apply genesis_reachable|].
  repeat first
    [ apply Forall_nil_2
    | apply Forall_cons_2;
      [ unfold wf_tx, wf_env, wf_call, MAX_UINT256; cbn; repeat split;
        first [lia | reflexivity] | ] ].
Qed.

(** X1. [initAsset] succeeds exactly when the asset id is non-zero, value is
    sent, the NGO address is non-zero and holds the NGO role, the id is unused
    and the donor's total, the asset counter and the allocated total do not
    overflow.  Otherwise the first failing check decides the error, in the
    order of the code: invalid asset id, no funds, invalid NGO address, NGO
    not registered, asset already exists. *)
Theorem initAsset_outcome env v id desc ngo geo s :
  ((∃ s' t, exec env (InitAsset v id desc ngo geo) s = inr (s', t)) ↔
     id ≠ 0 ∧ 0 < v ∧ ngo ≠ 0 ∧ hasRole s NGO_ROLE ngo = true ∧ donor (asset s id) = 0
     ∧ donorContributed s (msg_sender env) + v ≤ MAX_UINT256
     ∧ totalAssetsTracked s + 1 ≤ MAX_UINT256
     ∧ totalFundsAllocated s + v ≤ MAX_UINT256)
  ∧ (id = 0 → exec env (InitAsset v id desc ngo geo) s = inl InvalidAssetID)
  ∧ (id ≠ 0 → v ≤ 0 → exec env (InitAsset v id desc ngo geo) s = inl MustSendFunds)
  ∧ (id ≠ 0 → 0 < v → ngo = 0 →
     exec env (InitAsset v id desc ngo geo) s = inl InvalidNGOAddress)
  ∧ (id ≠ 0 → 0 < v → ngo ≠ 0 → hasRole s NGO_ROLE ngo = false →
     exec env (InitAsset v id desc ngo geo) s = inl NGONotRegistered)
  ∧ (id ≠ 0 → 0 < v → ngo ≠ 0 → hasRole s NGO_ROLE ngo = true → donor (asset s id) ≠ 0 →
     exec env (InitAsset v id desc ngo geo) s = inl AssetAlreadyExists).
Proof.
  split; [split|].
  - intros (s' & t & H). apply exec_inr_dispatch in H. cbn [dispatch] in H.
    unfold initAsset, _setupDefaultMilestones in H. minv. tests_to_props.
    obs_hyps.
    repeat match goal with H : context [donorContributed] |- _ => revert H end.
    repeat match goal with H : context [totalAssetsTracked] |- _ => revert H end.
    repeat match goal with H : context [totalFundsAllocated] |- _ => revert H end.
    obs. intros. repeat split; try done; try lia.
  - intros (Hid & Hv & Hngo & Hreg & Hnew & Hc & Ht & Ha).
    do 2 eexists. apply exec_inr_dispatch. cbn [dispatch].
    unfold initAsset, _setupDefaultMilestones. fwd.
  - repeat split; intros; apply exec_inl_dispatch; cbn [dispatch]; unfold initAsset;
      run_all.
Qed.

(** ** Sums over mappings *)

Lemma map_total_empty {K : Type} `{Countable K} {A : Type} (f : A → Z) :
  map_total f (∅ : gmap K A) = 0.
Proof. unfold map_total. apply map_fold_empty. Qed.

Lemma map_total_insert_fresh {K : Type} `{Countable K} {A : Type} (f : A → Z)
    (m : gmap K A) k a :
  m !! k = None → map_total f (<[k := a]> m) = map_total f m + f a.
Proof.
  intros Hk. unfold map_total.
  rewrite map_fold_insert_L; [cbn beta; reflexivity|intros ? ? ? ? ? _ _ _; ring|done].
Qed.

Lemma map_total_insert {K : Type} `{Countable K} {A : Type} (f : A → Z) (z : A)
    (m : gmap K A) k a :
  f z = 0 →
  map_total f (<[k := a]> m) = map_total f m - f (default z (m !! k)) + f a.
Proof.
  intros Hz. destruct (m !! k) as [a0|] eqn:Hk; cbn [default from_option id].
  - rewrite <- insert_delete_eq.
    rewrite map_total_insert_fresh by apply lookup_delete_eq.
    rewrite <- (insert_delete_id m k a0) at 2 by done.
    rewrite map_total_insert_fresh by apply lookup_delete_eq. lia.
  - rewrite map_total_insert_fresh by done. lia.
Qed.

Lemma map_total_nonneg {K : Type} `{Countable K} {A : Type} (f : A → Z) (m : gmap K A) :
  (∀ k a, m !! k = Some a → 0 ≤ f a) → 0 ≤ map_total f m.
Proof.
  induction m as [|k a m Hk IH] using map_ind; intros Hf.
  - by rewrite map_total_empty.
  - rewrite map_total_insert_fresh by done.
    pose proof (Hf k a (lookup_insert_eq _ _ _)).
    assert (0 ≤ map_total f m); [|lia].
    apply IH. intros k' a' Hk'. apply (Hf k'). rewrite lookup_insert_ne; [done|].
    intros ->. congruence.
Qed.

Lemma map_total_le {K : Type} `{Countable K} {A : Type} (f g : A → Z) (m : gmap K A) :
  (∀ k a, m !! k = Some a → f a ≤ g a) → map_total f m ≤ map_total g m.
Proof.
  induction m as [|k a m Hk IH] using map_ind; intros Hf.
  - by rewrite !map_total_empty.
  - rewrite !map_total_insert_fresh by done.
    pose proof (Hf k a (lookup_insert_eq _ _ _)).
    assert (map_total f m ≤ map_total g m); [|lia].
    apply IH. intros k' a' Hk'. apply (Hf k'). rewrite lookup_insert_ne; [done|].
    intros ->. congruence.
Qed.

Lemma map_total_lookup_le {K : Type} `{Countable K} {A : Type} (f : A → Z)
    (m : gmap K A) k a :
  (∀ k a, m !! k = Some a → 0 ≤ f a) → m !! k = Some a → f a ≤ map_total f m.
Proof.
  intros Hf Hk. rewrite <- (insert_delete_id m k a) by done.
  rewrite map_total_insert_fresh by apply lookup_delete_eq.
  assert (0 ≤ map_total f (delete k m)); [|lia].
  apply map_total_nonneg. intros k' a' Hk'. apply (Hf k').
  apply lookup_delete_Some in Hk'. tauto.
Qed.

(** ** Observations of the books *)

Global Instance released_total_reads : Reads released_total F_assets.
Proof. intros s1 s2 Hs. unfold released_total. cbn in Hs. by rewrite Hs. Qed.
Global Instance allocated_total_reads : Reads allocated_total F_assets.
Proof. intros s1 s2 Hs. unfold allocated_total. cbn in Hs. by rewrite Hs. Qed.
Global Instance asset_ids_reads : Reads asset_ids F_assets.
Proof. intros s1 s2 Hs. unfold asset_ids. cbn in Hs. by rewrite Hs. Qed.
Global Instance received_total_reads : Reads received_total F_ngoTotals.
Proof. intros s1 s2 Hs. unfold received_total. cbn in Hs. by rewrite Hs. Qed.
Global Instance contributed_total_reads : Reads contributed_total F_donorTotals.
Proof. intros s1 s2 Hs. unfold contributed_total. cbn in Hs. by rewrite Hs. Qed.
Global Instance assetsOf_reads d : Reads (λ s, assetsOf s d) F_donorAssets.
Proof. intros s1 s2 Hs. unfold assetsOf. cbn in Hs. by rewrite Hs. Qed.

Lemma released_total_upd_asset id f s :
  released_total (upd_asset id f s)
  = released_total s - releasedFunds (asset s id) + releasedFunds (f (asset s id)).
Proof. unfold released_total, upd_asset, asset. cbn. by apply map_total_insert. Qed.

Lemma allocated_total_upd_asset id f s :
  allocated_total (upd_asset id f s)
  = allocated_total s - allocatedFunds (asset s id) + allocatedFunds (f (asset s id)).
Proof. unfold allocated_total, upd_asset, asset. cbn. by apply map_total_insert. Qed.

Lemma asset_ids_upd_asset id f s : asset_ids (upd_asset id f s) = {[id]} ∪ asset_ids s.
Proof. unfold asset_ids, upd_asset. cbn. apply dom_insert_L. Qed.

Lemma received_total_set_ngoReceived a v s :
  received_total (set_ngoReceived a v s) = received_total s - ngoReceived s a + v.
Proof.
  unfold received_total, set_ngoReceived, ngoReceived. cbn.
  by rewrite (map_total_insert (λ v : uint256, v) 0).
Qed.

Lemma contributed_total_set_donorContributed a v s :
  contributed_total (set_donorContributed a v s)
  = contributed_total s - donorContributed s a + v.
Proof.
  unfold contributed_total, set_donorContributed, donorContributed. cbn.
  by rewrite (map_total_insert (λ v : uint256, v) 0).
Qed.

Lemma donorContributed_set_donorContributed a v s b :
  donorContributed (set_donorContributed a v s) b
  = if decide (b = a) then v else donorContributed s b.
Proof.
  unfold donorContributed, set_donorContributed. cbn. case_decide as Hb.
  - subst. by rewrite lookup_insert_eq.
  - by rewrite lookup_insert_ne.
Qed.

Lemma assetsOf_push_donorAsset a id s b :
  assetsOf (push_donorAsset a id s) b
  = if decide (b = a) then assetsOf s a ++ [id] else assetsOf s b.
Proof.
  unfold assetsOf, push_donorAsset. cbn. case_decide as Hb.
  - subst. by rewrite lookup_insert_eq.
  - by rewrite lookup_insert_ne.
Qed.

Lemma released_total_pay_milestone id i amt s :
  released_total (pay_milestone id i amt s) = released_total s + amt.
Proof.
  unfold pay_milestone. cbn zeta.
  change (released_total (with_totalFundsReleased ?v ?s1)) with (released_total s1).
  change (released_total (set_ngoReceived ?a ?v ?s1)) with (released_total s1).
  change (released_total (with_balance ?v ?s1)) with (released_total s1).
  rewrite released_total_upd_asset.
  change (released_total (upd_milestone ?a ?b ?c ?s1)) with (released_total s1).
  change (asset (upd_milestone ?a ?b ?c ?s1) id) with (asset s1 id).
  cbn. lia.
Qed.

Lemma allocated_total_pay_milestone id i amt s :
  allocated_total (pay_milestone id i amt s) = allocated_total s.
Proof.
  unfold pay_milestone. cbn zeta.
  change (allocated_total (with_totalFundsReleased ?v ?s1)) with (allocated_total s1).
  change (allocated_total (set_ngoReceived ?a ?v ?s1)) with (allocated_total s1).
  change (allocated_total (with_balance ?v ?s1)) with (allocated_total s1).
  rewrite allocated_total_upd_asset.
  change (allocated_total (upd_milestone ?a ?b ?c ?s1)) with (allocated_total s1).
  change (asset (upd_milestone ?a ?b ?c ?s1) id) with (asset s1 id).
  cbn. lia.
Qed.

Lemma asset_ids_pay_milestone id i amt s :
  asset_ids (pay_milestone id i amt s) = {[id]} ∪ asset_ids s.
Proof. unfold asset_ids, pay_milestone. cbn. apply dom_insert_L. Qed.

Lemma received_total_pay_milestone id i amt s :
  received_total (pay_milestone id i amt s) = received_total s + amt.
Proof.
  unfold pay_milestone. cbn zeta.
  change (received_total (with_totalFundsReleased ?v ?s1)) with (received_total s1).
  rewrite received_total_set_ngoReceived.
  change (received_total (with_balance ?v ?s1)) with (received_total s1).
  change (received_total (upd_asset ?a ?b ?s1)) with (received_total s1).
  change (received_total (upd_milestone ?a ?b ?c ?s1)) with (received_total s1).
  change (ngoReceived (with_balance ?v ?s1) ?a) with (ngoReceived s1 a).
  change (ngoReceived (upd_asset ?x ?b ?s1) ?a) with (ngoReceived s1 a).
  change (ngoReceived (upd_milestone ?x ?b ?c ?s1) ?a) with (ngoReceived s1 a).
  lia.
Qed.

Ltac xobs_step :=
  match goal with
  | |- context [released_total (upd_asset ?i ?f ?s)] =>
      rewrite (released_total_upd_asset i f s)
  | |- context [released_total (pay_milestone ?i ?k ?v ?s)] =>
      rewrite (released_total_pay_milestone i k v s)
  | |- context [allocated_total (upd_asset ?i ?f ?s)] =>
      rewrite (allocated_total_upd_asset i f s)
  | |- context [allocated_total (pay_milestone ?i ?k ?v ?s)] =>
      rewrite (allocated_total_pay_milestone i k v s)
  | |- context [asset_ids (upd_asset ?i ?f ?s)] => rewrite (asset_ids_upd_asset i f s)
  | |- context [asset_ids (pay_milestone ?i ?k ?v ?s)] =>
      rewrite (asset_ids_pay_milestone i k v s)
  | |- context [received_total (set_ngoReceived ?a ?v ?s)] =>
      rewrite (received_total_set_ngoReceived a v s)
  | |- context [received_total (pay_milestone ?i ?k ?v ?s)] =>
      rewrite (received_total_pay_milestone i k v s)
  | |- context [contributed_total (set_donorContributed ?a ?v ?s)] =>
      rewrite (contributed_total_set_donorContributed a v s)
  | |- context [donorContributed (set_donorContributed ?a ?v ?s) ?b] =>
      rewrite (donorContributed_set_donorContributed a v s b)
  | |- context [assetsOf (push_donorAsset ?a ?i ?s) ?b] =>
      rewrite (assetsOf_push_donorAsset a i s b)
  | |- context [released_total ?s1] => frame_step (released_total s1) released_total s1
  | |- context [allocated_total ?s1] => frame_step (allocated_total s1) allocated_total s1
  | |- context [asset_ids ?s1] => frame_step (asset_ids s1) asset_ids s1
  | |- context [received_total ?s1] => frame_step (received_total s1) received_total s1
  | |- context [contributed_total ?s1] =>
      frame_step (contributed_total s1) contributed_total s1
  | |- context [assetsOf ?s1 ?d] => frame_step (assetsOf s1 d) (λ s, assetsOf s d) s1
  | _ => obs_step
  end.

Ltac xobs := repeat xobs_step; proj_cbn.

Lemma in_asset_ids s id : donor (asset s id) ≠ 0 → id ∈ asset_ids s.
Proof.
  unfold asset, asset_ids. intros Hd. apply elem_of_dom.
  destruct (assets s !! id); [eauto|done].
Qed.

Lemma existing_id s id : donor (asset s id) ≠ 0 → {[id]} ∪ asset_ids s = asset_ids s.
Proof. intros Hd. apply in_asset_ids in Hd. set_solver. Qed.

Lemma books_frame_refl id s : books_frame id s s.
Proof. by split. Qed.

Lemma books_frame_round id i s0 s :
  books_frame id s0 s → books_frame id s0 (release_round id i s).1.
Proof.
  intros [R1 R2 R3 R4 R5 R6 R7 R8 R9]. unfold release_round.
  destruct (milestones s id !! i) as [m|] eqn:Hm; [|by split].
  destruct (due s (asset s id) m && (0 <? release_amount (asset s id) m)) eqn:Hfire;
    [|by split].
  cbn [fst]. split; xobs; try done; try lia.
  - rewrite <- R7. set_solver.
Qed.

Lemma books_frame_rounds id l s : books_frame id s (release_rounds id l s).1.
Proof.
  apply (release_rounds_keeps id (books_frame id s)).
  - intros i s1. apply books_frame_round.
  - apply books_frame_refl.
Qed.

Lemma released_total_scanned env id geo st photo note s :
  released_total (scanned env id geo st photo note s) = released_total s.
Proof. unfold scanned. destruct (anomaly _ _ _ _); xobs; lia. Qed.

Lemma allocated_total_scanned env id geo st photo note s :
  allocated_total (scanned env id geo st photo note s) = allocated_total s.
Proof. unfold scanned. destruct (anomaly _ _ _ _); xobs; lia. Qed.

Lemma asset_ids_scanned env id geo st photo note s :
  {[id]} ∪ asset_ids (scanned env id geo st photo note s) = {[id]} ∪ asset_ids s.
Proof. unfold scanned. destruct (anomaly _ _ _ _); xobs; set_solver. Qed.

Lemma scanned_frame env id geo st photo note s :
  received_total (scanned env id geo st photo note s) = received_total s
  ∧ contributed_total (scanned env id geo st photo note s) = contributed_total s
  ∧ totalFundsAllocated (scanned env id geo st photo note s) = totalFundsAllocated s
  ∧ totalAssetsTracked (scanned env id geo st photo note s) = totalAssetsTracked s
  ∧ (∀ d, assetsOf (scanned env id geo st photo note s) d = assetsOf s d)
  ∧ (∀ d, donorContributed (scanned env id geo st photo note s) d = donorContributed s d).
Proof. unfold scanned. destruct (anomaly _ _ _ _); repeat split; intros; by xobs. Qed.

(** ** Summaries of the calls *)

Lemma asset_created env v id desc ngo geo s id' :
  asset (created env v id desc ngo geo s) id'
  = if decide (id' = id) then new_asset env v desc ngo geo (asset s id) else asset s id'.
Proof. unfold created, new_asset. case_decide; [subst|]; by xobs. Qed.

Lemma initAsset_inr env v id desc ngo geo s u s' t :
  initAsset env v id desc ngo geo s = inr (u, s', t) →
  id ≠ 0 ∧ 0 < v ∧ ngo ≠ 0 ∧ hasRole s NGO_ROLE ngo = true ∧ donor (asset s id) = 0
  ∧ donorContributed s (msg_sender env) + v ≤ MAX_UINT256
  ∧ totalAssetsTracked s + 1 ≤ MAX_UINT256
  ∧ totalFundsAllocated s + v ≤ MAX_UINT256
  ∧ s' = created env v id desc ngo geo s
  ∧ t = created_effects env v id desc ngo.
Proof.
  intros H. unfold initAsset, _setupDefaultMilestones in H. minv. tests_to_props.
  obs_hyps.
  repeat match goal with H : context [donorContributed] |- _ => revert H end.
  repeat match goal with H : context [totalAssetsTracked] |- _ => revert H end.
  repeat match goal with H : context [totalFundsAllocated] |- _ => revert H end.
  xobs. intros. unfold created, initial_entry. repeat split; try done; try lia.
Qed.

Lemma manualReleaseFunds_inr env id r amount s u s' t :
  manualReleaseFunds env id r amount s = inr (u, s', t) →
  hasRole s AUDITOR_ROLE (msg_sender env) = true
  ∧ donor (asset s id) ≠ 0
  ∧ entered s = false
  ∧ releasedFunds (asset s id) ≤ allocatedFunds (asset s id)
  ∧ 0 < amount ≤ allocatedFunds (asset s id) - releasedFunds (asset s id)
  ∧ amount ≤ balance s
  ∧ accepts env r amount = true
  ∧ releasedFunds (asset s id) + amount ≤ MAX_UINT256
  ∧ ngoReceived s r + amount ≤ MAX_UINT256
  ∧ totalFundsReleased s + amount ≤ MAX_UINT256
  ∧ s' = released_manually id r amount s
  ∧ t = manual_effects id r amount s.
Proof.
  intros H. unfold manualReleaseFunds in H. minv. tests_to_props. obs_hyps.
  repeat match goal with H : context [totalFundsReleased] |- _ => revert H end.
  repeat match goal with H : context [ngoReceived] |- _ => revert H end.
  xobs. intros. unfold released_manually, manual_effects.
  repeat split; try done; try lia.
Qed.

Lemma requestRefund_inr env id s u s' t :
  requestRefund env id s = inr (u, s', t) →
  donor (asset s id) ≠ 0
  ∧ donor (asset s id) = msg_sender env
  ∧ entered s = false
  ∧ isRefunded (asset s id) = false
  ∧ refund_eligible env (asset s id) = true
  ∧ releasedFunds (asset s id) ≤ allocatedFunds (asset s id)
  ∧ 0 < allocatedFunds (asset s id) - releasedFunds (asset s id)
  ∧ allocatedFunds (asset s id) - releasedFunds (asset s id) ≤ balance s
  ∧ accepts env (donor (asset s id))
      (allocatedFunds (asset s id) - releasedFunds (asset s id)) = true
  ∧ s' = refund_state id s
  ∧ t = refund_effects env id s.
Proof.
  intros H. unfold requestRefund in H. minv.
  all: tests_to_props; obs_hyps.
  all: unfold refund_state, refund_effects, refund_eligible; xobs.
  all: repeat match goal with H : _ = true |- _ => rewrite H end.
  all: repeat match goal with H : _ = false |- _ => rewrite H end.
  all: cbn [orb negb].
  all: repeat split; try done; try lia.
Qed.

Lemma flagAsset_inr env id reason s u s' t :
  flagAsset env id reason s = inr (u, s', t) →
  hasRole s AUDITOR_ROLE (msg_sender env) = true
  ∧ donor (asset s id) ≠ 0
  ∧ s' = upd_asset id (set_isFlagged true) s
  ∧ t = [EWrite (SIsFlagged id); EEmit (AssetFlagged id (msg_sender env) reason)].
Proof. intros H. unfold flagAsset in H. minv. tests_to_props. done. Qed.

Lemma unflagAsset_inr env id s u s' t :
  unflagAsset env id s = inr (u, s', t) →
  hasRole s AUDITOR_ROLE (msg_sender env) = true
  ∧ donor (asset s id) ≠ 0
  ∧ s' = upd_asset id (set_isFlagged false) s
  ∧ t = [EWrite (SIsFlagged id); EEmit (AssetUnflagged id (msg_sender env))].
Proof. intros H. unfold unflagAsset in H. minv. tests_to_props. done. Qed.

Lemma emergencyWithdraw_state env r s u s' t :
  emergencyWithdraw env r s = inr (u, s', t) →
  hasRole s DEFAULT_ADMIN_ROLE (msg_sender env) = true
  ∧ r ≠ 0 ∧ 0 < balance s ∧ accepts env r (balance s) = true
  ∧ s' = with_balance (balance s - balance s) s
  ∧ t = [ETransfer r (balance s)].
Proof. intros H. unfold emergencyWithdraw in H. minv. tests_to_props. done. Qed.

(** Case analysis on a successful transaction, every call replaced by its
    summary. *)
Ltac summaries H :=
  let Hd := fresh "Hd" in
  unfold exec in H;
  match type of H with
  | match dispatch ?env ?c ?s with _ => _ end = _ =>
      destruct (dispatch env c s) as [?|[[? ?] ?]] eqn:Hd; [discriminate H|];
      injection H as -> ->; destruct c; cbn [dispatch] in Hd;
      [ apply initAsset_inr in Hd;
        destruct Hd as (Hid & Hv & Hngo & Hreg & Hnew & Hc1 & Hc2 & Hc3 & -> & ->)
      | apply scanAsset_inr in Hd
      | apply manualReleaseFunds_inr in Hd;
        destruct Hd as (Hrole & Hex & Hent & Hle & Ham & Hbal & Hacc & Hc1 & Hc2 & Hc3
                        & -> & ->)
      | apply flagAsset_inr in Hd; destruct Hd as (Hrole & Hex & -> & ->)
      | apply unflagAsset_inr in Hd; destruct Hd as (Hrole & Hex & -> & ->)
      | apply requestRefund_inr in Hd;
        destruct Hd as (Hex & Hown & Hent & Hnr & Hel & Hle & Hpos & Hbal & Hacc & -> & ->)
      | unfold addScanner, grantRole, _grantRole in Hd; minv
      | unfold addNGO, grantRole, _grantRole in Hd; minv
      | unfold updateMinScans in Hd; minv
      | unfold grantRole, _grantRole in Hd; minv
      | unfold revokeRole, _revokeRole in Hd; minv
      | unfold renounceRole, _revokeRole in Hd; minv
      | apply emergencyWithdraw_state in Hd;
        destruct Hd as (Hrole & Hr & Hpos & Hacc & -> & ->)
      | unfold receive in Hd; minv ]
  end.

Ltac books_of_update id B5 :=
  split; xobs; rewrite ?existing_id by done; try done; try lia;
  let x := fresh "x" in
  intros x ?; destruct (decide (x = id)) as [->|?]; xobs; first [done | by apply B5].

Lemma exec_Books env c s s' t :
  wf_env env → Inv s → Books s → exec env c s = inr (s', t) → Books s'.
Proof.
  intros [Hsender _] HI B H. pose proof B as [B1 B2 B3 B4 B5 B6].
  summaries H.
  all: unfold created, released_manually, refund_state.
  all: try (by split; xobs).
  - destruct (inv_assets s HI id) as [_ A _ _ _ _]. destruct (A Hnew) as [Hz _].
    assert (Hfresh : id ∉ asset_ids s) by (intros Hin; by apply B5 in Hin).
    split; [xobs; rewrite ?Hz; cbn; lia..| |].
    + intros id' Hin. revert Hin. xobs. intros Hin.
      destruct (decide (id' = id)) as [->|Hne]; xobs; [done|].
      apply B5. set_solver.
    + xobs. replace (_ ∪ _) with ({[id]} ∪ asset_ids s) by set_solver.
      rewrite size_union by set_solver. rewrite size_singleton. lia.
  - scan_frame Hd.
    match type of Hr with
    | (_, _) = release_rounds ?id ?l ?s1 =>
        pose proof (books_frame_rounds id l s1) as G; rewrite <- Hr in G; cbn [fst] in G
    end.
    destruct G as [G1 G2 G3 G4 G5 G6 G7 G8 G9].
    destruct F as [OA _ _ AA _ _ _ _ _].
    destruct (scanned_frame env id newGeoTag newStage photo note s)
      as (S1 & S2 & S3 & S4 & S5 & S6).
    assert (Hdonor : ∀ x, donor (asset s' x) = donor (asset s x)).
    { intros x. destruct (decide (x = id)) as [->|Hne].
      - rewrite AA, asset_scanned. destruct (anomaly _ _ _ _); done.
      - rewrite OA, asset_scanned_ne by done. done. }
    assert (Hids : asset_ids s' = asset_ids s).
    { apply set_eq. intros x. split; intros Hin.
      - assert (x ∈ {[id]} ∪ asset_ids (scanned env id newGeoTag newStage photo note s))
          as Hx by (rewrite <- G7; set_solver).
        rewrite asset_ids_scanned, existing_id in Hx by done. done.
      - apply in_asset_ids. rewrite Hdonor. by apply B5. }
    rewrite released_total_scanned, totalFundsReleased_scanned in G1.
    rewrite S1, totalFundsReleased_scanned in G2.
    rewrite allocated_total_scanned in G3.
    split.
    + lia.
    + lia.
    + rewrite G4, G5, S2, S3. done.
    + rewrite G3, G5, S3. done.
    + intros x Hin. rewrite Hdonor. apply B5. by rewrite <- Hids.
    + rewrite G6, S4, Hids. done.
  - books_of_update id B5.
  - books_of_update id B5.
  - books_of_update id B5.
  - books_of_update id B5.
Qed.

Lemma constructor_state env admin auditor s t :
  constructor env admin auditor deployed_storage = inr (tt, s, t) →
  admin ≠ 0 ∧ auditor ≠ 0 ∧ ∃ rs, s = with_roles rs deployed_storage.
Proof.
  intros H. apply constructor_inr in H.
  destruct H as (Ha & Hb & s1 & s2 & t1 & t2 & t3 & H3 & H4 & H5).
  unfold _grantRole in *. minv.
  all: split; [done|split; [done|]]; eexists; reflexivity.
Qed.

Lemma deployed_Books rs : Books (with_roles rs deployed_storage).
Proof.
  split; try reflexivity.
  intros id Hin. unfold asset_ids in Hin. cbn in Hin. set_solver.
Qed.

Lemma reaches_Books allowed s : reaches allowed s → Books s.
Proof.
  induction 1 as [env admin auditor s t Henv Hc|env c s s' t Hr IH Henv Hc Hal Hx].
  - apply constructor_state in Hc. destruct Hc as (_ & _ & rs & ->). apply deployed_Books.
  - eapply exec_Books; [exact Henv| |exact IH|exact Hx]. by eapply reaches_Inv.
Qed.

(** ** The journal of scans *)

Lemma Journal_ext s s' :
  (∀ id, history s' id = history s id
         ∧ scansCount (asset s' id) = scansCount (asset s id)
         ∧ currentStage (asset s' id) = currentStage (asset s id)
         ∧ currentGeoTag (asset s' id) = currentGeoTag (asset s id)
         ∧ donor (asset s' id) = donor (asset s id)
         ∧ donorTimestamp (asset s' id) = donorTimestamp (asset s id)) →
  Journal s → Journal s'.
Proof.
  intros Hext [J1 J2 J3]. split; intros id.
  - destruct (Hext id) as (-> & -> & _). apply J1.
  - destruct (Hext id) as (-> & _ & -> & -> & -> & _). apply J2.
  - destruct (Hext id) as (-> & _ & _ & _ & -> & ->). apply J3.
Qed.

Ltac journal_of_update s id J :=
  apply (Journal_ext s); [|exact J];
  let x := fresh "x" in
  intros x; destruct (decide (x = id)) as [->|?]; xobs; done.

Lemma exec_Journal env c s s' t :
  Inv s → Journal s → exec env c s = inr (s', t) → Journal s'.
Proof.
  intros HI J H. pose proof J as [J1 J2 J3].
  summaries H.
  all: unfold created, released_manually, refund_state.
  all: try (refine (Journal_ext _ _ _ J); intros ?; xobs; done).
  - destruct (inv_assets s HI id) as [_ A _ _ _ _]. destruct (A Hnew) as [Hz _].
    assert (Hnil : history s id = []).
    { specialize (J1 id). rewrite Hz in J1. cbn in J1.
      destruct (history s id); [done|cbn in J1; lia]. }
    split; intros x; destruct (decide (x = id)) as [->|?]; xobs;
      rewrite ?Hnil; cbn; eauto 10.
  - scan_frame Hd. destruct F as [OA _ HH AA _ _ _ _ _].
    split; intros x; rewrite HH; destruct (decide (x = id)) as [->|?].
    + rewrite AA, history_scanned, asset_scanned, length_app.
      specialize (J1 id). destruct (anomaly _ _ _ _); cbn; lia.
    + rewrite OA, history_scanned_ne, asset_scanned_ne by done. apply J1.
    + intros _. rewrite AA, history_scanned, asset_scanned, last_snoc.
      eexists. split; [done|]. destruct (anomaly _ _ _ _); done.
    + rewrite OA, history_scanned_ne, asset_scanned_ne by done. apply J2.
    + rewrite AA, history_scanned, asset_scanned. intros _.
      destruct (J3 id Hex) as (e & He & P).
      destruct (history s id) as [|e0 l]; [done|]. cbn in He. injection He as ->.
      exists e. split; [done|]. destruct (anomaly _ _ _ _); exact P.
    + rewrite OA, history_scanned_ne, asset_scanned_ne by done. apply J3.
  - journal_of_update s id J.
  - journal_of_update s id J.
  - journal_of_update s id J.
  - journal_of_update s id J.
Qed.

(** ** The donors' registers *)

Lemma Registry_ext s s' :
  (∀ d, assetsOf s' d = assetsOf s d) →
  (∀ id, donor (asset s' id) = donor (asset s id)) →
  Registry s → Registry s'.
Proof.
  intros Ha Hd [R1 R2]. split.
  - intros d id. rewrite Ha, Hd. apply R1.
  - intros d. rewrite Ha. apply R2.
Qed.

Lemma exec_Registry env c s s' t :
  wf_env env → Registry s → exec env c s = inr (s', t) → Registry s'.
Proof.
  intros [Hsender _] R H. pose proof R as [R1 R2].
  summaries H.
  all: unfold created, released_manually, refund_state.
  all: try (refine (Registry_ext _ _ _ _ R); intros ?; xobs; done).
  - assert (Hfresh : ∀ d, id ∉ assetsOf s d).
    { intros d Hin. apply R1 in Hin. destruct Hin as [Hd1 Hd2]. congruence. }
    split.
    + intros d x. xobs.
      destruct (decide (d = msg_sender env)) as [->|Hd];
        destruct (decide (x = id)) as [->|Hx]; xobs.
      * rewrite elem_of_app, list_elem_of_singleton. tauto.
      * rewrite elem_of_app, list_elem_of_singleton, R1. tauto.
      * split; [intros Hin; by apply Hfresh in Hin|]. intros [_ ?]. congruence.
      * apply R1.
    + intros d. xobs. destruct (decide (d = msg_sender env)) as [->|Hd]; [|apply R2].
      apply NoDup_app. split; [apply R2|]. split; [|apply NoDup_singleton].
      intros x Hin Hx. apply list_elem_of_singleton in Hx. subst. by apply Hfresh in Hin.
  - scan_frame Hd.
    match type of Hr with
    | (_, _) = release_rounds ?id ?l ?s1 =>
        pose proof (books_frame_rounds id l s1) as G; rewrite <- Hr in G; cbn [fst] in G
    end.
    destruct G as [_ _ _ _ _ _ _ G8 _]. destruct F as [OA _ _ AA _ _ _ _ _].
    destruct (scanned_frame env id newGeoTag newStage photo note s)
      as (_ & _ & _ & _ & S5 & _).
    refine (Registry_ext _ _ _ _ R).
    + intros d. by rewrite G8, S5.
    + intros x. destruct (decide (x = id)) as [->|Hne].
      * rewrite AA, asset_scanned. destruct (anomaly _ _ _ _); done.
      * rewrite OA, asset_scanned_ne by done. done.
  - refine (Registry_ext _ _ _ _ R); intros x; xobs; [done|].
    destruct (decide (x = id)) as [->|?]; by xobs.
  - refine (Registry_ext _ _ _ _ R); intros x; xobs; [done|].
    destruct (decide (x = id)) as [->|?]; by xobs.
  - refine (Registry_ext _ _ _ _ R); intros x; xobs; [done|].
    destruct (decide (x = id)) as [->|?]; by xobs.
  - refine (Registry_ext _ _ _ _ R); intros x; xobs; [done|].
    destruct (decide (x = id)) as [->|?]; by xobs.
Qed.

Lemma deployed_Journal rs : Journal (with_roles rs deployed_storage).
Proof.
  split; intros id; unfold asset, history; cbn; rewrite !lookup_empty; cbn; done.
Qed.

Lemma deployed_Registry rs : Registry (with_roles rs deployed_storage).
Proof.
  split; intros d; unfold asset, assetsOf; cbn; rewrite ?lookup_empty; cbn.
  - intros id. rewrite lookup_empty. cbn. split; [by intros ?%elem_of_nil|].
    intros [? ?]. congruence.
  - apply NoDup_nil_2.
Qed.

Lemma reaches_Journal allowed s : reaches allowed s → Journal s.
Proof.
  induction 1 as [env admin auditor s t Henv Hc|env c s s' t Hr IH Henv Hc Hal Hx].
  - apply constructor_state in Hc. destruct Hc as (_ & _ & rs & ->).
    apply deployed_Journal.
  - eapply exec_Journal; [|exact IH|exact Hx]. by eapply reaches_Inv.
Qed.

Lemma reaches_Registry allowed s : reaches allowed s → Registry s.
Proof.
  induction 1 as [env admin auditor s t Henv Hc|env c s s' t Hr IH Henv Hc Hal Hx].
  - apply constructor_state in Hc. destruct Hc as (_ & _ & rs & ->).
    apply deployed_Registry.
  - eapply exec_Registry; [exact Henv|exact IH|exact Hx].
Qed.

(** ** Views *)

Lemma escrow_total_split s : escrow_total s = allocated_total s - released_total s.
Proof.
  unfold escrow_total, escrow_sum, allocated_total, released_total.
  change (map_fold (λ _ a acc, acc + escrow a) 0 (assets s))
    with (map_total escrow (assets s)).
  induction (assets s) as [|k a m Hk IH] using map_ind.
  - by rewrite !map_total_empty.
  - rewrite !map_total_insert_fresh by done. unfold escrow at 2. lia.
Qed.

Lemma released_le_allocated_total s : Inv s → released_total s ≤ allocated_total s.
Proof.
  intros HI. apply map_total_le. intros k a Hk.
  destruct (inv_assets s HI k) as [B _ _ _ _ _]. unfold asset in B. rewrite Hk in B.
  cbn in B. lia.
Qed.

(** X2. In every reachable state the platform totals are the sums of the
    per-key records: [totalFundsReleased] is the sum of [releasedFunds] over
    all assets and also the sum of [ngoTotalReceived] over all NGOs,
    [totalFundsAllocated] is the sum of [donorTotalContributed] over all
    donors and bounds the sum of [allocatedFunds] (a refund lowers the
    latter only), and [totalAssetsTracked] is the number of assets, which are
    exactly the ids with a non-zero donor. *)
Theorem platform_totals_are_sums s :
  reachable s →
  totalFundsReleased s = released_total s
  ∧ totalFundsReleased s = received_total s
  ∧ totalFundsAllocated s = contributed_total s
  ∧ allocated_total s ≤ totalFundsAllocated s
  ∧ totalAssetsTracked s = Z.of_nat (size (asset_ids s))
  ∧ (∀ id, id ∈ asset_ids s ↔ donor (asset s id) ≠ 0).
Proof.
  intros Hs. destruct (reaches_Books _ _ Hs) as [B1 B2 B3 B4 B5 B6].
  repeat split; try done; try lia.
  - apply B5.
  - apply in_asset_ids.
Qed.

Lemma platform_totals_are_sums_witness :
  totalFundsReleased at_hub = released_total at_hub
  ∧ totalFundsReleased at_hub = received_total at_hub
  ∧ totalFundsAllocated at_hub = contributed_total at_hub
  ∧ allocated_total at_hub ≤ totalFundsAllocated at_hub
  ∧ totalAssetsTracked at_hub = Z.of_nat (size (asset_ids at_hub))
  ∧ (∀ id, id ∈ asset_ids at_hub ↔ donor (asset at_hub id) ≠ 0).
Proof. apply (platform_totals_are_sums at_hub). by apply at_hub_reachable. Defined.

(** X3. In every reachable state [getPlatformStats] returns the three
    totals and their difference without reverting (the subtraction cannot
    underflow) and changes nothing.  The reported funds in transit are an upper
    bound of the escrow total and of the balance: a refund lowers the escrow
    but not the reported difference. *)
Theorem getPlatformStats_never_reverts s :
  reachable s →
  getPlatformStats s
  = inr ((totalAssetsTracked s, totalFundsAllocated s, totalFundsReleased s,
          totalFundsAllocated s - totalFundsReleased s), s, [])
  ∧ 0 ≤ balance s ≤ escrow_total s
  ∧ escrow_total s ≤ totalFundsAllocated s - totalFundsReleased s.
Proof.
  intros Hs. pose proof (reaches_Inv _ _ Hs) as HI.
  destruct (reaches_Books _ _ Hs) as [B1 B2 B3 B4 B5 B6].
  pose proof (released_le_allocated_total s HI) as Hle.
  pose proof (escrow_total_split s) as Hsplit.
  pose proof (inv_balance s HI) as Hbal.
  split; [|lia].
  unfold getPlatformStats, bind, sload. cbn [id]. rewrite safe_sub_ok by lia. reflexivity.
Qed.

Lemma getPlatformStats_never_reverts_witness :
  getPlatformStats refunded
  = inr ((totalAssetsTracked refunded, totalFundsAllocated refunded,
          totalFundsReleased refunded,
          totalFundsAllocated refunded - totalFundsReleased refunded), refunded, [])
  ∧ 0 ≤ balance refunded ≤ escrow_total refunded
  ∧ escrow_total refunded ≤ totalFundsAllocated refunded - totalFundsReleased refunded.
Proof.
  apply (getPlatformStats_never_reverts refunded).
  apply reaches_step_total; [by apply at_hub_reachable| |exact I|done].
  unfold wf_env. cbn. lia.
Defined.

(** After the refund of the scenario the statistics still count the 600
    refunded units as in transit, while nothing is left in escrow. *)
Example stats_after_refund :
  getPlatformStats refunded = inr ((1, 1000, 400, 600), refunded, [])
  ∧ escrow_total refunded = 0 ∧ balance refunded = 0.
Proof. by vm_compute. Qed.

(** X4. In every reachable state [getAssetHistory] returns the journal of
    the asset without reverting, also for an id that was never initialised
    (the empty journal).  The journal has [scansCount] entries; for an
    existing asset its first entry is the one [initAsset] wrote (donor's
    timestamp and address, stage Warehouse, no photo, no anomaly) and its last
    entry carries the asset's current stage and location. *)
Theorem history_matches_asset s id :
  reachable s →
  ∃ log,
    getAssetHistory id s = inr (log, s, [])
    ∧ scansCount (asset s id) = Z.of_nat (length log)
    ∧ (donor (asset s id) = 0 → log = [])
    ∧ (donor (asset s id) ≠ 0 →
       ∃ first rest last_entry,
         log = first :: rest
         ∧ first = mkScanLog (donorTimestamp (asset s id)) (donor (asset s id))
                     (geoTag first) Warehouse 0 false "Asset initialized"
         ∧ last log = Some last_entry
         ∧ stage last_entry = currentStage (asset s id)
         ∧ geoTag last_entry = currentGeoTag (asset s id)).
Proof.
  intros Hs. pose proof (reaches_Inv _ _ Hs) as HI.
  destruct (reaches_Journal _ _ Hs) as [J1 J2 J3].
  exists (history s id). split; [reflexivity|]. split; [apply J1|]. split.
  - intros Hd. destruct (inv_assets s HI id) as [_ A _ _ _ _]. destruct (A Hd) as [Hz _].
    specialize (J1 id). rewrite Hz in J1. cbn in J1.
    destruct (history s id); [done|cbn in J1; lia].
  - intros Hd. destruct (J3 id Hd) as (e & He & P1 & P2 & P3 & P4 & P5 & P6).
    destruct (J2 id Hd) as (l & Hl & Q1 & Q2).
    destruct (history s id) as [|e0 rest] eqn:Hh; [done|]. cbn in He. injection He as ->.
    exists e, rest, l. repeat split; try done.
    destruct e. cbn in *. by subst.
Qed.

Lemma history_matches_asset_witness :
  ∃ log,
    getAssetHistory shipment at_hub = inr (log, at_hub, [])
    ∧ scansCount (asset at_hub shipment) = Z.of_nat (length log)
    ∧ (donor (asset at_hub shipment) = 0 → log = [])
    ∧ (donor (asset at_hub shipment) ≠ 0 →
       ∃ first rest last_entry,
         log = first :: rest
         ∧ first = mkScanLog (donorTimestamp (asset at_hub shipment))
                     (donor (asset at_hub shipment))
                     (geoTag first) Warehouse 0 false "Asset initialized"
         ∧ last log = Some last_entry
         ∧ stage last_entry = currentStage (asset at_hub shipment)
         ∧ geoTag last_entry = currentGeoTag (asset at_hub shipment)).
Proof. apply (history_matches_asset at_hub shipment). by apply at_hub_reachable. Defined.

(** X5. In every reachable state [getDonorAssets d] returns, without
    reverting, a list without duplicates that holds exactly the ids of the
    assets whose donor is [d]; it is no longer than [totalAssetsTracked]. *)
Theorem donor_assets_are_exact s d :
  reachable s →
  ∃ ids,
    getDonorAssets d s = inr (ids, s, [])
    ∧ NoDup ids
    ∧ (∀ id, id ∈ ids ↔ d ≠ 0 ∧ donor (asset s id) = d)
    ∧ Z.of_nat (length ids) ≤ totalAssetsTracked s.
Proof.
  intros Hs. destruct (reaches_Registry _ _ Hs) as [R1 R2].
  destruct (reaches_Books _ _ Hs) as [_ _ _ _ B5 B6].
  exists (assetsOf s d). split; [reflexivity|]. split; [apply R2|]. split; [apply R1|].
  rewrite B6. apply inj_le.
  rewrite <- (size_list_to_set (C := gset bytes32) (assetsOf s d)) by apply R2.
  apply subseteq_size. intros x Hx. apply elem_of_list_to_set in Hx.
  apply R1 in Hx. destruct Hx as [Hd <-]. by apply in_asset_ids.
Qed.

Lemma donor_assets_are_exact_witness :
  ∃ ids,
    getDonorAssets 10 at_hub = inr (ids, at_hub, [])
    ∧ NoDup ids
    ∧ (∀ id, id ∈ ids ↔ 10 ≠ 0 ∧ donor (asset at_hub id) = 10)
    ∧ Z.of_nat (length ids) ≤ totalAssetsTracked at_hub.
Proof. apply (donor_assets_are_exact at_hub 10). by apply at_hub_reachable. Defined.

(** ** Released milestones are backed by the journal *)

Lemma Backed_ext s s' :
  (∀ id, milestones s' id = milestones s id ∧ history s' id = history s id) →
  Backed s → Backed s'.
Proof.
  intros Hext B id i m. destruct (Hext id) as [-> ->]. apply B.
Qed.

Lemma marks_origin_round id i s0 s :
  round_frame id s0 s ∧ marks_origin id s0 s →
  round_frame id s0 (release_round id i s).1
  ∧ marks_origin id s0 (release_round id i s).1.
Proof.
  intros [F O]. split; [by apply round_frame_round|].
  unfold release_round.
  destruct (milestones s id !! i) as [m0|] eqn:Hm0; [|done].
  destruct (due s (asset s id) m0 && (0 <? release_amount (asset s id) m0)) eqn:Hfire;
    [|done].
  apply andb_prop in Hfire. destruct Hfire as [Hdue _].
  unfold due in Hdue. apply andb_prop in Hdue. destruct Hdue as [Hdue _].
  apply andb_prop in Hdue. destruct Hdue as [Hst _].
  cbn [fst]. intros j m. obs. intros Hj Hm.
  destruct (decide (i = j)) as [->|Hij].
  - rewrite list_lookup_alter_eq, Hm0 in Hj. cbn in Hj. injection Hj as <-.
    right. destruct F as [_ _ _ AA _ _ _ _ _]. rewrite AA in Hst. exact Hst.
  - rewrite list_lookup_alter_ne in Hj by done. by apply O.
Qed.

Lemma marks_origin_rounds id l s :
  marks_origin id s (release_rounds id l s).1.
Proof.
  apply (release_rounds_keeps id (λ s1, round_frame id s s1 ∧ marks_origin id s s1)).
  - intros i s1. apply marks_origin_round.
  - split; [apply round_frame_refl|]. intros i m Hi _. by left.
Qed.

Lemma exec_Backed env c s s' t :
  Inv s → Backed s → exec env c s = inr (s', t) → Backed s'.
Proof.
  intros HI B H.
  summaries H.
  all: unfold created, released_manually, refund_state.
  all: try (refine (Backed_ext _ _ _ B); intros ?; xobs; done).
  - destruct (inv_assets s HI id) as [_ A _ _ _ _]. destruct (A Hnew) as [_ Hms].
    intros x i m. destruct (decide (x = id)) as [->|?]; xobs; [|apply B].
    rewrite Hms. intros Hi Hm. exfalso.
    destruct i as [|[|[|i]]]; cbn in Hi; simplify_eq; done.
  - scan_frame Hd. destruct F as [OA OM HH AA _ _ _ _ _].
    match type of Hr with
    | (_, _) = release_rounds ?id ?l ?s1 =>
        pose proof (marks_origin_rounds id l s1) as O; rewrite <- Hr in O; cbn [fst] in O
    end.
    intros x i m. rewrite HH. destruct (decide (x = id)) as [->|Hne].
    + rewrite history_scanned. intros Hi Hm.
      destruct (O i m Hi Hm) as [Hold|Hst].
      * rewrite milestones_scanned in Hold.
        destruct (B id i m Hold Hm) as (e & He & Hge).
        exists e. split; [|done]. apply elem_of_app. by left.
      * rewrite asset_scanned in Hst. eexists. split.
        -- apply elem_of_app. right. apply list_elem_of_singleton. reflexivity.
        -- destruct (anomaly _ _ _ _); exact Hst.
    + rewrite OM, milestones_scanned, history_scanned_ne by done. apply B.
Qed.

Lemma reaches_Backed allowed s : reaches allowed s → Backed s.
Proof.
  induction 1 as [env admin auditor s t Henv Hc|env c s s' t Hr IH Henv Hc Hal Hx].
  - apply constructor_state in Hc. destruct Hc as (_ & _ & rs & ->).
    intros id i m. unfold milestones. cbn. rewrite lookup_empty. cbn. done.
  - eapply exec_Backed; [|exact IH|exact Hx]. by eapply reaches_Inv.
Qed.

(** X6. In every reachable state [getAssetMilestones] returns, without
    reverting, the empty list for an unknown id and the default pair (Hub 40,
    Beneficiary 60) for an existing asset.  A milestone marked as released is
    backed by the journal: the asset has a scan entry at the milestone's stage
    or beyond.  A manual release marks no milestone. *)
Theorem milestones_backed_by_journal s id :
  reachable s →
  ∃ ms,
    getAssetMilestones id s = inr (ms, s, [])
    ∧ (donor (asset s id) = 0 → ms = [])
    ∧ (donor (asset s id) ≠ 0 →
       ∃ hub_paid delivered,
         ms = [mkMilestone Hub 40 hub_paid; mkMilestone Beneficiary 60 delivered]
         ∧ (hub_paid = true →
            ∃ e, e ∈ history s id ∧ stage_index Hub ≤ stage_index (stage e))
         ∧ (delivered = true → ∃ e, e ∈ history s id ∧ stage e = Beneficiary)).
Proof.
  intros Hs. pose proof (reaches_Inv _ _ Hs) as HI.
  pose proof (reaches_Backed _ _ Hs) as B.
  destruct (inv_assets s HI id) as [_ A MS _ _ _].
  exists (milestones s id). split; [reflexivity|]. split.
  - intros Hd. by destruct (A Hd).
  - intros Hd. destruct (MS Hd) as (b0 & b1 & Hms). exists b0, b1.
    split; [done|]. split.
    + intros ->. destruct (B id 0%nat (mkMilestone Hub 40 true)) as (e & He & Hge).
      * by rewrite Hms.
      * done.
      * exists e. split; [done|]. unfold stage_ge in Hge. by apply Z.leb_le in Hge.
    + intros ->. destruct (B id 1%nat (mkMilestone Beneficiary 60 true)) as (e & He & Hge).
      * by rewrite Hms.
      * done.
      * exists e. split; [done|]. unfold stage_ge in Hge. apply Z.leb_le in Hge.
        destruct (stage e); cbn in Hge; (done || lia).
Qed.

Lemma milestones_backed_by_journal_witness :
  ∃ ms,
    getAssetMilestones shipment at_hub = inr (ms, at_hub, [])
    ∧ (donor (asset at_hub shipment) = 0 → ms = [])
    ∧ (donor (asset at_hub shipment) ≠ 0 →
       ∃ hub_paid delivered,
         ms = [mkMilestone Hub 40 hub_paid; mkMilestone Beneficiary 60 delivered]
         ∧ (hub_paid = true →
            ∃ e, e ∈ history at_hub shipment ∧ stage_index Hub ≤ stage_index (stage e))
         ∧ (delivered = true → ∃ e, e ∈ history at_hub shipment ∧ stage e = Beneficiary)).
Proof.
  apply (milestones_backed_by_journal at_hub shipment). by apply at_hub_reachable.
Defined.

(** X7. A successful [initAsset] in a reachable state writes the asset
    record (allocated [msg.value], released 0, scan count 1, stage Warehouse,
    neither flagged nor refunded, the sender as donor), the two default
    milestones, a journal of one entry, appends the id to the sender's
    register, adds the value to the sender's total, to the allocated total and
    to the balance, counts one more asset, and emits [AssetInitialized]; it
    transfers nothing and leaves the roles, the threshold, the released total,
    the NGO totals and every other asset and donor as they were. *)
Theorem initAsset_creates env v id desc ngo geo s s' t :
  reachable s →
  exec env (InitAsset v id desc ngo geo) s = inr (s', t) →
  asset s' id = mkAsset v 0 1 (block_timestamp env) desc geo Warehouse false false
                  (msg_sender env) ngo
  ∧ milestones s' id = [mkMilestone Hub 40 false; mkMilestone Beneficiary 60 false]
  ∧ history s' id = [mkScanLog (block_timestamp env) (msg_sender env) geo Warehouse 0 false
                       "Asset initialized"]
  ∧ assetsOf s' (msg_sender env) = assetsOf s (msg_sender env) ++ [id]
  ∧ donorContributed s' (msg_sender env) = donorContributed s (msg_sender env) + v
  ∧ totalAssetsTracked s' = totalAssetsTracked s + 1
  ∧ totalFundsAllocated s' = totalFundsAllocated s + v
  ∧ totalFundsReleased s' = totalFundsReleased s
  ∧ balance s' = balance s + v
  ∧ minScansForFirstPayout s' = minScansForFirstPayout s
  ∧ (∀ ro a, hasRole s' ro a = hasRole s ro a)
  ∧ (∀ a, ngoReceived s' a = ngoReceived s a)
  ∧ (∀ id', id' ≠ id →
       asset s' id' = asset s id' ∧ milestones s' id' = milestones s id'
       ∧ history s' id' = history s id')
  ∧ (∀ d, d ≠ msg_sender env →
       assetsOf s' d = assetsOf s d ∧ donorContributed s' d = donorContributed s d)
  ∧ transfers t = []
  ∧ In (EEmit (AssetInitialized id (msg_sender env) ngo v desc)) t.
Proof.
  intros Hs H. pose proof (reaches_Inv _ _ Hs) as HI.
  destruct (reaches_Journal _ _ Hs) as [J1 _ _].
  apply exec_inr_dispatch in H. cbn [dispatch] in H. apply initAsset_inr in H.
  destruct H as (Hid & Hv & Hngo & Hreg & Hnew & Hc1 & Hc2 & Hc3 & -> & ->).
  destruct (inv_assets s HI id) as [_ A _ _ _ _]. destruct (A Hnew) as [Hz Hms].
  assert (Hnil : history s id = []).
  { specialize (J1 id). rewrite Hz in J1. cbn in J1.
    destruct (history s id); [done|cbn in J1; lia]. }
  unfold created, initial_entry.
  repeat split; intros; xobs; rewrite ?Hz, ?Hms, ?Hnil; try done.
  all: try (by case_decide).
  unfold created_effects. cbn. do 16 right. by left.
Qed.

Lemma initAsset_creates_witness :
  asset funded shipment = mkAsset 1000 0 1 100 "1000 food packets" "Depot A" Warehouse
                            false false 10 50
  ∧ milestones funded shipment = [mkMilestone Hub 40 false; mkMilestone Beneficiary 60 false]
  ∧ history funded shipment = [mkScanLog 100 10 "Depot A" Warehouse 0 false
                                 "Asset initialized"]
  ∧ assetsOf funded 10 = assetsOf (run setup genesis) 10 ++ [shipment]
  ∧ donorContributed funded 10 = donorContributed (run setup genesis) 10 + 1000
  ∧ totalAssetsTracked funded = totalAssetsTracked (run setup genesis) + 1
  ∧ totalFundsAllocated funded = totalFundsAllocated (run setup genesis) + 1000
  ∧ totalFundsReleased funded = totalFundsReleased (run setup genesis)
  ∧ balance funded = balance (run setup genesis) + 1000
  ∧ minScansForFirstPayout funded = minScansForFirstPayout (run setup genesis)
  ∧ (∀ ro a, hasRole funded ro a = hasRole (run setup genesis) ro a)
  ∧ (∀ a, ngoReceived funded a = ngoReceived (run setup genesis) a)
  ∧ (∀ id', id' ≠ shipment →
       asset funded id' = asset (run setup genesis) id'
       ∧ milestones funded id' = milestones (run setup genesis) id'
       ∧ history funded id' = history (run setup genesis) id')
  ∧ (∀ d, d ≠ 10 →
       assetsOf funded d = assetsOf (run setup genesis) d
       ∧ donorContributed funded d = donorContributed (run setup genesis) d)
  ∧ transfers (effects_of (platform 10 100)
                 (InitAsset 1000 shipment "1000 food packets" 50 "Depot A")
                 (run setup genesis)) = []
  ∧ In (EEmit (AssetInitialized shipment 10 50 1000 "1000 food packets"))
       (effects_of (platform 10 100)
          (InitAsset 1000 shipment "1000 food packets" 50 "Depot A") (run setup genesis)).
Proof.
  apply (initAsset_creates (platform 10 100) 1000 shipment "1000 food packets" 50 "Depot A"
           (run setup genesis) funded).
  - apply reaches_run; [apply genesis_reachable|]. unfold setup. wf_txs.
  - vm_compute. reflexivity.
Defined.

(** ** What never changes, what only grows *)

Lemma exec_profile env c s s' t x :
  exec env c s = inr (s', t) → donor (asset s x) ≠ 0 →
  donor (asset s' x) = donor (asset s x)
  ∧ assignedNGO (asset s' x) = assignedNGO (asset s x)
  ∧ donorTimestamp (asset s' x) = donorTimestamp (asset s x)
  ∧ assetDescription (asset s' x) = assetDescription (asset s x)
  ∧ allocatedFunds (asset s' x) ≤ allocatedFunds (asset s x).
Proof.
  intros H Hx.
  summaries H.
  all: unfold created, released_manually, refund_state.
  all: try (by xobs).
  - scan_frame Hd. destruct F as [OA _ _ AA _ _ _ _ _].
    destruct (decide (x = id)) as [->|Hne].
    + rewrite AA, asset_scanned. destruct (anomaly _ _ _ _); done.
    + rewrite OA, asset_scanned_ne by done. done.
  - destruct (decide (x = id)) as [->|?]; by xobs.
  - destruct (decide (x = id)) as [->|?]; by xobs.
  - destruct (decide (x = id)) as [->|?]; by xobs.
  - destruct (decide (x = id)) as [->|?]; xobs; repeat split; (done || lia).
Qed.

Lemma step_profile env c s x :
  donor (asset s x) ≠ 0 →
  donor (asset (step env c s) x) = donor (asset s x)
  ∧ assignedNGO (asset (step env c s) x) = assignedNGO (asset s x)
  ∧ donorTimestamp (asset (step env c s) x) = donorTimestamp (asset s x)
  ∧ assetDescription (asset (step env c s) x) = assetDescription (asset s x)
  ∧ allocatedFunds (asset (step env c s) x) ≤ allocatedFunds (asset s x).
Proof.
  intros Hx. unfold step. destruct (exec env c s) as [e|[s' t]] eqn:H; [done|].
  by eapply exec_profile.
Qed.

Lemma run_profile txs s x :
  donor (asset s x) ≠ 0 →
  donor (asset (run txs s) x) = donor (asset s x)
  ∧ assignedNGO (asset (run txs s) x) = assignedNGO (asset s x)
  ∧ donorTimestamp (asset (run txs s) x) = donorTimestamp (asset s x)
  ∧ assetDescription (asset (run txs s) x) = assetDescription (asset s x)
  ∧ allocatedFunds (asset (run txs s) x) ≤ allocatedFunds (asset s x).
Proof.
  revert s. induction txs as [|[env c] txs IH]; intros s Hx; cbn; [done|].
  destruct (step_profile env c s x Hx) as (P1 & P2 & P3 & P4 & P5).
  destruct (IH (step env c s)) as (Q1 & Q2 & Q3 & Q4 & Q5); [congruence|].
  rewrite Q1, Q2, Q3, Q4, P1, P2, P3, P4. repeat split; try done. lia.
Qed.

(** X8. Whatever transactions follow, an existing asset keeps its donor,
    its NGO, its creation time and its description; its allocated funds never
    increase; and [initAsset] for its id reverts in every later state, so an
    asset cannot be created twice or topped up. *)
Theorem asset_identity_is_permanent txs s id :
  donor (asset s id) ≠ 0 →
  donor (asset (run txs s) id) = donor (asset s id)
  ∧ assignedNGO (asset (run txs s) id) = assignedNGO (asset s id)
  ∧ donorTimestamp (asset (run txs s) id) = donorTimestamp (asset s id)
  ∧ assetDescription (asset (run txs s) id) = assetDescription (asset s id)
  ∧ allocatedFunds (asset (run txs s) id) ≤ allocatedFunds (asset s id)
  ∧ (∀ env v desc ngo geo,
       ∃ e, exec env (InitAsset v id desc ngo geo) (run txs s) = inl e).
Proof.
  intros Hx. destruct (run_profile txs s id Hx) as (P1 & P2 & P3 & P4 & P5).
  repeat split; try done.
  intros env v desc ngo geo.
  destruct (exec env (InitAsset v id desc ngo geo) (run txs s)) as [e|[s' t]] eqn:H;
    [by exists e|].
  exfalso. apply exec_inr_dispatch in H. cbn [dispatch] in H. apply initAsset_inr in H.
  destruct H as (_ & _ & _ & _ & Hnew & _). congruence.
Qed.

Lemma asset_identity_is_permanent_witness :
  donor (asset (run [to_hub; to_beneficiary] funded) shipment) = donor (asset funded shipment)
  ∧ assignedNGO (asset (run [to_hub; to_beneficiary] funded) shipment)
    = assignedNGO (asset funded shipment)
  ∧ donorTimestamp (asset (run [to_hub; to_beneficiary] funded) shipment)
    = donorTimestamp (asset funded shipment)
  ∧ assetDescription (asset (run [to_hub; to_beneficiary] funded) shipment)
    = assetDescription (asset funded shipment)
  ∧ allocatedFunds (asset (run [to_hub; to_beneficiary] funded) shipment)
    ≤ allocatedFunds (asset funded shipment)
  ∧ (∀ env v desc ngo geo,
       ∃ e, exec env (InitAsset v shipment desc ngo geo)
              (run [to_hub; to_beneficiary] funded) = inl e).
Proof.
  apply (asset_identity_is_permanent [to_hub; to_beneficiary] funded shipment).
  vm_compute. discriminate.
Defined.

Lemma release_rounds_totals_grow id l s :
  totalFundsReleased s ≤ totalFundsReleased (release_rounds id l s).1
  ∧ ∀ a, ngoReceived s a ≤ ngoReceived (release_rounds id l s).1 a.
Proof.
  apply (release_rounds_keeps id
           (λ s1, totalFundsReleased s ≤ totalFundsReleased s1
                  ∧ ∀ a, ngoReceived s a ≤ ngoReceived s1 a)); [|done].
  intros i s1 [H1 H2]. unfold release_round.
  destruct (milestones s1 id !! i) as [m|]; [|done].
  destruct (due s1 (asset s1 id) m && (0 <? release_amount (asset s1 id) m)) eqn:Hfire;
    [|done].
  apply andb_prop in Hfire. destruct Hfire as [_ Hpos]. apply Z.ltb_lt in Hpos.
  cbn [fst]. split; [xobs; lia|]. intros a. specialize (H2 a). xobs.
  case_decide; [subst|]; lia.
Qed.

Lemma exec_grows env c s s' t :
  exec env c s = inr (s', t) →
  (∀ x, history s x `prefix_of` history s' x)
  ∧ (∀ x, releasedFunds (asset s x) ≤ releasedFunds (asset s' x))
  ∧ totalFundsReleased s ≤ totalFundsReleased s'
  ∧ totalFundsAllocated s ≤ totalFundsAllocated s'
  ∧ totalAssetsTracked s ≤ totalAssetsTracked s'
  ∧ (∀ a, ngoReceived s a ≤ ngoReceived s' a)
  ∧ (∀ d, donorContributed s d ≤ donorContributed s' d).
Proof.
  intros H.
  summaries H.
  all: unfold created, released_manually, refund_state.
  all: try (by repeat split; intros; xobs).
  - repeat split; intros; xobs; try lia.
    + destruct (decide (x = id)) as [->|?]; xobs; [by apply prefix_app_r|done].
    + destruct (decide (x = id)) as [->|?]; by xobs.
    + case_decide; [subst|]; lia.
  - scan_frame Hd. destruct F as [OA _ HH AA RR _ _ _ _].
    match type of Hr with
    | (_, _) = release_rounds ?id ?l ?s1 =>
        pose proof (release_rounds_totals_grow id l s1) as G; rewrite <- Hr in G;
        cbn [fst] in G;
        pose proof (books_frame_rounds id l s1) as K; rewrite <- Hr in K; cbn [fst] in K
    end.
    destruct G as [G1 G2]. destruct K as [_ _ _ _ K5 K6 _ _ K9].
    destruct (scanned_frame env id newGeoTag newStage photo note s)
      as (_ & _ & S3 & S4 & _ & S6).
    rewrite totalFundsReleased_scanned in G1.
    repeat split.
    + intros x. rewrite HH. destruct (decide (x = id)) as [->|Hne].
      * rewrite history_scanned. by apply prefix_app_r.
      * by rewrite history_scanned_ne.
    + intros x. destruct (decide (x = id)) as [->|Hne].
      * etrans; [|exact RR]. rewrite asset_scanned. destruct (anomaly _ _ _ _); done.
      * rewrite OA, asset_scanned_ne by done. done.
    + done.
    + rewrite K5, S3. done.
    + rewrite K6, S4. done.
    + intros a. specialize (G2 a). by rewrite ngoReceived_scanned in G2.
    + intros d. rewrite K9, S6. done.
  - repeat split; intros; xobs; try done; try lia.
    + destruct (decide (x = id)) as [->|?]; xobs; [cbn; lia|done].
    + case_decide; [subst|]; lia.
  - repeat split; intros; xobs; try done.
    destruct (decide (x = id)) as [->|?]; by xobs.
  - repeat split; intros; xobs; try done.
    destruct (decide (x = id)) as [->|?]; by xobs.
  - repeat split; intros; xobs; try done.
    destruct (decide (x = id)) as [->|?]; by xobs.
Qed.

(** X9. Over any sequence of transactions the records only grow: the
    journal of every asset is extended at its end (no entry is changed or
    removed), and the released funds of every asset, the released and
    allocated totals, the asset counter and the totals of every NGO and donor
    never decrease. *)
Theorem records_only_grow txs s :
  (∀ id, history s id `prefix_of` history (run txs s) id)
  ∧ (∀ id, releasedFunds (asset s id) ≤ releasedFunds (asset (run txs s) id))
  ∧ totalFundsReleased s ≤ totalFundsReleased (run txs s)
  ∧ totalFundsAllocated s ≤ totalFundsAllocated (run txs s)
  ∧ totalAssetsTracked s ≤ totalAssetsTracked (run txs s)
  ∧ (∀ a, ngoReceived s a ≤ ngoReceived (run txs s) a)
  ∧ (∀ d, donorContributed s d ≤ donorContributed (run txs s) d).
Proof.
  revert s. induction txs as [|[env c] txs IH]; intros s; cbn [run]; [done|].
  assert (Hstep : (∀ x, history s x `prefix_of` history (step env c s) x)
    ∧ (∀ x, releasedFunds (asset s x) ≤ releasedFunds (asset (step env c s) x))
    ∧ totalFundsReleased s ≤ totalFundsReleased (step env c s)
    ∧ totalFundsAllocated s ≤ totalFundsAllocated (step env c s)
    ∧ totalAssetsTracked s ≤ totalAssetsTracked (step env c s)
    ∧ (∀ a, ngoReceived s a ≤ ngoReceived (step env c s) a)
    ∧ (∀ d, donorContributed s d ≤ donorContributed (step env c s) d)).
  { unfold step. destruct (exec env c s) as [e|[s' t]] eqn:H; [done|].
    by eapply exec_grows. }
  destruct Hstep as (P1 & P2 & P3 & P4 & P5 & P6 & P7).
  destruct (IH (step env c s)) as (Q1 & Q2 & Q3 & Q4 & Q5 & Q6 & Q7).
  repeat split; intros; try lia.
  - etrans; [apply P1|apply Q1].
  - etrans; [apply P2|apply Q2].
  - etrans; [apply P6|apply Q6].
  - etrans; [apply P7|apply Q7].
Qed.

(** ** Flags *)

Lemma upd_asset_upd_asset id f g s :
  upd_asset id f (upd_asset id g s) = upd_asset id (λ a, f (g a)) s.
Proof.
  unfold upd_asset at 1 3. rewrite asset_upd_asset_eq.
  unfold upd_asset. cbn. by rewrite insert_insert_eq.
Qed.

Lemma upd_asset_same id f s :
  donor (asset s id) ≠ 0 → f (asset s id) = asset s id → upd_asset id f s = s.
Proof.
  intros Hd Hf. unfold upd_asset. rewrite Hf. unfold asset in *.
  destruct (assets s !! id) as [a|] eqn:Ha; [|done]. cbn.
  rewrite insert_id by done. by destruct s.
Qed.

(** X10. After an auditor flagged an unflagged asset, flagging it again
    succeeds and changes nothing, and [unflagAsset] by an auditor restores the
    state before the flag exactly; each emits its event. *)
Theorem flag_unflag_round_trip env1 env2 id reason s s1 t1 :
  isFlagged (asset s id) = false →
  exec env1 (FlagAsset id reason) s = inr (s1, t1) →
  hasRole s AUDITOR_ROLE (msg_sender env2) = true →
  isFlagged (asset s1 id) = true
  ∧ (∀ reason', exec env2 (FlagAsset id reason') s1
       = inr (s1, [EWrite (SIsFlagged id); EEmit (AssetFlagged id (msg_sender env2) reason')]))
  ∧ exec env2 (UnflagAsset id) s1
    = inr (s, [EWrite (SIsFlagged id); EEmit (AssetUnflagged id (msg_sender env2))]).
Proof.
  intros Hfl H Hrole. apply exec_inr_dispatch in H. cbn [dispatch] in H.
  apply flagAsset_inr in H. destruct H as (_ & Hex & -> & ->).
  assert (Hex1 : donor (asset (upd_asset id (set_isFlagged true) s) id) ≠ 0) by (by xobs).
  split; [by xobs|]. split.
  - intros reason'. apply exec_inr_dispatch. cbn [dispatch]. unfold flagAsset.
    run_to; [|reflexivity].
    apply upd_asset_same; [done|]. by xobs.
  - apply exec_inr_dispatch. cbn [dispatch]. unfold unflagAsset.
    run_to; [|reflexivity].
    rewrite upd_asset_upd_asset. apply upd_asset_same; [done|].
    destruct (asset s id). cbn in *. by subst.
Qed.

Lemma flag_unflag_round_trip_witness :
  isFlagged (asset (run [audit_flag] at_hub) shipment) = true
  ∧ (∀ reason', exec auditor (FlagAsset shipment reason') (run [audit_flag] at_hub)
       = inr (run [audit_flag] at_hub,
              [EWrite (SIsFlagged shipment);
               EEmit (AssetFlagged shipment (msg_sender auditor) reason')]))
  ∧ exec auditor (UnflagAsset shipment) (run [audit_flag] at_hub)
    = inr (at_hub, [EWrite (SIsFlagged shipment);
                    EEmit (AssetUnflagged shipment (msg_sender auditor))]).
Proof.
  apply (flag_unflag_round_trip audit_flag.1 auditor shipment "audit" at_hub
           (run [audit_flag] at_hub)
           (effects_of audit_flag.1 audit_flag.2 at_hub)).
  - vm_compute. reflexivity.
  - vm_compute. reflexivity.
  - vm_compute. reflexivity.
Defined.

(** ** The totals cannot overflow *)

Lemma escrow_le_total s id : Inv s → escrow (asset s id) ≤ escrow_total s.
Proof.
  intros HI.
  assert (Hnn : ∀ k a, assets s !! k = Some a → 0 ≤ escrow a).
  { intros k a Hk. destruct (inv_assets s HI k) as [B _ _ _ _ _].
    unfold asset in B. rewrite Hk in B. cbn in B. unfold escrow. lia. }
  unfold escrow_total, escrow_sum.
  change (map_fold (λ _ a acc, acc + escrow a) 0 (assets s))
    with (map_total escrow (assets s)).
  unfold asset. destruct (assets s !! id) as [a|] eqn:Ha; cbn.
  - by eapply map_total_lookup_le.
  - change (escrow zero_asset) with 0. by apply map_total_nonneg.
Qed.

(** Without an emergency withdrawal the balance covers what is left of
    every asset. *)
Lemma remainder_covered s id :
  reaches not_emergency s →
  allocatedFunds (asset s id) - releasedFunds (asset s id) ≤ balance s.
Proof.
  intros Hs. pose proof (reaches_Inv _ _ Hs) as HI.
  pose proof (escrowed_balance s Hs) as Hbal.
  pose proof (escrow_le_total s id HI) as Hx. unfold escrow in Hx. lia.
Qed.

Lemma reaches_allocated_cap allowed s :
  reaches allowed s → 0 ≤ totalFundsAllocated s ≤ MAX_UINT256.
Proof.
  induction 1 as [env admin auditor s t Henv Hc|env c s s' t Hreach IH Henv Hc Hal Hx].
  - apply constructor_state in Hc. destruct Hc as (_ & _ & rs & ->).
    unfold MAX_UINT256. cbn. lia.
  - pose proof (exec_grows _ _ _ _ _ Hx) as (_ & _ & _ & Hg & _).
    split; [lia|]. clear Hg.
    summaries Hx.
    all: unfold created, released_manually, refund_state.
    all: try (xobs; lia).
    scan_frame Hd.
    match type of Hr with
    | (_, _) = release_rounds ?id ?l ?s1 =>
        pose proof (books_frame_rounds id l s1) as K; rewrite <- Hr in K; cbn [fst] in K
    end.
    destruct K as [_ _ _ _ K5 _ _ _ _].
    destruct (scanned_frame env id newGeoTag newStage photo note s)
      as (_ & _ & S3 & _).
    rewrite K5, S3. lia.
Qed.

Lemma reaches_received_nonneg allowed s a : reaches allowed s → 0 ≤ ngoReceived s a.
Proof.
  induction 1 as [env admin auditor s t Henv Hc|env c s s' t Hr IH Henv Hc Hal Hx].
  - apply constructor_state in Hc. destruct Hc as (_ & _ & rs & ->).
    unfold ngoReceived. cbn. rewrite lookup_empty. done.
  - pose proof (exec_grows _ _ _ _ _ Hx) as (_ & _ & _ & _ & _ & Hg & _).
    specialize (Hg a). lia.
Qed.

Lemma received_le_total allowed s a :
  reaches allowed s → ngoReceived s a ≤ totalFundsReleased s.
Proof.
  intros Hs. destruct (reaches_Books _ _ Hs) as [_ B2 _ _ _ _]. rewrite <- B2.
  assert (Hnn : ∀ k v, ngoTotalReceived s !! k = Some v → 0 ≤ v).
  { intros k v Hk. pose proof (reaches_received_nonneg _ _ k Hs) as Hn.
    unfold ngoReceived in Hn. by rewrite Hk in Hn. }
  unfold received_total, ngoReceived.
  destruct (ngoTotalReceived s !! a) as [v|] eqn:Ha; cbn.
  - by apply (map_total_lookup_le (λ v : uint256, v) _ a).
  - by apply map_total_nonneg.
Qed.

(** Paying out of the escrow of an asset cannot overflow a counter. *)
Lemma payout_fits allowed s id r amount :
  reaches allowed s →
  amount ≤ allocatedFunds (asset s id) - releasedFunds (asset s id) →
  releasedFunds (asset s id) + amount ≤ MAX_UINT256
  ∧ totalFundsReleased s + amount ≤ MAX_UINT256
  ∧ ngoReceived s r + amount ≤ MAX_UINT256.
Proof.
  intros Hs Ham. pose proof (reaches_Inv _ _ Hs) as HI.
  destruct (reaches_Books _ _ Hs) as [B1 _ _ B4 _ _].
  pose proof (reaches_allocated_cap _ _ Hs) as Hcap.
  pose proof (received_le_total _ _ r Hs) as Hrec.
  pose proof (escrow_le_total s id HI) as Hesc. unfold escrow in Hesc.
  pose proof (escrow_total_split s) as Hsplit.
  destruct (inv_assets s HI id) as [B _ _ _ _ _]. lia.
Qed.

(** X11. In a reachable state [manualReleaseFunds] succeeds exactly when
    the sender is an auditor, the asset exists, the amount is positive and at
    most the remaining funds, the balance covers it and the recipient accepts
    it; the counters cannot overflow.  It then adds the amount to the asset's
    released funds, to the recipient's total (whoever the recipient is) and to
    the released total, pays the recipient, and marks no milestone and logs no
    scan.  A flag or a refund mark does not block it.  Otherwise the first
    failing check decides the error: missing role, asset not initialised,
    insufficient funds, amount not positive, transfer failed. *)
Theorem manual_release_outcome env id r amount s :
  reachable s →
  ((∃ s' t, exec env (ManualReleaseFunds id r amount) s = inr (s', t)) ↔
     hasRole s AUDITOR_ROLE (msg_sender env) = true
     ∧ donor (asset s id) ≠ 0
     ∧ 0 < amount ≤ allocatedFunds (asset s id) - releasedFunds (asset s id)
     ∧ amount ≤ balance s
     ∧ accepts env r amount = true)
  ∧ (∀ s' t, exec env (ManualReleaseFunds id r amount) s = inr (s', t) →
       asset s' id = set_releasedFunds (releasedFunds (asset s id) + amount) (asset s id)
       ∧ milestones s' id = milestones s id
       ∧ history s' id = history s id
       ∧ balance s' = balance s - amount
       ∧ ngoReceived s' r = ngoReceived s r + amount
       ∧ totalFundsReleased s' = totalFundsReleased s + amount
       ∧ transfers t = [(r, amount)])
  ∧ (hasRole s AUDITOR_ROLE (msg_sender env) = false →
     exec env (ManualReleaseFunds id r amount) s = inl (MissingRole AUDITOR_ROLE))
  ∧ (hasRole s AUDITOR_ROLE (msg_sender env) = true → donor (asset s id) = 0 →
     exec env (ManualReleaseFunds id r amount) s = inl AssetNotInitialized)
  ∧ (hasRole s AUDITOR_ROLE (msg_sender env) = true → donor (asset s id) ≠ 0 →
     allocatedFunds (asset s id) - releasedFunds (asset s id) < amount →
     exec env (ManualReleaseFunds id r amount) s = inl InsufficientFunds)
  ∧ (hasRole s AUDITOR_ROLE (msg_sender env) = true → donor (asset s id) ≠ 0 →
     amount ≤ allocatedFunds (asset s id) - releasedFunds (asset s id) → amount ≤ 0 →
     exec env (ManualReleaseFunds id r amount) s = inl AmountMustBePositive)
  ∧ (hasRole s AUDITOR_ROLE (msg_sender env) = true → donor (asset s id) ≠ 0 →
     0 < amount ≤ allocatedFunds (asset s id) - releasedFunds (asset s id) →
     (amount <=? balance s) && accepts env r amount = false →
     exec env (ManualReleaseFunds id r amount) s = inl TransferFailed).
Proof.
  intros Hs. pose proof (reaches_Inv _ _ Hs) as HI.
  pose proof (inv_guard s HI) as Hg.
  destruct (inv_assets s HI id) as [B _ _ _ _ _].
  split; [split|split].
  - intros (s' & t & H). apply exec_inr_dispatch in H. cbn [dispatch] in H.
    apply manualReleaseFunds_inr in H. tauto.
  - intros (Hrole & Hex & Ham & Hbal & Hacc).
    destruct (payout_fits _ s id r amount Hs ltac:(lia)) as (F1 & F2 & F3).
    do 2 eexists. apply exec_inr_dispatch. cbn [dispatch]. unfold manualReleaseFunds.
    fwd.
  - intros s' t H. apply exec_inr_dispatch in H. cbn [dispatch] in H.
    apply manualReleaseFunds_inr in H.
    destruct H as (_ & _ & _ & _ & _ & _ & _ & _ & _ & _ & -> & ->).
    unfold released_manually. repeat split; xobs; try done. by case_decide.
  - repeat split; intros; apply exec_inl_dispatch; cbn [dispatch];
      unfold manualReleaseFunds.
    + run_all.
    + run_all.
    + run_all.
    + run_all.
    + destruct (payout_fits _ s id r amount Hs ltac:(lia)) as (F1 & F2 & F3). run_all.
Qed.

Lemma manual_release_outcome_witness :
  reachable at_hub
  ∧ ((∃ s' t, exec auditor (ManualReleaseFunds shipment 50 100) at_hub = inr (s', t)) ↔
       hasRole at_hub AUDITOR_ROLE (msg_sender auditor) = true
       ∧ donor (asset at_hub shipment) ≠ 0
       ∧ 0 < 100 ≤ allocatedFunds (asset at_hub shipment) - releasedFunds (asset at_hub shipment)
       ∧ 100 ≤ balance at_hub
       ∧ accepts auditor 50 100 = true).
Proof.
  assert (R : reachable at_hub) by (by apply at_hub_reachable).
  split; [exact R|].
  exact (proj1 (manual_release_outcome auditor shipment 50 100 at_hub R)).
Defined.

(** ** Scans and payouts *)

(** The scan rule on any asset: the amounts of the two milestones. *)
Lemma scan_payout allowed env id geo st photo note s b0 b1 :
  reaches allowed s →
  hasRole s SCANNER_ROLE (msg_sender env) = true →
  donor (asset s id) ≠ 0 →
  isFlagged (asset s id) = false →
  milestones s id = [mkMilestone Hub 40 b0; mkMilestone Beneficiary 60 b1] →
  scansCount (asset s id) < MAX_UINT256 →
  allocatedFunds (asset s id) * 60 ≤ MAX_UINT256 →
  ∀ a0 a1,
  a0 = milestone_amount
         (is_due (minScansForFirstPayout s) (scansCount (asset s id) + 1) st Hub b0)
         (allocatedFunds (asset s id)) (releasedFunds (asset s id)) 40 →
  a1 = milestone_amount
         (is_due (minScansForFirstPayout s) (scansCount (asset s id) + 1) st Beneficiary b1)
         (allocatedFunds (asset s id)) (releasedFunds (asset s id) + a0) 60 →
  a0 + a1 ≤ balance s →
  (0 < a0 → accepts env (assignedNGO (asset s id)) a0 = true) →
  (0 < a1 → accepts env (assignedNGO (asset s id)) a1 = true) →
  ∃ s' t,
    exec env (ScanAsset id geo st photo note) s = inr (s', t)
    ∧ transfers t = payment (assignedNGO (asset s id)) a0
                    ++ payment (assignedNGO (asset s id)) a1
    ∧ releasedFunds (asset s' id) = releasedFunds (asset s id) + a0 + a1
    ∧ allocatedFunds (asset s' id) = allocatedFunds (asset s id)
    ∧ milestones s' id = [mkMilestone Hub 40 (b0 || (0 <? a0));
                          mkMilestone Beneficiary 60 (b1 || (0 <? a1))]
    ∧ isFlagged (asset s' id) = anomaly (asset s id) geo st photo
    ∧ currentStage (asset s' id) = st
    ∧ scansCount (asset s' id) = scansCount (asset s id) + 1
    ∧ balance s' = balance s - a0 - a1
    ∧ a0 + a1 ≤ allocatedFunds (asset s id) - releasedFunds (asset s id).
Proof.
  intros Hs Hrole Hex Hfl Hms Hcnt Hmul a0 a1 Ha0 Ha1 Hbal Hacc0 Hacc1.
  pose proof (reaches_Inv _ _ Hs) as HI.
  destruct (inv_assets s HI id) as [B _ _ _ _ _].
  pose proof (milestone_amount_nonneg
                (is_due (minScansForFirstPayout s) (scansCount (asset s id) + 1) st Hub b0)
                (allocatedFunds (asset s id)) (releasedFunds (asset s id)) 40) as N0.
  pose proof (milestone_amount_le
                (is_due (minScansForFirstPayout s) (scansCount (asset s id) + 1) st Hub b0)
                (allocatedFunds (asset s id)) (releasedFunds (asset s id)) 40
                ltac:(lia)) as L0.
  rewrite <- Ha0 in N0, L0.
  pose proof (milestone_amount_nonneg
                (is_due (minScansForFirstPayout s) (scansCount (asset s id) + 1) st
                   Beneficiary b1)
                (allocatedFunds (asset s id)) (releasedFunds (asset s id) + a0) 60) as N1.
  pose proof (milestone_amount_le
                (is_due (minScansForFirstPayout s) (scansCount (asset s id) + 1) st
                   Beneficiary b1)
                (allocatedFunds (asset s id)) (releasedFunds (asset s id) + a0) 60
                ltac:(lia)) as L1.
  rewrite <- Ha1 in N1, L1.
  destruct (payout_fits _ s id (assignedNGO (asset s id)) (a0 + a1) Hs ltac:(lia))
    as (F1 & F2 & F3).
  destruct (scan_default env id geo st photo note s b0 b1
              (allocatedFunds (asset s id)) (releasedFunds (asset s id))
              (minScansForFirstPayout s) (scansCount (asset s id) + 1)
              (assignedNGO (asset s id)) a0 a1)
    as (s' & t & X & T & A & M & Bal & _); try done; try lia.
  exists s', t. rewrite asset_scanned in A.
  repeat split; try done; try lia.
  all: rewrite A; destruct (anomaly (asset s id) geo st photo); cbn; (done || lia).
Qed.

(** ** C2: the amounts of the two milestone scans *)

(** C2, amended. In every reachable state, for an existing and unflagged
    asset with allocated funds [F] and released funds [r], scanned by a
    scanner so that the scan count reaches the threshold: a scan to Hub, the
    Hub milestone being unreleased, releases min(floor(F * 40 / 100), F - r)
    to the NGO, which is exactly floor(F * 40 / 100) when nothing was released
    before and less when an earlier manual release left less; a scan to
    Beneficiary, the Hub milestone being released and the Beneficiary
    milestone not, releases min(floor(F * 60 / 100), F - r), which for
    r = floor(F * 40 / 100) is floor(F * 60 / 100): the remainder [F - r]
    exactly when 5 divides [F], and less otherwise.  Each scan succeeds when
    the balance covers the amount and the NGO accepts it, whether or not it
    raises an anomaly.  The engine rule for one milestone: the amount is
    floor(allocated * percentage / 100), reduced to [allocated - released]
    when it would overshoot; a positive amount is transferred and marks the
    milestone, a zero amount changes nothing. *)
Theorem milestone_release_amounts env id geo photo note s b0 b1 :
  reachable s →
  hasRole s SCANNER_ROLE (msg_sender env) = true →
  donor (asset s id) ≠ 0 →
  isFlagged (asset s id) = false →
  scansCount (asset s id) < MAX_UINT256 →
  allocatedFunds (asset s id) * 60 ≤ MAX_UINT256 →
  milestones s id = [mkMilestone Hub 40 b0; mkMilestone Beneficiary 60 b1] →
  minScansForFirstPayout s ≤ scansCount (asset s id) + 1 →
  (b0 = false →
   ∀ a, a = Z.min (allocatedFunds (asset s id) * 40 / 100)
              (allocatedFunds (asset s id) - releasedFunds (asset s id)) →
     a ≤ balance s →
     (0 < a → accepts env (assignedNGO (asset s id)) a = true) →
     (∃ s' t,
        exec env (ScanAsset id geo Hub photo note) s = inr (s', t)
        ∧ transfers t = payment (assignedNGO (asset s id)) a
        ∧ releasedFunds (asset s' id) = releasedFunds (asset s id) + a
        ∧ milestones s' id
          = [mkMilestone Hub 40 (0 <? a); mkMilestone Beneficiary 60 b1])
     ∧ (releasedFunds (asset s id) = 0 → a = allocatedFunds (asset s id) * 40 / 100))
  ∧ (b0 = true → b1 = false →
     ∀ a, a = Z.min (allocatedFunds (asset s id) * 60 / 100)
                (allocatedFunds (asset s id) - releasedFunds (asset s id)) →
       a ≤ balance s →
       (0 < a → accepts env (assignedNGO (asset s id)) a = true) →
       (∃ s' t,
          exec env (ScanAsset id geo Beneficiary photo note) s = inr (s', t)
          ∧ transfers t = payment (assignedNGO (asset s id)) a
          ∧ releasedFunds (asset s' id) = releasedFunds (asset s id) + a
          ∧ milestones s' id
            = [mkMilestone Hub 40 true; mkMilestone Beneficiary 60 (0 <? a)])
       ∧ (releasedFunds (asset s id) = allocatedFunds (asset s id) * 40 / 100 →
          a = allocatedFunds (asset s id) * 60 / 100
          ∧ (a = allocatedFunds (asset s id) - releasedFunds (asset s id)
             ↔ allocatedFunds (asset s id) mod 5 = 0)))
  ∧ (∀ env i s m u s' t,
       milestones s id !! i = Some m →
       release_milestone env id i s = inr (u, s', t) →
       let a := asset s id in
       let amt := Z.min (allocatedFunds a * releasePercentage m / 100)
                        (allocatedFunds a - releasedFunds a) in
       if due s a m && (0 <? amt)
       then transfers t = [(assignedNGO a, amt)]
            ∧ releasedFunds (asset s' id) = releasedFunds a + amt
            ∧ releasedFunds (asset s' id) ≤ allocatedFunds (asset s' id)
            ∧ milestones s' id !! i = Some (set_isReleased true m)
       else s' = s ∧ t = []).
Proof.
  intros Hs Hrole Hex Hfl Hcnt Hmul Hms Hk.
  pose proof (reaches_Inv _ _ Hs) as HI.
  destruct (inv_assets s HI id) as [[B Bmax] _ _ _ _ _].
  pose proof (percent_le (allocatedFunds (asset s id)) 40 ltac:(lia) ltac:(lia)) as Q0.
  pose proof (percent_le (allocatedFunds (asset s id)) 60 ltac:(lia) ltac:(lia)) as Q1.
  pose proof (split_40_60 (allocatedFunds (asset s id)) ltac:(lia)) as Q2.
  apply Z.leb_le in Hk.
  split; [|split].
  - intros -> a Ha Hbal Hacc.
    assert (E0 : milestone_amount
                   (is_due (minScansForFirstPayout s) (scansCount (asset s id) + 1) Hub Hub
                      false)
                   (allocatedFunds (asset s id)) (releasedFunds (asset s id)) 40 = a).
    { unfold milestone_amount, is_due. rewrite Hk. cbn. lia. }
    assert (E1 : milestone_amount
                   (is_due (minScansForFirstPayout s) (scansCount (asset s id) + 1) Hub
                      Beneficiary b1)
                   (allocatedFunds (asset s id)) (releasedFunds (asset s id) + a) 60 = 0).
    { unfold milestone_amount, is_due. by cbn. }
    destruct (scan_payout _ env id geo Hub photo note s false b1 Hs Hrole Hex Hfl Hms Hcnt
                Hmul a 0)
      as (s' & t & X & T & R & _ & M & _);
      [by rewrite E0|by rewrite E1|lia|exact Hacc|lia|].
    split; [|intros Hr0; rewrite Hr0 in Ha; lia].
    exists s', t. split; [exact X|]. split.
    + rewrite T. unfold payment at 2. cbn. by rewrite app_nil_r.
    + split; [lia|]. rewrite M. cbn. by rewrite orb_false_r.
  - intros -> -> a Ha Hbal Hacc.
    assert (E0 : milestone_amount
                   (is_due (minScansForFirstPayout s) (scansCount (asset s id) + 1)
                      Beneficiary Hub true)
                   (allocatedFunds (asset s id)) (releasedFunds (asset s id)) 40 = 0).
    { unfold milestone_amount, is_due. by cbn. }
    assert (E1 : milestone_amount
                   (is_due (minScansForFirstPayout s) (scansCount (asset s id) + 1)
                      Beneficiary Beneficiary false)
                   (allocatedFunds (asset s id)) (releasedFunds (asset s id) + 0) 60 = a).
    { unfold milestone_amount, is_due. rewrite Hk. cbn. lia. }
    destruct (scan_payout _ env id geo Beneficiary photo note s true false Hs Hrole Hex Hfl
                Hms Hcnt Hmul 0 a)
      as (s' & t & X & T & R & _ & M & _);
      [by rewrite E0|by rewrite E1|lia|lia|exact Hacc|].
    split.
    + exists s', t. split; [exact X|]. split; [by rewrite T|].
      split; [lia|]. by rewrite M.
    + intros Hr. rewrite Hr in Ha |- *.
      assert (Ea : a = allocatedFunds (asset s id) * 60 / 100) by lia.
      split; [exact Ea|]. rewrite Ea. apply remainder_iff_multiple_of_5.
  - intros env' i s0 m u s' t Hm H. by eapply release_milestone_rule.
Qed.

Lemma milestone_release_amounts_witness :
  (∃ s' t,
     exec to_hub.1 (ScanAsset shipment "Hub B" Hub 99 "arrived at hub") funded = inr (s', t)
     ∧ transfers t = payment (assignedNGO (asset funded shipment)) 400
     ∧ releasedFunds (asset s' shipment) = releasedFunds (asset funded shipment) + 400
     ∧ milestones s' shipment
       = [mkMilestone Hub 40 (0 <? 400); mkMilestone Beneficiary 60 false])
  ∧ (∃ s' t,
       exec to_beneficiary.1 (ScanAsset shipment "Village C" Beneficiary 98 "delivered")
         at_hub = inr (s', t)
       ∧ transfers t = payment (assignedNGO (asset at_hub shipment)) 600
       ∧ releasedFunds (asset s' shipment) = releasedFunds (asset at_hub shipment) + 600
       ∧ milestones s' shipment
         = [mkMilestone Hub 40 true; mkMilestone Beneficiary 60 (0 <? 600)]).
Proof.
  split.
  - destruct (milestone_release_amounts to_hub.1 shipment "Hub B" 99 "arrived at hub"
                funded false false) as [H _].
    + exact funded_reachable.
    + vm_compute. reflexivity.
    + vm_compute. discriminate.
    + vm_compute. reflexivity.
    + vm_compute. reflexivity.
    + vm_compute. discriminate.
    + vm_compute. reflexivity.
    + vm_compute. discriminate.
    + destruct (H eq_refl 400) as [H1 _].
      * vm_compute. reflexivity.
      * vm_compute. discriminate.
      * intros _. reflexivity.
      * exact H1.
  - destruct (milestone_release_amounts to_beneficiary.1 shipment "Village C" 98 "delivered"
                at_hub true false) as (_ & H & _).
    + by apply at_hub_reachable.
    + vm_compute. reflexivity.
    + vm_compute. discriminate.
    + vm_compute. reflexivity.
    + vm_compute. reflexivity.
    + vm_compute. discriminate.
    + vm_compute. reflexivity.
    + vm_compute. discriminate.
    + destruct (H eq_refl eq_refl 600) as [H1 _].
      * vm_compute. reflexivity.
      * vm_compute. discriminate.
      * intros _. reflexivity.
      * exact H1.
Defined.

(** ** The scan rule in general *)

(** X12. The scan rule.  For a scan by a scanner of an existing, unflagged
    asset in a state reached without an emergency withdrawal, let [a0] and
    [a1] be the amounts of the Hub and the Beneficiary milestone: the floor
    of 40% (60%) of the allocated funds, capped by the remaining funds, when
    the milestone is unreleased, the new stage has reached it and the new
    scan count has reached the threshold, and zero otherwise.  Together they
    never exceed the remaining funds, which the balance covers.  When the
    NGO accepts them, and the scan raises no anomaly or pays at most one of
    the two milestones, the scan succeeds, pays them in this order, adds them
    to the released funds, marks the milestones paid, and flags the asset
    exactly when the scan is anomalous. *)
Theorem scan_pays_due_milestones env id geo st photo note s :
  reaches not_emergency s →
  hasRole s SCANNER_ROLE (msg_sender env) = true →
  donor (asset s id) ≠ 0 →
  isFlagged (asset s id) = false →
  scansCount (asset s id) < MAX_UINT256 →
  allocatedFunds (asset s id) * 60 ≤ MAX_UINT256 →
  ∃ b0 b1 a0 a1,
    milestones s id = [mkMilestone Hub 40 b0; mkMilestone Beneficiary 60 b1]
    ∧ a0 = milestone_amount
             (is_due (minScansForFirstPayout s) (scansCount (asset s id) + 1) st Hub b0)
             (allocatedFunds (asset s id)) (releasedFunds (asset s id)) 40
    ∧ a1 = milestone_amount
             (is_due (minScansForFirstPayout s) (scansCount (asset s id) + 1) st
                Beneficiary b1)
             (allocatedFunds (asset s id)) (releasedFunds (asset s id) + a0) 60
    ∧ a0 + a1 ≤ allocatedFunds (asset s id) - releasedFunds (asset s id)
    ∧ ((0 < a0 → accepts env (assignedNGO (asset s id)) a0 = true) →
       (0 < a1 → accepts env (assignedNGO (asset s id)) a1 = true) →
       anomaly (asset s id) geo st photo = false ∨ a0 = 0 ∨ a1 = 0 →
       ∃ s' t,
         exec env (ScanAsset id geo st photo note) s = inr (s', t)
         ∧ transfers t = payment (assignedNGO (asset s id)) a0
                         ++ payment (assignedNGO (asset s id)) a1
         ∧ releasedFunds (asset s' id) = releasedFunds (asset s id) + a0 + a1
         ∧ milestones s' id = [mkMilestone Hub 40 (b0 || (0 <? a0));
                               mkMilestone Beneficiary 60 (b1 || (0 <? a1))]
         ∧ isFlagged (asset s' id) = anomaly (asset s id) geo st photo).
Proof.
  intros Hs Hrole Hex Hfl Hcnt Hmul. pose proof (reaches_Inv _ _ Hs) as HI.
  destruct (inv_assets s HI id) as [B _ MS _ _ _].
  destruct (MS Hex) as (b0 & b1 & Hms).
  eexists b0, b1, _, _. split; [done|]. split; [reflexivity|]. split; [reflexivity|].
  pose proof (milestone_amount_nonneg
                (is_due (minScansForFirstPayout s) (scansCount (asset s id) + 1) st Hub b0)
                (allocatedFunds (asset s id)) (releasedFunds (asset s id)) 40) as N0.
  pose proof (milestone_amount_le
                (is_due (minScansForFirstPayout s) (scansCount (asset s id) + 1) st Hub b0)
                (allocatedFunds (asset s id)) (releasedFunds (asset s id)) 40
                ltac:(lia)) as L0.
  assert (Hle : ∀ d, milestone_amount
                       (is_due (minScansForFirstPayout s) (scansCount (asset s id) + 1) st
                          Hub b0)
                       (allocatedFunds (asset s id)) (releasedFunds (asset s id)) 40
                     + milestone_amount d (allocatedFunds (asset s id))
                         (releasedFunds (asset s id)
                          + milestone_amount
                              (is_due (minScansForFirstPayout s)
                                 (scansCount (asset s id) + 1) st Hub b0)
                              (allocatedFunds (asset s id)) (releasedFunds (asset s id)) 40)
                         60
                     ≤ allocatedFunds (asset s id) - releasedFunds (asset s id)).
  { intros d.
    match goal with |- _ + ?x ≤ _ =>
      match x with milestone_amount ?d ?F ?r ?p =>
        pose proof (milestone_amount_le d F r p ltac:(lia)) end end. lia. }
  split; [apply Hle|].
  intros Hacc0 Hacc1 _.
  pose proof (remainder_covered s id Hs) as Hcov.
  destruct (scan_payout _ env id geo st photo note s b0 b1 Hs Hrole Hex Hfl Hms Hcnt Hmul
              _ _ eq_refl eq_refl)
    as (s' & t & X & T & R & _ & M & Fl & _); [|exact Hacc0|exact Hacc1|].
  { etrans; [apply Hle|exact Hcov]. }
  by exists s', t.
Qed.

Lemma scan_pays_due_milestones_witness :
  ∃ b0 b1 a0 a1,
    milestones funded shipment = [mkMilestone Hub 40 b0; mkMilestone Beneficiary 60 b1]
    ∧ a0 = milestone_amount
             (is_due (minScansForFirstPayout funded)
                (scansCount (asset funded shipment) + 1) Hub Hub b0)
             (allocatedFunds (asset funded shipment))
             (releasedFunds (asset funded shipment)) 40
    ∧ a1 = milestone_amount
             (is_due (minScansForFirstPayout funded)
                (scansCount (asset funded shipment) + 1) Hub Beneficiary b1)
             (allocatedFunds (asset funded shipment))
             (releasedFunds (asset funded shipment) + a0) 60
    ∧ a0 + a1 ≤ allocatedFunds (asset funded shipment)
                - releasedFunds (asset funded shipment)
    ∧ ((0 < a0 → accepts to_hub.1 (assignedNGO (asset funded shipment)) a0 = true) →
       (0 < a1 → accepts to_hub.1 (assignedNGO (asset funded shipment)) a1 = true) →
       anomaly (asset funded shipment) "Hub B" Hub 99 = false ∨ a0 = 0 ∨ a1 = 0 →
       ∃ s' t,
         exec to_hub.1 (ScanAsset shipment "Hub B" Hub 99 "arrived at hub") funded
           = inr (s', t)
         ∧ transfers t = payment (assignedNGO (asset funded shipment)) a0
                         ++ payment (assignedNGO (asset funded shipment)) a1
         ∧ releasedFunds (asset s' shipment)
           = releasedFunds (asset funded shipment) + a0 + a1
         ∧ milestones s' shipment = [mkMilestone Hub 40 (b0 || (0 <? a0));
                                     mkMilestone Beneficiary 60 (b1 || (0 <? a1))]
         ∧ isFlagged (asset s' shipment)
           = anomaly (asset funded shipment) "Hub B" Hub 99).
Proof.
  apply (scan_pays_due_milestones to_hub.1 shipment "Hub B" Hub 99 "arrived at hub" funded).
  - exact funded_escrowed.
  - vm_compute. reflexivity.
  - vm_compute. discriminate.
  - vm_compute. reflexivity.
  - vm_compute. reflexivity.
  - vm_compute. discriminate.
Defined.

(** The first scan of a new asset. *)
Lemma first_scan env0 env1 F id desc ngo geo0 geo1 st photo1 note1 s s0 t0 a0 a1 :
  reachable s → wf_env env0 →
  exec env0 (InitAsset F id desc ngo geo0) s = inr (s0, t0) →
  F * 60 ≤ MAX_UINT256 →
  hasRole s SCANNER_ROLE (msg_sender env1) = true →
  a0 = milestone_amount (is_due (minScansForFirstPayout s) 2 st Hub false) F 0 40 →
  a1 = milestone_amount (is_due (minScansForFirstPayout s) 2 st Beneficiary false) F a0 60 →
  (0 < a0 → accepts env1 ngo a0 = true) →
  (0 < a1 → accepts env1 ngo a1 = true) →
  ∃ s1 t1,
    exec env1 (ScanAsset id geo1 st photo1 note1) s0 = inr (s1, t1)
    ∧ transfers t1 = payment ngo a0 ++ payment ngo a1
    ∧ releasedFunds (asset s1 id) = a0 + a1
    ∧ allocatedFunds (asset s1 id) = F
    ∧ milestones s1 id = [mkMilestone Hub 40 (0 <? a0); mkMilestone Beneficiary 60 (0 <? a1)]
    ∧ isFlagged (asset s1 id) = anomaly (asset s0 id) geo1 st photo1
    ∧ currentStage (asset s1 id) = st
    ∧ scansCount (asset s1 id) = 2
    ∧ a0 + a1 ≤ F.
Proof.
  intros Hs Henv0 Hinit Hmul Hrole Ha0 Ha1 Hacc0 Hacc1.
  pose proof (reaches_Inv _ _ Hs) as HI.
  destruct (init_exec _ _ _ _ _ _ _ _ _ HI Hinit) as
    (HF & IA & IR & ID & IN & IS & IG & IC & IFl & IM & IB & INR & ITR & IK & IRo).
  assert (Hs0 : reachable s0).
  { eapply reaches_step; [exact Hs|exact Henv0| |done|exact Hinit]. cbn. lia. }
  pose proof (inv_balance s HI) as Hbal.
  assert (Hmax : 1 < MAX_UINT256) by (unfold MAX_UINT256; lia).
  destruct Henv0 as [Hsender _].
  destruct (scan_payout _ env1 id geo1 st photo1 note1 s0 false false Hs0) with
    (a0 := a0) (a1 := a1) as (s1 & t1 & X & T & R & A & M & Fl & St & Cn & _ & Le);
    rewrite ?IRo, ?ID, ?IA, ?IR, ?IC, ?IK, ?IN, ?IB, ?Z.add_0_l; try done; try lia.
  - pose proof (milestone_amount_le
                  (is_due (minScansForFirstPayout s) 2 st Hub false) F 0 40 ltac:(lia)).
    pose proof (milestone_amount_nonneg
                  (is_due (minScansForFirstPayout s) 2 st Hub false) F 0 40).
    pose proof (milestone_amount_le
                  (is_due (minScansForFirstPayout s) 2 st Beneficiary false) F a0 60
                  ltac:(lia)).
    lia.
  - exists s1, t1. rewrite IN in T. rewrite IR in R. rewrite IA in A, Le.
    rewrite IR in Le. rewrite IC in Cn.
    repeat split; try done; lia.
Qed.

Lemma direct_amounts k F :
  k ≤ 2 → 0 ≤ F →
  milestone_amount (is_due k 2 Beneficiary Hub false) F 0 40 = F * 40 / 100
  ∧ milestone_amount (is_due k 2 Beneficiary Beneficiary false) F (F * 40 / 100) 60
    = F * 60 / 100.
Proof.
  intros Hk HF. pose proof (percent_le F 40 HF ltac:(lia)).
  pose proof (percent_le F 60 HF ltac:(lia)). pose proof (split_40_60 F HF).
  unfold milestone_amount, is_due. apply Z.leb_le in Hk. rewrite Hk. cbn. lia.
Qed.

(** X13. Stages can be skipped.  The first scan of a new asset, created in
    a state reached without an emergency withdrawal, may report Beneficiary
    directly: when it raises no anomaly (a new location and a photo), with a
    threshold of at most two scans, it pays the Hub and the Beneficiary
    milestone in one transaction, floor of 40% and floor of 60% of the
    funding, and leaves the asset unflagged. *)
Theorem direct_delivery_pays_both_milestones env0 env1 F id desc ngo geo0 geo1 photo1 note1
    s s0 t0 :
  reaches not_emergency s → wf_env env0 →
  exec env0 (InitAsset F id desc ngo geo0) s = inr (s0, t0) →
  F * 60 ≤ MAX_UINT256 →
  minScansForFirstPayout s ≤ 2 →
  hasRole s SCANNER_ROLE (msg_sender env1) = true →
  geo1 ≠ geo0 → photo1 ≠ 0 →
  (0 < F * 40 / 100 → accepts env1 ngo (F * 40 / 100) = true) →
  (0 < F * 60 / 100 → accepts env1 ngo (F * 60 / 100) = true) →
  ∃ s1 t1,
    exec env1 (ScanAsset id geo1 Beneficiary photo1 note1) s0 = inr (s1, t1)
    ∧ transfers t1 = payment ngo (F * 40 / 100) ++ payment ngo (F * 60 / 100)
    ∧ releasedFunds (asset s1 id) = F * 40 / 100 + F * 60 / 100
    ∧ milestones s1 id = [mkMilestone Hub 40 (0 <? F * 40 / 100);
                          mkMilestone Beneficiary 60 (0 <? F * 60 / 100)]
    ∧ isFlagged (asset s1 id) = false.
Proof.
  intros Hs Henv0 Hinit Hmul Hk Hrole Hgeo Hphoto Hacc0 Hacc1.
  apply reaches_reachable in Hs.
  pose proof (reaches_Inv _ _ Hs) as HI.
  destruct (init_exec _ _ _ _ _ _ _ _ _ HI Hinit) as
    (HF & _ & _ & _ & _ & IS & IG & _).
  destruct (direct_amounts (minScansForFirstPayout s) F Hk ltac:(lia)) as [D0 D1].
  destruct (first_scan env0 env1 F id desc ngo geo0 geo1 Beneficiary photo1 note1 s s0 t0
              (F * 40 / 100) (F * 60 / 100))
    as (s1 & t1 & X & T & R & _ & M & Fl & _); try done.
  exists s1, t1. repeat split; try done.
  rewrite Fl. destruct (anomaly (asset s0 id) geo1 Beneficiary photo1) eqn:Han; [|done].
  apply anomaly_true in Han. rewrite IS, IG in Han.
  destruct Han as [Han|[[-> _]|[_ ->]]]; [cbn in Han; lia|done|done].
Qed.

Lemma direct_delivery_pays_both_milestones_witness :
  ∃ s1 t1,
    exec to_beneficiary.1 (ScanAsset shipment "Village C" Beneficiary 98 "delivered") funded
      = inr (s1, t1)
    ∧ transfers t1 = payment 50 (1000 * 40 / 100) ++ payment 50 (1000 * 60 / 100)
    ∧ releasedFunds (asset s1 shipment) = 1000 * 40 / 100 + 1000 * 60 / 100
    ∧ milestones s1 shipment = [mkMilestone Hub 40 (0 <? 1000 * 40 / 100);
                                mkMilestone Beneficiary 60 (0 <? 1000 * 60 / 100)]
    ∧ isFlagged (asset s1 shipment) = false.
Proof.
  apply (direct_delivery_pays_both_milestones (platform 10 100) to_beneficiary.1 1000
           shipment "1000 food packets" 50 "Depot A" "Village C" 98 "delivered"
           (run setup genesis) funded
           (effects_of (platform 10 100)
              (InitAsset 1000 shipment "1000 food packets" 50 "Depot A")
              (run setup genesis))).
  - exact setup_escrowed.
  - unfold wf_env. cbn. lia.
  - vm_compute. reflexivity.
  - unfold MAX_UINT256. lia.
  - vm_compute. discriminate.
  - vm_compute. reflexivity.
  - discriminate.
  - discriminate.
  - reflexivity.
  - reflexivity.
Defined.



(** ** Access control *)

(** X15. Access control comes first.  Every guarded entry point
    ([scanAsset]: scanner; [manualReleaseFunds], [flagAsset], [unflagAsset]:
    auditor; [addScanner], [addNGO], [updateMinScans]: admin;
    [emergencyWithdraw]: default admin; granting and revoking: the role's
    admin) reverts with the missing-role error for a sender without the role,
    whatever the arguments and the state, and succeeds only for a holder. *)
Theorem role_is_checked_first env c s r :
  required_role c = Some r →
  (hasRole s r (msg_sender env) = false → exec env c s = inl (MissingRole r))
  ∧ (∀ s' t, exec env c s = inr (s', t) → hasRole s r (msg_sender env) = true).
Proof.
  intros Hc. split.
  - intros Hno. apply exec_inl_dispatch.
    destruct c; cbn [required_role] in Hc; try discriminate Hc; injection Hc as <-;
      cbn [dispatch].
    + unfold scanAsset. run_all.
    + unfold manualReleaseFunds. run_all.
    + unfold flagAsset. run_all.
    + unfold unflagAsset. run_all.
    + unfold addScanner. run_all.
    + unfold addNGO. run_all.
    + unfold updateMinScans. run_all.
    + unfold grantRole. run_all.
    + unfold revokeRole. run_all.
    + unfold emergencyWithdraw. run_all.
  - intros s' t H. destruct (hasRole s r (msg_sender env)) eqn:Hr; [done|].
    exfalso. apply exec_inr_dispatch in H.
    destruct c; cbn [required_role] in Hc; try discriminate Hc; injection Hc as <-;
      cbn [dispatch] in H;
      unfold scanAsset, manualReleaseFunds, flagAsset, unflagAsset, addScanner, addNGO,
        updateMinScans, grantRole, revokeRole, emergencyWithdraw in H;
      apply bind_inr in H; destruct H as (? & ? & ? & ? & H1 & _ & _);
      unfold onlyRole in H1; minv; congruence.
Qed.

Lemma role_is_checked_first_witness :
  (hasRole at_hub SCANNER_ROLE (msg_sender administrator) = false →
   exec administrator late_scan.2 at_hub = inl (MissingRole SCANNER_ROLE))
  ∧ (∀ s' t, exec administrator late_scan.2 at_hub = inr (s', t) →
       hasRole at_hub SCANNER_ROLE (msg_sender administrator) = true).
Proof. apply (role_is_checked_first administrator late_scan.2 at_hub). reflexivity. Defined.

Lemma release_round_quiet id i s :
  transfers (release_round id i s).2 = [] → release_round id i s = (s, []).
Proof.
  unfold release_round. destruct (milestones s id !! i) as [m|]; [|done].
  cbn zeta. destruct (due s (asset s id) m && (0 <? release_amount (asset s id) m));
    [discriminate|done].
Qed.

Lemma release_rounds_quiet id l s :
  transfers (release_rounds id l s).2 = [] → release_rounds id l s = (s, []).
Proof.
  revert s. induction l as [|i l IH]; intros s H; cbn [release_rounds] in *; [done|].
  destruct (release_round id i s) as [s1 t1] eqn:E1.
  destruct (release_rounds id l s1) as [s2 t2] eqn:E2. cbn [snd] in H.
  rewrite transfers_app in H. apply app_eq_nil in H. destruct H as [H1 H2].
  pose proof (release_round_quiet id i s) as Q1. rewrite E1 in Q1.
  injection (Q1 H1) as -> ->.
  pose proof (IH s) as Q2. rewrite E2 in Q2. injection (Q2 H2) as -> ->. done.
Qed.

(** A scan that transfers nothing only records the scan. *)
Lemma quiet_scan env id geo st photo note s s' t :
  exec env (ScanAsset id geo st photo note) s = inr (s', t) → transfers t = [] →
  s' = scanned env id geo st photo note s.
Proof.
  intros H Ht. apply exec_inr_dispatch in H. cbn [dispatch] in H.
  apply scanAsset_inr in H. destruct H as (_ & _ & _ & _ & _ & t2 & Hr & ->).
  rewrite transfers_app, transfers_scan_effects in Ht. cbn [app] in Ht.
  pose proof (release_rounds_quiet id (seq 0 (length (milestones s id)))
                (scanned env id geo st photo note s)) as Q.
  rewrite <- Hr in Q. by injection (Q Ht).
Qed.

(** X16. What a successful call that transfers nothing leaves alone.
    Only the role functions change role membership; only [updateMinScans]
    changes the threshold; the record, the milestones and the journal of no
    asset but the target change; only [initAsset] changes the asset counter,
    the allocated total, the donors' registers and totals, the balance, the
    milestone lists and the allocated funds of an asset; and the released
    total, the NGO totals and the released funds of every asset stay as they
    were. *)
Theorem calls_leave_the_rest_alone env c s s' t :
  exec env c s = inr (s', t) → transfers t = [] →
  (manages_roles c = false → ∀ r a, hasRole s' r a = hasRole s r a)
  ∧ (sets_threshold c = false → minScansForFirstPayout s' = minScansForFirstPayout s)
  ∧ (∀ id, target c ≠ Some id →
       asset s' id = asset s id ∧ milestones s' id = milestones s id
       ∧ history s' id = history s id)
  ∧ (is_init c = false →
       totalAssetsTracked s' = totalAssetsTracked s
       ∧ totalFundsAllocated s' = totalFundsAllocated s
       ∧ (∀ d, assetsOf s' d = assetsOf s d ∧ donorContributed s' d = donorContributed s d)
       ∧ balance s' = balance s
       ∧ (∀ id, milestones s' id = milestones s id
                ∧ allocatedFunds (asset s' id) = allocatedFunds (asset s id)))
  ∧ totalFundsReleased s' = totalFundsReleased s
  ∧ (∀ a, ngoReceived s' a = ngoReceived s a)
  ∧ (∀ id, releasedFunds (asset s' id) = releasedFunds (asset s id)).
Proof.
  intros H Ht.
  assert (Hscan : ∀ id geo st photo note,
             c = ScanAsset id geo st photo note →
             s' = scanned env id geo st photo note s).
  { intros id geo st photo note ->. by eapply quiet_scan. }
  split; [|split; [|split; [intros id Hid; by eapply exec_frame|]]].
  - intros Hc. summaries H; try discriminate Hc; try discriminate Ht.
    all: unfold created.
    all: try (by intros; xobs).
    rewrite (Hscan _ _ _ _ _ eq_refl). intros r a. apply hasRole_scanned.
  - intros Hc. summaries H; try discriminate Hc; try discriminate Ht.
    all: unfold created.
    all: try (by xobs).
    rewrite (Hscan _ _ _ _ _ eq_refl). apply minScans_scanned.
  - summaries H; try discriminate Ht.
    all: unfold created.
    all: try (by split; [intros Hc|]; repeat split; intros; xobs).
    + split; [intros Hc; discriminate Hc|].
      split; [by xobs|]. split; [intros; by xobs|].
      intros id0. destruct (decide (id0 = id)) as [->|?]; by xobs.
    + rewrite (Hscan _ _ _ _ _ eq_refl).
      destruct (scanned_frame env id newGeoTag newStage photo note s)
        as (_ & _ & S3 & S4 & S5 & S6).
      assert (HA : ∀ id0, allocatedFunds (asset (scanned env id newGeoTag newStage photo
                                                   note s) id0)
                          = allocatedFunds (asset s id0)
                          ∧ releasedFunds (asset (scanned env id newGeoTag newStage photo
                                                    note s) id0)
                            = releasedFunds (asset s id0)).
      { intros id0. destruct (decide (id0 = id)) as [->|Hne].
        - rewrite asset_scanned. by destruct (anomaly _ _ _ _).
        - by rewrite asset_scanned_ne. }
      split.
      { intros _. rewrite S3, S4, balance_scanned.
        repeat split; try done; try apply S5; try apply S6.
        - apply milestones_scanned.
        - apply HA. }
      rewrite totalFundsReleased_scanned. split; [done|].
      split; [intros a; apply ngoReceived_scanned|]. intros id0. apply HA.
    + split; [intros _|]; repeat split; intros; xobs; try done.
      all: match goal with |- context [asset _ ?x] =>
             destruct (decide (x = id)) as [->|?]; by xobs end.
    + split; [intros _|]; repeat split; intros; xobs; try done.
      all: match goal with |- context [asset _ ?x] =>
             destruct (decide (x = id)) as [->|?]; by xobs end.
Qed.

Lemma calls_leave_the_rest_alone_witness :
  (manages_roles audit_flag.2 = false →
   ∀ r a, hasRole (run [audit_flag] at_hub) r a = hasRole at_hub r a)
  ∧ (sets_threshold audit_flag.2 = false →
     minScansForFirstPayout (run [audit_flag] at_hub) = minScansForFirstPayout at_hub)
  ∧ (∀ id, target audit_flag.2 ≠ Some id →
       asset (run [audit_flag] at_hub) id = asset at_hub id
       ∧ milestones (run [audit_flag] at_hub) id = milestones at_hub id
       ∧ history (run [audit_flag] at_hub) id = history at_hub id)
  ∧ (is_init audit_flag.2 = false →
       totalAssetsTracked (run [audit_flag] at_hub) = totalAssetsTracked at_hub
       ∧ totalFundsAllocated (run [audit_flag] at_hub) = totalFundsAllocated at_hub
       ∧ (∀ d, assetsOf (run [audit_flag] at_hub) d = assetsOf at_hub d
               ∧ donorContributed (run [audit_flag] at_hub) d = donorContributed at_hub d)
       ∧ balance (run [audit_flag] at_hub) = balance at_hub
       ∧ (∀ id, milestones (run [audit_flag] at_hub) id = milestones at_hub id
                ∧ allocatedFunds (asset (run [audit_flag] at_hub) id)
                  = allocatedFunds (asset at_hub id)))
  ∧ totalFundsReleased (run [audit_flag] at_hub) = totalFundsReleased at_hub
  ∧ (∀ a, ngoReceived (run [audit_flag] at_hub) a = ngoReceived at_hub a)
  ∧ (∀ id, releasedFunds (asset (run [audit_flag] at_hub) id)
           = releasedFunds (asset at_hub id)).
Proof.
  apply (calls_leave_the_rest_alone audit_flag.1 audit_flag.2 at_hub
           (run [audit_flag] at_hub) (effects_of audit_flag.1 audit_flag.2 at_hub)).
  - vm_compute. reflexivity.
  - vm_compute. reflexivity.
Defined.

(** ** Progress *)

(** X17. For an existing asset of a reachable state with non-zero
    allocated funds (and 100 times the released funds within [uint256]),
    [getAssetProgress] returns 25 times the stage index and the floor of the
    released percentage; both lie between 0 and 100, the first is 100 exactly
    at the Beneficiary stage, the second exactly when everything allocated has
    been released. *)
Theorem getAssetProgress_in_range id s :
  reachable s →
  donor (asset s id) ≠ 0 →
  allocatedFunds (asset s id) ≠ 0 →
  releasedFunds (asset s id) * 100 ≤ MAX_UINT256 →
  ∃ p f,
    getAssetProgress id s = inr ((p, f), s, [])
    ∧ p = stage_index (currentStage (asset s id)) * 25
    ∧ f = releasedFunds (asset s id) * 100 / allocatedFunds (asset s id)
    ∧ 0 ≤ p ≤ 100 ∧ 0 ≤ f ≤ 100
    ∧ (p = 100 ↔ currentStage (asset s id) = Beneficiary)
    ∧ (f = 100 ↔ releasedFunds (asset s id) = allocatedFunds (asset s id)).
Proof.
  intros Hs Hex Hz Hmul. pose proof (reaches_Inv _ _ Hs) as HI.
  destruct (inv_assets s HI id) as [B _ _ _ _ _].
  do 2 eexists. split; [unfold getAssetProgress; run_to; reflexivity|].
  split.
  { destruct (currentStage (asset s id)); reflexivity. }
  split; [reflexivity|].
  assert (Hf : 0 ≤ releasedFunds (asset s id) * 100 / allocatedFunds (asset s id) ≤ 100).
  { split; [apply Z.div_pos; lia|]. apply Z.div_le_upper_bound; nia. }
  repeat split; try lia.
  - destruct (currentStage (asset s id)); by vm_compute.
  - destruct (currentStage (asset s id)); by vm_compute.
  - destruct (currentStage (asset s id)); vm_compute; intros; (done || discriminate).
  - intros ->. reflexivity.
  - intros Hq.
    pose proof (Z.mul_div_le (releasedFunds (asset s id) * 100)
                  (allocatedFunds (asset s id)) ltac:(lia)) as H1.
    rewrite Hq in H1. lia.
  - intros ->. rewrite Z.mul_comm. by apply Z.div_mul.
Qed.

Lemma getAssetProgress_in_range_witness :
  ∃ p f,
    getAssetProgress shipment at_hub = inr ((p, f), at_hub, [])
    ∧ p = stage_index (currentStage (asset at_hub shipment)) * 25
    ∧ f = releasedFunds (asset at_hub shipment) * 100 / allocatedFunds (asset at_hub shipment)
    ∧ 0 ≤ p ≤ 100 ∧ 0 ≤ f ≤ 100
    ∧ (p = 100 ↔ currentStage (asset at_hub shipment) = Beneficiary)
    ∧ (f = 100 ↔ releasedFunds (asset at_hub shipment) = allocatedFunds (asset at_hub shipment)).
Proof.
  apply (getAssetProgress_in_range shipment at_hub).
  - by apply at_hub_reachable.
  - vm_compute. discriminate.
  - vm_compute. discriminate.
  - vm_compute. discriminate.
Defined.

(** In the scenario: the hub is half way, 40% of the funds are released. *)
Example progress_at_the_hub : getAssetProgress shipment at_hub = inr ((50, 40), at_hub, []).
Proof. by vm_compute. Qed.

(** ** Solvency *)

(** X18. As long as no emergency withdrawal has run, the balance covers
    the remaining funds of every asset.  Hence a refund whose checks pass
    succeeds whenever the donor accepts the transfer, and a manual release of a
    positive amount within the remaining funds succeeds whenever the recipient
    accepts it: they never fail for lack of balance. *)
Theorem payouts_are_funded_without_withdrawal env id s :
  reaches not_emergency s →
  (∀ x, allocatedFunds (asset s x) - releasedFunds (asset s x) ≤ balance s)
  ∧ (donor (asset s id) ≠ 0 → donor (asset s id) = msg_sender env →
     isRefunded (asset s id) = false → refund_eligible env (asset s id) = true →
     0 < allocatedFunds (asset s id) - releasedFunds (asset s id) →
     accepts env (donor (asset s id))
       (allocatedFunds (asset s id) - releasedFunds (asset s id)) = true →
     ∃ s' t, exec env (RequestRefund id) s = inr (s', t)
             ∧ transfers t = [(donor (asset s id),
                               allocatedFunds (asset s id) - releasedFunds (asset s id))])
  ∧ (∀ r amount,
       hasRole s AUDITOR_ROLE (msg_sender env) = true → donor (asset s id) ≠ 0 →
       0 < amount ≤ allocatedFunds (asset s id) - releasedFunds (asset s id) →
       accepts env r amount = true →
       ∃ s' t, exec env (ManualReleaseFunds id r amount) s = inr (s', t)
               ∧ transfers t = [(r, amount)]).
Proof.
  intros Hs. pose proof (reaches_Inv _ _ Hs) as HI.
  pose proof (escrowed_balance s Hs) as Hbal.
  assert (Hback : ∀ x, allocatedFunds (asset s x) - releasedFunds (asset s x) ≤ balance s).
  { intros x. pose proof (escrow_le_total s x HI) as Hx. unfold escrow in Hx. lia. }
  split; [exact Hback|]. split.
  - intros Hex Hown Hnr Hel Hpos Hacc.
    assert (Hv : refund_verdict env s id = None).
    { apply refund_verdict_None. repeat split; done. }
    pose proof (requestRefund_pass env id s HI Hv) as Hp.
    pose proof (Hback id) as Hb. apply Z.leb_le in Hb. rewrite Hb, Hacc in Hp. cbn [andb] in Hp.
    do 2 eexists. split; [apply exec_inr_dispatch; exact Hp|]. reflexivity.
  - intros r amount Hrole Hex Ham Hacc.
    pose proof (inv_guard s HI) as Hg.
    destruct (inv_assets s HI id) as [B _ _ _ _ _].
    destruct (payout_fits _ s id r amount Hs ltac:(lia)) as (F1 & F2 & F3).
    specialize (Hback id).
    do 2 eexists. split.
    + apply exec_inr_dispatch. cbn [dispatch]. unfold manualReleaseFunds.
      run_to; reflexivity.
    + reflexivity.
Qed.

Lemma payouts_are_funded_without_withdrawal_witness :
  (∀ x, allocatedFunds (asset at_hub x) - releasedFunds (asset at_hub x) ≤ balance at_hub)
  ∧ (donor (asset at_hub shipment) ≠ 0 → donor (asset at_hub shipment) = msg_sender after_lock →
     isRefunded (asset at_hub shipment) = false →
     refund_eligible after_lock (asset at_hub shipment) = true →
     0 < allocatedFunds (asset at_hub shipment) - releasedFunds (asset at_hub shipment) →
     accepts after_lock (donor (asset at_hub shipment))
       (allocatedFunds (asset at_hub shipment) - releasedFunds (asset at_hub shipment)) = true →
     ∃ s' t, exec after_lock (RequestRefund shipment) at_hub = inr (s', t)
             ∧ transfers t = [(donor (asset at_hub shipment),
                               allocatedFunds (asset at_hub shipment)
                               - releasedFunds (asset at_hub shipment))])
  ∧ (∀ r amount,
       hasRole at_hub AUDITOR_ROLE (msg_sender after_lock) = true →
       donor (asset at_hub shipment) ≠ 0 →
       0 < amount ≤ allocatedFunds (asset at_hub shipment)
                    - releasedFunds (asset at_hub shipment) →
       accepts after_lock r amount = true →
       ∃ s' t, exec after_lock (ManualReleaseFunds shipment r amount) at_hub = inr (s', t)
               ∧ transfers t = [(r, amount)]).
Proof.
  apply (payouts_are_funded_without_withdrawal after_lock shipment at_hub).
  exact at_hub_escrowed.
Defined.

(** ** The scan threshold *)

Lemma due_below_threshold s a m :
  scansCount a < minScansForFirstPayout s → due s a m = false.
Proof.
  intros Hlt. unfold due. apply Z.leb_gt in Hlt. rewrite Hlt. by rewrite andb_false_r.
Qed.

Lemma rounds_below_threshold env id l s :
  scansCount (asset s id) < minScansForFirstPayout s →
  Forall (λ i, (i < length (milestones s id))%nat) l →
  release_rounds id l s = (s, []) ∧ rounds_ok env id l s.
Proof.
  intros Hlt Hl. induction Hl as [|i l Hi _ [IH1 IH2]]; [done|].
  apply lookup_lt_is_Some_2 in Hi. destruct Hi as [m Hm].
  assert (Hskip : release_round id i s = (s, [])).
  { apply (release_round_skip id i s m Hm). left. by apply due_below_threshold. }
  split.
  - cbn [release_rounds]. rewrite Hskip, IH1. done.
  - cbn [rounds_ok]. rewrite Hskip. split; [|exact IH2].
    exists m. split; [done|]. intros Hd.
    rewrite due_below_threshold in Hd by done. discriminate Hd.
Qed.

Lemma exec_minScans env c s s' t :
  exec env c s = inr (s', t) →
  minScansForFirstPayout s' = minScansForFirstPayout s
  ∨ ∃ n, c = UpdateMinScans n ∧ 0 < n ∧ minScansForFirstPayout s' = n.
Proof.
  intros H. summaries H.
  all: unfold created, released_manually, refund_state.
  all: try (by left; xobs).
  - left. scan_frame Hd. destruct F as [_ _ _ _ _ MS _ _ _]. by rewrite MS, minScans_scanned.
  - right. tests_to_props. eexists. split; [done|]. split; [done|]. by xobs.
Qed.

Lemma reaches_minScans allowed s :
  reaches allowed s → 0 < minScansForFirstPayout s ≤ MAX_UINT256.
Proof.
  induction 1 as [env admin auditor s t Henv Hc|env c s s' t Hreach IH Henv Hc Hal Hx].
  - apply constructor_state in Hc. destruct Hc as (_ & _ & rs & ->).
    unfold MAX_UINT256. cbn. lia.
  - destruct (exec_minScans _ _ _ _ _ Hx) as [->|(n & -> & Hn & ->)]; [done|].
    cbn in Hc. lia.
Qed.

(** X19. Below the threshold a scan pays nothing.  When the scan count
    after the scan is still below [minScansForFirstPayout], a scan by a
    scanner of an existing, unflagged asset in a reachable state succeeds
    whatever stage it reports and whether or not the NGO accepts payments: it
    records the scan, transfers nothing, and leaves the released funds, the
    milestones and the balance as they were. *)
Theorem payout_waits_for_scan_threshold env id geo st photo note s :
  reachable s →
  hasRole s SCANNER_ROLE (msg_sender env) = true →
  donor (asset s id) ≠ 0 →
  isFlagged (asset s id) = false →
  scansCount (asset s id) + 1 < minScansForFirstPayout s →
  ∃ s' t,
    exec env (ScanAsset id geo st photo note) s = inr (s', t)
    ∧ s' = scanned env id geo st photo note s
    ∧ transfers t = []
    ∧ releasedFunds (asset s' id) = releasedFunds (asset s id)
    ∧ milestones s' id = milestones s id
    ∧ balance s' = balance s
    ∧ currentStage (asset s' id) = st
    ∧ scansCount (asset s' id) = scansCount (asset s id) + 1.
Proof.
  intros Hs Hrole Hex Hfl Hlt.
  pose proof (reaches_minScans _ _ Hs) as Hk.
  assert (Hlt1 : scansCount (asset (scanned env id geo st photo note s) id)
                 < minScansForFirstPayout (scanned env id geo st photo note s)).
  { rewrite minScans_scanned, asset_scanned.
    destruct (anomaly (asset s id) geo st photo); cbn; lia. }
  destruct (rounds_below_threshold env id (seq 0 (length (milestones s id)))
              (scanned env id geo st photo note s) Hlt1) as [Hrounds Hok].
  { apply Forall_forall. intros i Hi. apply elem_of_seq in Hi.
    rewrite milestones_scanned. lia. }
  do 2 eexists. split.
  { apply (scan_exec env id geo st photo note s Hrole Hex Hfl); [lia|exact Hok]. }
  rewrite Hrounds. cbn [fst snd]. rewrite app_nil_r, transfers_scan_effects.
  rewrite asset_scanned, milestones_scanned, balance_scanned.
  repeat split; destruct (anomaly (asset s id) geo st photo); done.
Qed.

Lemma payout_waits_for_scan_threshold_witness :
  ∃ s' t,
    exec to_beneficiary.1 (ScanAsset shipment "Village C" Beneficiary 98 "delivered") three_scans
      = inr (s', t)
    ∧ s' = scanned to_beneficiary.1 shipment "Village C" Beneficiary 98 "delivered" three_scans
    ∧ transfers t = []
    ∧ releasedFunds (asset s' shipment) = releasedFunds (asset three_scans shipment)
    ∧ milestones s' shipment = milestones three_scans shipment
    ∧ balance s' = balance three_scans
    ∧ currentStage (asset s' shipment) = Beneficiary
    ∧ scansCount (asset s' shipment) = scansCount (asset three_scans shipment) + 1.
Proof.
  apply (payout_waits_for_scan_threshold to_beneficiary.1 shipment "Village C" Beneficiary 98
           "delivered" three_scans).
  - apply reaches_run; [exact funded_reachable|]. wf_txs.
  - vm_compute. reflexivity.
  - vm_compute. discriminate.
  - vm_compute. reflexivity.
  - vm_compute. reflexivity.
Defined.

(** ** Failing payouts *)







(** ** Changing the threshold *)

(** X21. In every reachable state the scan threshold is positive (it is 2
    at deployment) and fits [uint256].  [updateMinScans] succeeds exactly for
    an admin and a positive value; it then changes the threshold and nothing
    else, without a transfer; for an admin and the value zero it reverts with
    [MustBePositive]. *)
Theorem updateMinScans_outcome env n s :
  reachable s →
  0 < minScansForFirstPayout s ≤ MAX_UINT256
  ∧ ((∃ s' t, exec env (UpdateMinScans n) s = inr (s', t)) ↔
       hasRole s ADMIN_ROLE (msg_sender env) = true ∧ 0 < n)
  ∧ (∀ s' t, exec env (UpdateMinScans n) s = inr (s', t) →
       s' = with_minScans n s ∧ transfers t = [])
  ∧ (hasRole s ADMIN_ROLE (msg_sender env) = true → n ≤ 0 →
     exec env (UpdateMinScans n) s = inl MustBePositive).
Proof.
  intros Hs. split; [by eapply reaches_minScans|]. split; [split|split].
  - intros (s' & t & H). apply exec_inr_dispatch in H. cbn [dispatch] in H.
    unfold updateMinScans in H. minv. tests_to_props. done.
  - intros [Hrole Hn]. do 2 eexists. apply exec_inr_dispatch. cbn [dispatch].
    unfold updateMinScans. run_all.
  - intros s' t H. apply exec_inr_dispatch in H. cbn [dispatch] in H.
    unfold updateMinScans in H. minv. done.
  - intros Hrole Hn. apply exec_inl_dispatch. cbn [dispatch].
    unfold updateMinScans. run_all.
Qed.

Lemma updateMinScans_outcome_witness :
  0 < minScansForFirstPayout at_hub ≤ MAX_UINT256
  ∧ ((∃ s' t, exec (platform 1 300) (UpdateMinScans 3) at_hub = inr (s', t)) ↔
       hasRole at_hub ADMIN_ROLE (msg_sender (platform 1 300)) = true ∧ 0 < 3)
  ∧ (∀ s' t, exec (platform 1 300) (UpdateMinScans 3) at_hub = inr (s', t) →
       s' = with_minScans 3 at_hub ∧ transfers t = [])
  ∧ (hasRole at_hub ADMIN_ROLE (msg_sender (platform 1 300)) = true → 3 ≤ 0 →
     exec (platform 1 300) (UpdateMinScans 3) at_hub = inl MustBePositive).
Proof.
  apply (updateMinScans_outcome (platform 1 300) 3 at_hub). by apply at_hub_reachable.
Defined.

(** ** Registration of scanners and NGOs *)

Lemma _grantRole_granted env r a s u s' t :
  _grantRole env r a s = inr (u, s', t) → granted env r a s s' t.
Proof.
  intros H. unfold _grantRole in H. unfold granted.
  minv.
  - done.
  - split; [|split; [|done]].
    + unfold hasRole. cbn. apply bool_decide_eq_true. set_solver.
    + intros r' x Hne. unfold hasRole. cbn. apply bool_decide_ext. set_solver.
Qed.

Lemma onlyRole_bind_inr {A : Type} env r (m : M A) s u s' t :
  (onlyRole env r ;; m) s = inr (u, s', t) →
  hasRole s r (msg_sender env) = true ∧ m s = inr (u, s', t).
Proof.
  intros H. apply bind_inr in H. destruct H as (? & s1 & t1 & t2 & H1 & H & ->).
  unfold onlyRole in H1. minv. tests_to_props. done.
Qed.

(** X22. [addScanner] and [addNGO] succeed exactly for a sender with the
    admin role.  Afterwards the address holds the scanner (NGO) role and every
    other membership is as before; nothing else in the state changes.  For an
    address that already holds the role the call succeeds without a write and
    without an event; otherwise it emits [RoleGranted]. *)
Theorem registration_outcome env a s :
  ((∃ s' t, exec env (AddScanner a) s = inr (s', t)) ↔
     hasRole s ADMIN_ROLE (msg_sender env) = true)
  ∧ ((∃ s' t, exec env (AddNGO a) s = inr (s', t)) ↔
       hasRole s ADMIN_ROLE (msg_sender env) = true)
  ∧ (∀ s' t, exec env (AddScanner a) s = inr (s', t) → granted env SCANNER_ROLE a s s' t)
  ∧ (∀ s' t, exec env (AddNGO a) s = inr (s', t) → granted env NGO_ROLE a s s' t).
Proof.
  split; [split|split; [split|split]].
  - intros (s' & t & H). apply exec_inr_dispatch in H. cbn [dispatch] in H.
    unfold addScanner in H. apply bind_inr in H. destruct H as (? & ? & ? & ? & H & _ & _).
    unfold onlyRole in H. minv. by tests_to_props.
  - intros Hrole.
    destruct (_grantRole_total env SCANNER_ROLE a s) as (s' & t & H).
    exists s', t. apply exec_inr_dispatch. cbn [dispatch].
    unfold addScanner, grantRole. cbn [getRoleAdmin]. run_to; [exact H|done|done].
  - intros (s' & t & H). apply exec_inr_dispatch in H. cbn [dispatch] in H.
    unfold addNGO in H. apply bind_inr in H. destruct H as (? & ? & ? & ? & H & _ & _).
    unfold onlyRole in H. minv. by tests_to_props.
  - intros Hrole.
    destruct (_grantRole_total env NGO_ROLE a s) as (s' & t & H).
    exists s', t. apply exec_inr_dispatch. cbn [dispatch].
    unfold addNGO, grantRole. cbn [getRoleAdmin]. run_to; [exact H|done|done].
  - intros s' t H. apply exec_inr_dispatch in H. cbn [dispatch] in H.
    unfold addScanner, grantRole in H.
    apply onlyRole_bind_inr in H. destruct H as [_ H].
    apply onlyRole_bind_inr in H. destruct H as [_ H].
    by apply _grantRole_granted in H.
  - intros s' t H. apply exec_inr_dispatch in H. cbn [dispatch] in H.
    unfold addNGO, grantRole in H.
    apply onlyRole_bind_inr in H. destruct H as [_ H].
    apply onlyRole_bind_inr in H. destruct H as [_ H].
    by apply _grantRole_granted in H.
Qed.

(** ** Deployment *)

(** X23. Deployment reverts with [InvalidAdmin] for a zero admin and
    with [InvalidAuditor] for a zero auditor (in this order) and succeeds
    otherwise.  The deployed contract has exactly three role memberships (the
    admin holds the default admin and the admin role, the auditor the auditor
    role), a threshold of 2, zero totals and balance and no asset; so until
    an NGO and a scanner are registered every [initAsset] reverts and every
    [scanAsset] reverts with the missing-role error. *)
Theorem constructor_outcome env admin auditor :
  (admin = 0 → constructor env admin auditor deployed_storage = inl InvalidAdmin)
  ∧ (admin ≠ 0 → auditor = 0 →
     constructor env admin auditor deployed_storage = inl InvalidAuditor)
  ∧ (admin ≠ 0 → auditor ≠ 0 →
     ∃ s t,
       constructor env admin auditor deployed_storage = inr (tt, s, t)
       ∧ (∀ r a, hasRole s r a = true ↔
                 (r = DEFAULT_ADMIN_ROLE ∧ a = admin) ∨ (r = ADMIN_ROLE ∧ a = admin)
                 ∨ (r = AUDITOR_ROLE ∧ a = auditor))
       ∧ minScansForFirstPayout s = 2
       ∧ totalAssetsTracked s = 0 ∧ totalFundsAllocated s = 0 ∧ totalFundsReleased s = 0
       ∧ balance s = 0
       ∧ (∀ id, asset s id = zero_asset ∧ milestones s id = [] ∧ history s id = [])
       ∧ (∀ env' v id desc ngo geo,
            ∃ e, exec env' (InitAsset v id desc ngo geo) s = inl e)
       ∧ (∀ env' id geo st photo note,
            exec env' (ScanAsset id geo st photo note) s = inl (MissingRole SCANNER_ROLE))).
Proof.
  split; [|split].
  - intros ->. reflexivity.
  - intros Ha ->. unfold constructor. run_all.
  - intros Ha Hb.
    destruct (constructor_total env admin auditor Ha Hb) as (s & t & H).
    exists s, t. split; [exact H|].
    assert (Hroles : ∀ r a, hasRole s r a = true ↔
                 (r = DEFAULT_ADMIN_ROLE ∧ a = admin) ∨ (r = ADMIN_ROLE ∧ a = admin)
                 ∨ (r = AUDITOR_ROLE ∧ a = auditor)).
    { apply constructor_inr in H.
      destruct H as (_ & _ & s1 & s2 & t1 & t2 & t3 & H3 & H4 & H5).
      unfold _grantRole in *. minv.
      all: repeat match goal with
                  | H : hasRole _ _ _ = _ |- _ =>
                      unfold hasRole in H; cbn in H;
                      first [apply bool_decide_eq_true in H | apply bool_decide_eq_false in H]
                  end.
      all: intros r a; unfold hasRole; rewrite bool_decide_eq_true; cbn.
      all: set_solver. }
    pose proof (constructor_state _ _ _ _ _ H) as (_ & _ & rs & ->).
    split; [exact Hroles|].
    repeat (split; [reflexivity|]).
    split; [intros id; by obs|].
    split.
    + intros env' v id desc ngo geo.
      destruct (exec env' (InitAsset v id desc ngo geo) (with_roles rs deployed_storage))
        as [e|[s' t']] eqn:Hx; [by exists e|exfalso].
      apply exec_inr_dispatch in Hx. cbn [dispatch] in Hx.
      apply initAsset_inr in Hx. destruct Hx as (_ & _ & _ & Hreg & _).
      apply Hroles in Hreg. naive_solver.
    + intros env' id geo st photo note. apply exec_inl_dispatch. cbn [dispatch].
      assert (Hno : hasRole (with_roles rs deployed_storage) SCANNER_ROLE (msg_sender env')
                    = false).
      { destruct (hasRole _ SCANNER_ROLE (msg_sender env')) eqn:Hh; [|done].
        apply Hroles in Hh. naive_solver. }
      unfold scanAsset. run_all.
Qed.
